(** * Confluence attachment tools: a shallow embedding and its properties

    The two scripts [confluence_erase_attachments.py] and
    [confluence_update_attachment.py] resolve a Confluence page from a
    [_publish.yml] mapping, list the page's attachments, and delete, update
    or create attachments through the REST API.

    The embedding keeps the dynamic typing of the Python code: documents
    loaded from YAML and JSON are values of [pyval], Python's truthiness,
    [dict.get], [x or y] and the exceptions raised on ill-typed values are
    written out.  The network, the terminal and the file system are an
    explicit [world]; every command produces the sequence of [event]s it
    emits.

    Conventions of the model:
    - strings are byte strings; the character classes used by [str.strip]
      and by [\d] are the ASCII ones;
    - JSON and YAML numbers are integers (floating point values are not
      modelled);
    - paths follow [posixpath];
    - transport failures of [requests] (no response at all) are not
      modelled: every request gets a response. *)

From Stdlib Require Import ZArith List String Ascii Bool Lia DecimalString.
Import ListNotations.

Local Open Scope string_scope.
Local Open Scope Z_scope.

(* ================================================================== *)
(** ** Python values *)

#[local] Set Warnings "-register-all".

Inductive pyval : Type :=
| PNone
| PBool (b : bool)
| PInt (n : Z)
| PStr (s : string)
| PList (l : list pyval)
| PDict (d : list (string * pyval)).

(** [bool(v)] *)
Definition truthy (v : pyval) : bool :=
  match v with
  | PNone => false
  | PBool b => b
  | PInt n => negb (n =? 0)
  | PStr s => negb (s =? "")%string
  | PList l => match l with [] => false | _ => true end
  | PDict d => match d with [] => false | _ => true end
  end.

(** [a or b] *)
Definition py_or (a b : pyval) : pyval := if truthy a then a else b.

(** Exit messages and terminal lines: the template of each f-string with the
    values it interpolates. *)
Inductive message : Type :=
| MsgEnvNotSet (k : string)
| MsgUnexpectedStructure (publish_path : string)
| MsgNoConfluenceConfig (source_qmd publish_path : string)
| MsgNoPageId (source_qmd publish_path : string)
| MsgSourceNotFound (source_qmd publish_path : string)
| MsgNoBaseUrl
| MsgNoAttachmentsMatched
| MsgFound (n : nat) (page_id : string)
| MsgItem (id title fileSize : pyval)
| MsgDryRunNothingDeleted
| MsgConfirmDelete
| MsgDeleted (id title : pyval)
| MsgFailed (id title : pyval) (status : Z)
| MsgText (body : string)
| MsgAllSucceeded
| MsgCompletedWithFailures (failures : Z)
| MsgDebugPage (page_id base_url : string) (upload_name : pyval)
| MsgDebugAttachmentId (attachment_id : string)
| MsgIdNotAccessible (attachment_id : string) (status : Z)
| MsgNotFound (upload_name : pyval) (page_id : string)
| MsgWouldCreate (upload_name : pyval) (page_id file : string)
| MsgCreated (upload_name did vnum : pyval)
| MsgWouldUpdate (aid current_title : pyval) (page_id file : string)
                 (current_ver : pyval)
| MsgUpdated (aid current_title new_ver size : pyval)
| MsgDownload (link : string)
| MsgUpdateFailed (status : Z) (body : string)
| MsgCreateFailed (status : Z) (body : string).

(** The exceptions the scripts raise or let escape. *)
Inductive exn : Type :=
| AttributeError
| TypeError
| ValueError
| KeyError
| IndexError
| JSONDecodeError
| OSError
| YAMLError
| OverflowError
| HTTPError (status : Z)
| Exit (code : Z) (msg : option message).

(** The result of running a piece of code: a value, an exception, or no
    result within the given number of loop iterations. *)
Inductive outcome (A : Type) : Type :=
| Ok (a : A)
| Raise (e : exn)
| OutOfFuel.
Arguments Ok {A} a.
Arguments Raise {A} e.
Arguments OutOfFuel {A}.

Definition obind {A B} (m : outcome A) (f : A -> outcome B) : outcome B :=
  match m with
  | Ok a => f a
  | Raise e => Raise e
  | OutOfFuel => OutOfFuel
  end.

Declare Scope outcome_scope.
Delimit Scope outcome_scope with outcome.
Notation "x <~ m ; k" := (obind m (fun x => k))
  (at level 61, m at next level, right associativity) : outcome_scope.

Fixpoint assoc (k : string) (d : list (string * pyval)) : option pyval :=
  match d with
  | [] => None
  | (k', v) :: d' => if (k' =? k)%string then Some v else assoc k d'
  end.

(** [v.get(k, default)]; only a dict has [get]. *)
Definition py_get (v : pyval) (k : string) (default : pyval) : outcome pyval :=
  match v with
  | PDict d => Ok (match assoc k d with Some x => x | None => default end)
  | _ => Raise AttributeError
  end.

(* ================================================================== *)
(** ** Strings *)

Definition is_digit (c : ascii) : bool :=
  let n := nat_of_ascii c in (48 <=? n)%nat && (n <=? 57)%nat.

(** The characters that [str.strip()] removes, among the code points below
    256: tab to carriage return, the four separators 28 to 31, the space,
    NEXT LINE (133) and NO-BREAK SPACE (160). *)
Definition is_space (c : ascii) : bool :=
  let n := nat_of_ascii c in
  ((9 <=? n)%nat && (n <=? 13)%nat) || ((28 <=? n)%nat && (n <=? 32)%nat)
  || (n =? 133)%nat || (n =? 160)%nat.

Fixpoint lstrip_by (p : ascii -> bool) (s : string) : string :=
  match s with
  | EmptyString => EmptyString
  | String c s' => if p c then lstrip_by p s' else s
  end.

Fixpoint rstrip_by (p : ascii -> bool) (s : string) : string :=
  match s with
  | EmptyString => EmptyString
  | String c s' =>
      match rstrip_by p s' with
      | EmptyString => if p c then EmptyString else String c EmptyString
      | r => String c r
      end
  end.

(** [s.strip()] *)
Definition strip (s : string) : string := rstrip_by is_space (lstrip_by is_space s).

(** [s.rstrip("/")] *)
Definition rstrip_slash (s : string) : string := rstrip_by (Ascii.eqb "/") s.

(** [s.startswith(p)] *)
Definition startswith (s p : string) : bool := String.prefix p s.

(** [p in s] for two strings. *)
Fixpoint is_substring (p s : string) : bool :=
  String.prefix p s ||
  match s with
  | EmptyString => false
  | String _ s' => is_substring p s'
  end.

(** [s.split(c)] for a one-character separator. *)
Fixpoint split_on (c : ascii) (s : string) : list string :=
  match s with
  | EmptyString => [EmptyString]
  | String a s' =>
      if Ascii.eqb a c then EmptyString :: split_on c s'
      else match split_on c s' with
           | [] => [String a EmptyString]
           | h :: t => String a h :: t
           end
  end.

Fixpoint drop (n : nat) (s : string) : string :=
  match n, s with
  | O, _ => s
  | S n', String _ s' => drop n' s'
  | S _, EmptyString => EmptyString
  end.

Fixpoint take_while (p : ascii -> bool) (s : string) : string :=
  match s with
  | EmptyString => EmptyString
  | String c s' => if p c then String c (take_while p s') else EmptyString
  end.

(** [re.search(r"/pages/(\d+)", s)]: group 1 of the leftmost match, if any. *)
Fixpoint search_pages_id (s : string) : option string :=
  let here :=
    if String.prefix "/pages/" s
    then match take_while is_digit (drop 7 s) with
         | EmptyString => None
         | d => Some d
         end
    else None in
  match here with
  | Some d => Some d
  | None => match s with
            | EmptyString => None
            | String _ s' => search_pages_id s'
            end
  end.

(** [str(n)] for an integer. *)
Definition str_of_Z (n : Z) : string := NilZero.string_of_int (Z.to_int n).

Definition ch_backslash : ascii := ascii_of_nat 92.
Definition ch_dquote : ascii := ascii_of_nat 34.
Definition ch_squote : ascii := ascii_of_nat 39.

Definition hex_digit (n : nat) : ascii :=
  ascii_of_nat (if (n <? 10)%nat then 48 + n else 87 + n)%nat.

(** One character of [repr(s)], inside the quote [q]: the backslash, the
    quote and the control characters are escaped. *)
Definition repr_char (q : ascii) (c : ascii) : string :=
  let n := nat_of_ascii c in
  if Ascii.eqb c ch_backslash then String ch_backslash (String ch_backslash "")
  else if Ascii.eqb c q then String ch_backslash (String q "")
  else if (n =? 10)%nat then String ch_backslash "n"
  else if (n =? 13)%nat then String ch_backslash "r"
  else if (n =? 9)%nat then String ch_backslash "t"
  else if ((n <? 32)%nat || (n =? 127)%nat)
       then String ch_backslash
              (String "x" (String (hex_digit (n / 16))
                             (String (hex_digit (n mod 16)) "")))
  else String c "".

Fixpoint has_char (c : ascii) (s : string) : bool :=
  match s with
  | EmptyString => false
  | String a s' => Ascii.eqb a c || has_char c s'
  end.

Fixpoint concat_map_chars (f : ascii -> string) (s : string) : string :=
  match s with
  | EmptyString => EmptyString
  | String a s' => f a ++ concat_map_chars f s'
  end.

(** [repr(s)] for a string: single quotes, unless the string holds a single
    quote and no double quote. *)
Definition repr_str (s : string) : string :=
  let q := if has_char ch_squote s && negb (has_char ch_dquote s)
           then ch_dquote else ch_squote in
  String q (concat_map_chars (repr_char q) s ++ String q "").

(** [repr(v)] *)
Fixpoint py_repr (v : pyval) : string :=
  match v with
  | PNone => "None"
  | PBool true => "True"
  | PBool false => "False"
  | PInt n => str_of_Z n
  | PStr s => repr_str s
  | PList l => "[" ++ String.concat ", " (map py_repr l) ++ "]"
  | PDict d =>
      "{" ++ String.concat ", "
               (map (fun kv => repr_str (fst kv) ++ ": " ++ py_repr (snd kv)) d)
          ++ "}"
  end.

(** [str(v)], which is also what an f-string interpolates. *)
Definition py_str (v : pyval) : string :=
  match v with
  | PStr s => s
  | _ => py_repr v
  end.

(* ================================================================== *)
(** ** Paths ([posixpath] and [pathlib]) *)

(** The loop of [posixpath.normpath]; [new_comps] is kept with its last
    element first. *)
Definition normpath_step (initial_slashes : nat) (new_comps : list string)
           (comp : string) : list string :=
  if (comp =? "")%string || (comp =? ".")%string then new_comps
  else if negb (comp =? "..")%string
          || ((initial_slashes =? 0)%nat && match new_comps with [] => true | _ => false end)
          || match new_comps with
             | last :: _ => (last =? "..")%string
             | [] => false
             end
       then comp :: new_comps
       else match new_comps with
            | _ :: rest => rest
            | [] => []
            end.

Fixpoint repeat_string (n : nat) (s : string) : string :=
  match n with
  | O => EmptyString
  | S n' => s ++ repeat_string n' s
  end.

(** [os.path.normpath(path)] *)
Definition normpath (path : string) : string :=
  if (path =? "")%string then "."
  else
    let initial_slashes :=
      if startswith path "/"
      then if startswith path "//" && negb (startswith path "///")
           then 2%nat else 1%nat
      else 0%nat in
    let comps := rev (fold_left (normpath_step initial_slashes)
                                (split_on "/" path) []) in
    let p := repeat_string initial_slashes "/" ++ String.concat "/" comps in
    if (p =? "")%string then "." else p.

(** [os.path.basename(p)]: what follows the last slash. *)
Definition basename (p : string) : string := last (split_on "/" p) EmptyString.

(** [_norm] *)
Definition _norm (p : string) : string := basename (normpath p).

(** [Path(p).name]: the last component that is neither empty nor a dot. *)
Definition path_name (p : string) : string :=
  last (filter (fun c => negb ((c =? "")%string || (c =? ".")%string))
               (split_on "/" p)) EmptyString.

(* ================================================================== *)
(** ** The world: network, terminal, files, environment *)

Inductive http_method : Type := GET | POST | DELETE.

(** A call of [requests.get], [requests.post] or [requests.delete].
    [rq_files] is the multipart part [(upload_name, path of the open file)]. *)
Record request : Type := mkRequest {
  rq_method : http_method;
  rq_url : string;
  rq_auth : string * string;
  rq_params : list (string * pyval);
  rq_headers : list (string * string);
  rq_files : option (pyval * string)
}.

(** A [requests.Response]: [r.status_code], [r.json()] ([None] when the body
    is not JSON) and [r.text]. *)
Record response : Type := mkResponse {
  status_code : Z;
  body_json : option pyval;
  text : string
}.

Inductive event : Type :=
| EvOpen (path mode : string)
| EvHttp (rq : request) (rs : response)
| EvEcho (m : message)
| EvConfirm (prompt : message) (answer : bool).

(** [urlsplit(url)]: the three fields the scripts read. *)
Record url_parts : Type := mkParts {
  scheme : string;
  netloc : string;
  path : string
}.

(** What the scripts get from outside.  The server and the user answer
    knowing everything that happened before ([list event]). *)
Record world : Type := mkWorld {
  w_environ : string -> option string;
  w_load_yaml : string -> outcome pyval;
  w_urlsplit : string -> outcome url_parts;
  w_float_accepts : string -> bool;
  w_http : list event -> request -> response;
  w_confirm : list event -> bool
}.

(** A computation reads the history and returns its outcome with the events
    it emitted, oldest first. *)
Definition M (A : Type) : Type := list event -> outcome A * list event.

Definition ret {A} (a : A) : M A := fun _ => (Ok a, []).

Definition bind {A B} (m : M A) (f : A -> M B) : M B :=
  fun h =>
    match m h with
    | (Ok a, es) => let (r, es') := f a (h ++ es)%list in (r, (es ++ es')%list)
    | (Raise e, es) => (Raise e, es)
    | (OutOfFuel, es) => (OutOfFuel, es)
    end.

Definition lift {A} (o : outcome A) : M A := fun _ => (o, []).
Definition raise {A} (e : exn) : M A := lift (Raise e).
Definition emit (ev : event) : M unit := fun _ => (Ok tt, [ev]).
Definition echo (m : message) : M unit := emit (EvEcho m).

Definition send (w : world) (rq : request) : M response :=
  fun h => let rs := w_http w h rq in (Ok rs, [EvHttp rq rs]).

Definition confirm (w : world) (prompt : message) : M bool :=
  fun h => let a := w_confirm w h in (Ok a, [EvConfirm prompt a]).

Declare Scope io_scope.
Delimit Scope io_scope with io.
Notation "x <- m ;; k" := (bind m (fun x => k))
  (at level 61, m at next level, right associativity) : io_scope.
Notation "m ;; k" := (bind m (fun _ => k))
  (at level 61, right associativity) : io_scope.

Fixpoint foldM {A S} (f : S -> A -> M S) (l : list A) (acc : S) : M S :=
  match l with
  | [] => ret acc
  | x :: l' => (acc' <- f acc x ;; foldM f l' acc')%io
  end.

(** [r.raise_for_status()] *)
Definition raise_for_status (r : response) : outcome unit :=
  if (400 <=? status_code r) && (status_code r <? 600)
  then Raise (HTTPError (status_code r)) else Ok tt.

(** [r.json()] *)
Definition json (r : response) : outcome pyval :=
  match body_json r with
  | Some v => Ok v
  | None => Raise JSONDecodeError
  end.

(** An optional string argument used as a condition. *)
Definition opt_truthy (a : option string) : bool :=
  match a with
  | Some s => negb (s =? "")%string
  | None => false
  end.

(** [raise typer.Exit(code=code, message=m)].  [typer.Exit] is click's
    [Exit], whose constructor takes [code] and nothing else: the keyword
    [message] is refused, so the call itself raises TypeError and neither
    the exit code nor the message reaches the caller.  Only the bare
    [typer.Exit()] and [typer.Exit(code=1)] of the scripts raise an
    [Exit]. *)
Definition exit_with (code : Z) (m : message) : exn := TypeError.

(* ================================================================== *)
(** ** Helpers shared by the two scripts *)

Definition env_or_die (w : world) (k : string) : outcome string :=
  match w_environ w k with
  | Some v => if (v =? "")%string then Raise (exit_with 2 (MsgEnvNotSet k)) else Ok v
  | None => Raise (exit_with 2 (MsgEnvNotSet k))
  end.

(** The loop over [("/wiki", "/confluence")]: the first that the path
    starts with, else the empty string. *)
Definition context_of (url_path : string) : string :=
  if startswith url_path "/wiki" then "/wiki"
  else if startswith url_path "/confluence" then "/confluence"
  else "".

Definition infer_base_url_from_page_url (w : world) (page_url : pyval)
  : outcome (option string) :=
  if negb (truthy page_url) then Ok None
  else match page_url with
       | PStr u =>
           (parts <~ w_urlsplit w u ;
            let ctx := context_of (path parts) in
            if negb (scheme parts =? "")%string && negb (netloc parts =? "")%string
            then Ok (Some (scheme parts ++ "://" ++ netloc parts ++ ctx))
            else Ok None)%outcome
       | _ => Raise AttributeError
       end.

(** The page identity [{"id": page_id, "url": page_url}]. *)
Record page_info : Type := mkPage {
  pi_id : string;
  pi_url : pyval
}.

(** [_norm] applied to a value of the document: [os.path.normpath] rejects
    what is not a string. *)
Definition norm_value (v : pyval) : outcome string :=
  match v with
  | PStr s => Ok (_norm s)
  | _ => Raise TypeError
  end.

(** Line 41: the object of the [confluence] field, or the first element
    when the field is a list. *)
Definition config_item (cfg : pyval) : pyval :=
  if truthy cfg
  then match cfg with
       | PList (x :: _) => x
       | _ => cfg
       end
  else PNone.

(** Lines 42-51: the page identity held by the object [item]. *)
Definition page_of_item (item : pyval) (publish_path source_qmd : string)
  : outcome page_info :=
  match item with
  | PDict _ =>
      (idv <~ py_get item "id" PNone ;
       let page_id := strip (py_str (py_or idv (PStr ""))) in
       page_url <~ py_get item "url" PNone ;
       page_id <~ (if (page_id =? "")%string && truthy page_url
                   then match page_url with
                        | PStr u => Ok (match search_pages_id u with
                                        | Some d => d
                                        | None => page_id
                                        end)
                        | _ => Raise TypeError
                        end
                   else Ok page_id) ;
       if (page_id =? "")%string
       then Raise (exit_with 2 (MsgNoPageId source_qmd publish_path))
       else Ok (mkPage page_id page_url))%outcome
  | _ => Raise (exit_with 2 (MsgNoConfluenceConfig source_qmd publish_path))
  end.

(** Lines 40-51: the page identity of the entry that matched. *)
Definition page_of_entry (entry : pyval) (publish_path source_qmd : string)
  : outcome page_info :=
  (cfg <~ py_get entry "confluence" PNone ;
   page_of_item (config_item cfg) publish_path source_qmd)%outcome.

(** The [for entry in data] loop. *)
Fixpoint scan_entries (entries : list pyval) (target publish_path source_qmd : string)
  : outcome page_info :=
  match entries with
  | [] => Raise (exit_with 2 (MsgSourceNotFound source_qmd publish_path))
  | entry :: rest =>
      match entry with
      | PDict _ =>
          (src <~ py_get entry "source" (PStr "") ;
           n <~ norm_value src ;
           if negb (n =? target)%string
           then scan_entries rest target publish_path source_qmd
           else page_of_entry entry publish_path source_qmd)%outcome
      | _ => scan_entries rest target publish_path source_qmd
      end
  end.

(** [get_page_from_publish] on the loaded document. *)
Definition page_from_data (data : pyval) (publish_path source_qmd : string)
  : outcome page_info :=
  match data with
  | PList entries => scan_entries entries (_norm source_qmd) publish_path source_qmd
  | _ => Raise (exit_with 2 (MsgUnexpectedStructure publish_path))
  end.

Definition get_page_from_publish (w : world) (publish_path source_qmd : string)
  : M page_info :=
  (emit (EvOpen publish_path "r") ;;
   data <- lift (w_load_yaml w publish_path) ;;
   lift (page_from_data data publish_path source_qmd))%io.

Definition make_auth (w : world) (email token : option string)
  : outcome (string * string) :=
  (em <~ (match email with
          | Some e => if opt_truthy email then Ok e else env_or_die w "CONFLUENCE_EMAIL"
          | None => env_or_die w "CONFLUENCE_EMAIL"
          end) ;
   tk <~ (match token with
          | Some t => if opt_truthy token then Ok t else env_or_die w "CONFLUENCE_API_TOKEN"
          | None => env_or_die w "CONFLUENCE_API_TOKEN"
          end) ;
   Ok (em, tk))%outcome.

Definition resolve_base_url (w : world) (cli_base_url : option string) (page_url : pyval)
  : outcome string :=
  (base <~ (if opt_truthy cli_base_url then Ok cli_base_url
            else if opt_truthy (w_environ w "CONFLUENCE_BASE_URL")
                 then Ok (w_environ w "CONFLUENCE_BASE_URL")
                 else infer_base_url_from_page_url w (py_or page_url (PStr ""))) ;
   if opt_truthy base
   then match base with
        | Some b => Ok (rstrip_slash b)
        | None => Raise (exit_with 2 MsgNoBaseUrl)
        end
   else Raise (exit_with 2 MsgNoBaseUrl))%outcome.

(* ================================================================== *)
(** ** confluence_erase_attachments.py *)

Definition attachment_url (base_url page_id : string) : string :=
  base_url ++ "/rest/api/content/" ++ page_id ++ "/child/attachment".

Definition list_request (base_url page_id : string) (auth : string * string)
           (start limit : Z) : request :=
  mkRequest GET (attachment_url base_url page_id) auth
            [("start", PInt start); ("limit", PInt limit);
             ("expand", PStr "version,extensions,metadata")]
            [] None.

(** [for att in v]: a list gives its elements, a dict its keys, a string its
    characters; nothing else can be iterated. *)
Fixpoint chars_of (s : string) : list pyval :=
  match s with
  | EmptyString => []
  | String c s' => PStr (String c EmptyString) :: chars_of s'
  end.

Definition py_iter (v : pyval) : outcome (list pyval) :=
  match v with
  | PList l => Ok l
  | PDict d => Ok (map (fun kv => PStr (fst kv)) d)
  | PStr s => Ok (chars_of s)
  | _ => Raise TypeError
  end.

(** The generator [iter_attachments], driven by the loop that consumes it:
    [body] is run on every attachment as it is yielded, before the next
    page is requested.  [fuel] bounds the number of pages. *)
Fixpoint iter_attachments {S : Type} (fuel : nat) (w : world)
         (base_url page_id : string) (auth : string * string) (limit : Z)
         (body : S -> pyval -> M S) (start : Z) (acc : S) : M S :=
  match fuel with
  | O => lift OutOfFuel
  | Datatypes.S fuel' =>
      (r <- send w (list_request base_url page_id auth start limit) ;;
       lift (raise_for_status r) ;;
       data <- lift (json r) ;;
       results <- lift (py_get data "results" (PList [])) ;;
       atts <- lift (py_iter results) ;;
       acc' <- foldM body atts acc ;;
       links <- lift (py_get data "_links" PNone) ;;
       next <- lift (py_get (py_or links (PDict [])) "next" PNone) ;;
       if truthy next
       then iter_attachments fuel' w base_url page_id auth limit body (start + limit) acc'
       else ret acc')%io
  end.

(** The default of the [limit] parameter. *)
Definition default_limit : Z := 50.

(** A normalized attachment record (the dict built by
    [list_page_attachments]). *)
Record attachment_record : Type := mkRecord {
  ar_id : pyval;
  ar_title : pyval;
  ar_mediaType : pyval;
  ar_fileSize : pyval;
  ar_version : pyval;
  ar_created : pyval;
  ar_creator : pyval;
  ar_download : pyval;
  ar_webui : pyval
}.

Fixpoint list_has_str (s : string) (l : list pyval) : bool :=
  match l with
  | [] => false
  | PStr t :: l' => (t =? s)%string || list_has_str s l'
  | _ :: l' => list_has_str s l'
  end.

(** [s in v] for a string [s] *)
Definition py_contains (s : string) (v : pyval) : outcome bool :=
  match v with
  | PStr t => Ok (is_substring s t)
  | PList l => Ok (list_has_str s l)
  | PDict d => Ok (match assoc s d with Some _ => true | None => false end)
  | _ => Raise TypeError
  end.

(** [f'{base_url}{link}' if link else None] *)
Definition link_or_none (base_url : string) (link : pyval) : pyval :=
  if truthy link then PStr (base_url ++ py_str link) else PNone.

(** The body of the loop of [list_page_attachments]. *)
Definition normalize_attachment (base_url : string) (filename_contains : option string)
           (items : list attachment_record) (att : pyval)
  : outcome (list attachment_record) :=
  (title <~ py_get att "title" (PStr "") ;
   skip <~ (match filename_contains with
            | Some fc => if opt_truthy filename_contains
                         then (b <~ py_contains fc title ; Ok (negb b))
                         else Ok false
            | None => Ok false
            end) ;
   if (skip : bool) then Ok items
   else
     e <~ py_get att "extensions" PNone ; let ext := py_or e (PDict []) in
     v <~ py_get att "version" PNone ; let ver := py_or v (PDict []) in
     l <~ py_get att "_links" PNone ; let links := py_or l (PDict []) in
     id <~ py_get att "id" PNone ;
     mediaType <~ py_get ext "mediaType" PNone ;
     fileSize <~ py_get ext "fileSize" PNone ;
     number <~ py_get ver "number" PNone ;
     when <~ py_get ver "when" PNone ;
     by_ <~ py_get ver "by" PNone ;
     creator <~ py_get (py_or by_ (PDict [])) "displayName" PNone ;
     download <~ py_get links "download" PNone ;
     webui <~ py_get links "webui" PNone ;
     Ok (items ++ [mkRecord id title mediaType fileSize number when creator
                            (link_or_none base_url download)
                            (link_or_none base_url webui)])%list)%outcome.

Definition list_page_attachments (fuel : nat) (w : world) (base_url page_id : string)
           (auth : string * string) (filename_contains : option string)
  : M (list attachment_record) :=
  iter_attachments fuel w base_url page_id auth default_limit
    (fun items att => lift (normalize_attachment base_url filename_contains items att))
    0 [].

Definition delete_request (base_url : string) (attachment_id : pyval)
           (auth : string * string) : request :=
  mkRequest DELETE (base_url ++ "/rest/api/content/" ++ py_str attachment_id) auth
            [] [] None.

Definition delete_attachment (w : world) (base_url : string) (attachment_id : pyval)
           (auth : string * string) : M response :=
  send w (delete_request base_url attachment_id auth).

(** [human(n)]: only whether it returns; the rendered size is not modelled.
    [float(n)] overflows on an integer that rounds to 2^1024 or more. *)
Definition human (w : world) (n : pyval) : outcome unit :=
  match n with
  | PNone => Ok tt
  | PBool _ => Ok tt
  | PInt k => if Z.abs k <? 2 ^ 1024 - 2 ^ 970 then Ok tt else Raise OverflowError
  | PStr s => if w_float_accepts w s then Ok tt else Raise ValueError
  | _ => Raise TypeError
  end.

(** The arguments of the [delete] command. *)
Record delete_args : Type := mkDeleteArgs {
  d_source : string;
  d_publish : string;
  d_filename_contains : option string;
  d_dry_run : bool;
  d_yes : bool;
  d_base_url : option string;
  d_email : option string;
  d_token : option string
}.

(** The loop that prints the matched attachments. *)
Fixpoint preview_loop (w : world) (atts : list attachment_record) : M unit :=
  match atts with
  | [] => ret tt
  | a :: rest =>
      (lift (human w (ar_fileSize a)) ;;
       echo (MsgItem (ar_id a) (ar_title a) (ar_fileSize a)) ;;
       preview_loop w rest)%io
  end.

(** The loop that deletes the matched attachments and counts the failures. *)
Fixpoint delete_loop (w : world) (b : string) (auth : string * string)
         (atts : list attachment_record) (failures : Z) : M Z :=
  match atts with
  | [] => ret failures
  | a :: rest =>
      (r <- delete_attachment w b (ar_id a) auth ;;
       if (status_code r =? 204) || (status_code r =? 200)
       then echo (MsgDeleted (ar_id a) (ar_title a)) ;;
            delete_loop w b auth rest failures
       else echo (MsgFailed (ar_id a) (ar_title a) (status_code r)) ;;
            echo (MsgText (text r)) ;;
            delete_loop w b auth rest (failures + 1))%io
  end.

(** Lines 159-173: the matched attachments, previewed and confirmed. *)
Definition delete_select (fuel : nat) (w : world) (args : delete_args)
  : M (string * (string * string) * list attachment_record) :=
  (info <- get_page_from_publish w (d_publish args) (d_source args) ;;
   auth <- lift (make_auth w (d_email args) (d_token args)) ;;
   b <- lift (resolve_base_url w (d_base_url args) (pi_url info)) ;;
   atts <- list_page_attachments fuel w b (pi_id info) auth (d_filename_contains args) ;;
   match atts with
   | [] => echo MsgNoAttachmentsMatched ;; raise (Exit 0 None)
   | _ =>
       echo (MsgFound (List.length atts) (pi_id info)) ;;
       preview_loop w atts ;;
       if d_dry_run args
       then echo MsgDryRunNothingDeleted ;; raise (Exit 0 None)
       else
         (if negb (d_yes args)
          then ok <- confirm w MsgConfirmDelete ;;
               if negb ok then raise (Exit 1 None) else ret tt
          else ret tt) ;;
         ret (b, auth, atts)
   end)%io.

(** The line printed last. *)
Definition summary (failures : Z) : message :=
  if failures =? 0 then MsgAllSucceeded else MsgCompletedWithFailures failures.

(** Lines 174-184: one delete call per matched attachment, then the summary. *)
Definition delete_matched (w : world)
           (sel : string * (string * string) * list attachment_record) : M unit :=
  let '(b, auth, atts) := sel in
  (failures <- delete_loop w b auth atts 0 ;;
   echo (summary failures))%io.

Definition delete_cmd (fuel : nat) (w : world) (args : delete_args) : M unit :=
  (sel <- delete_select fuel w args ;;
   delete_matched w sel)%io.

(* ================================================================== *)
(** ** confluence_update_attachment.py *)

(** [get_headers()] *)
Definition get_headers (no_check : bool) : list (string * string) :=
  if no_check then [("X-Atlassian-Token", "nocheck")] else [].

(** The sort key [(a.get("version") or {}).get("number", 0)]. *)
Definition version_key (a : pyval) : outcome pyval :=
  (v <~ py_get a "version" PNone ;
   py_get (py_or v (PDict [])) "number" (PInt 0))%outcome.

(** Python's [<] on two keys: integers (and booleans) compare as numbers,
    strings in lexicographic order, and every other pair raises TypeError
    ([None]).  Arrays used as keys are treated as unordered. *)
Definition key_lt (a b : pyval) : option bool :=
  match a, b with
  | PInt x, PInt y => Some (x <? y)
  | PInt x, PBool y => Some (x <? Z.b2z y)
  | PBool x, PInt y => Some (Z.b2z x <? y)
  | PBool x, PBool y => Some (Z.b2z x <? Z.b2z y)
  | PStr s, PStr t => Some (String.ltb s t)
  | _, _ => None
  end.

(** [list.sort(key=..., reverse=True)] on the pairs (key, element): a stable
    descending sort; it raises when it compares two keys that have no
    order. *)
Fixpoint insert_desc (x : pyval * pyval) (l : list (pyval * pyval))
  : outcome (list (pyval * pyval)) :=
  match l with
  | [] => Ok [x]
  | y :: l' =>
      match key_lt (fst x) (fst y) with
      | None => Raise TypeError
      | Some true => (r <~ insert_desc x l' ; Ok (y :: r))%outcome
      | Some false => Ok (x :: l)
      end
  end.

Fixpoint sort_desc (l : list (pyval * pyval)) : outcome (list (pyval * pyval)) :=
  match l with
  | [] => Ok []
  | x :: l' => (s <~ sort_desc l' ; insert_desc x s)%outcome
  end.

Fixpoint with_keys (l : list pyval) : outcome (list (pyval * pyval)) :=
  match l with
  | [] => Ok []
  | a :: l' => (k <~ version_key a ; r <~ with_keys l' ; Ok ((k, a) :: r))%outcome
  end.

Definition sort_by_version (l : list pyval) : outcome (list pyval) :=
  (kl <~ with_keys l ; s <~ sort_desc kl ; Ok (map snd s))%outcome.

Definition lookup_request (base_url page_id : string) (auth : string * string)
           (filename : string) : request :=
  mkRequest GET (attachment_url base_url page_id) auth
            [("filename", PStr filename);
             ("expand", PStr "version,extensions,metadata")]
            [] None.

(** The choice made on the [results] of the lookup response. *)
Definition pick_latest (results : pyval) : outcome pyval :=
  if negb (truthy results) then Ok PNone
  else match results with
       | PList l =>
           (s <~ sort_by_version l ;
            match s with
            | x :: _ => Ok x
            | [] => Raise IndexError
            end)%outcome
       | _ => Raise AttributeError
       end.

Definition lookup_attachment_by_name (w : world) (base_url page_id : string)
           (auth : string * string) (filename : string) : M pyval :=
  (r <- send w (lookup_request base_url page_id auth filename) ;;
   lift (raise_for_status r) ;;
   data <- lift (json r) ;;
   results <- lift (py_get data "results" (PList [])) ;;
   lift (pick_latest results))%io.

Definition comment_params (comment : option string) : list (string * pyval) :=
  match comment with
  | Some c => if opt_truthy comment then [("comment", PStr c)] else []
  | None => []
  end.

Definition update_request (base_url page_id : string) (attachment_id upload_name : pyval)
           (file_path : string) (auth : string * string) (comment : option string)
  : request :=
  mkRequest POST
            (attachment_url base_url page_id ++ "/" ++ py_str attachment_id ++ "/data")
            auth (comment_params comment) (get_headers true)
            (Some (upload_name, file_path)).

Definition update_attachment (w : world) (base_url page_id : string)
           (attachment_id upload_name : pyval) (file_path : string)
           (auth : string * string) (comment : option string) : M pyval :=
  (emit (EvOpen file_path "rb") ;;
   r <- send w (update_request base_url page_id attachment_id upload_name
                               file_path auth comment) ;;
   if negb (status_code r =? 200)
   then raise (exit_with 1 (MsgUpdateFailed (status_code r) (text r)))
   else lift (json r))%io.

Definition create_request (base_url page_id : string) (upload_name : pyval)
           (file_path : string) (auth : string * string) (comment : option string)
  : request :=
  mkRequest POST (attachment_url base_url page_id)
            auth (comment_params comment) (get_headers true)
            (Some (upload_name, file_path)).

Definition create_attachment (w : world) (base_url page_id : string)
           (upload_name : pyval) (file_path : string)
           (auth : string * string) (comment : option string) : M pyval :=
  (emit (EvOpen file_path "rb") ;;
   r <- send w (create_request base_url page_id upload_name file_path auth comment) ;;
   if negb ((status_code r =? 200) || (status_code r =? 201))
   then raise (exit_with 1 (MsgCreateFailed (status_code r) (text r)))
   else lift (json r))%io.

(** [v[0]] *)
Definition first_item (v : pyval) : outcome pyval :=
  match v with
  | PList (x :: _) => Ok x
  | PList [] => Raise IndexError
  | PStr (String c _) => Ok (PStr (String c EmptyString))
  | PStr EmptyString => Raise IndexError
  | PDict _ => Raise KeyError
  | _ => Raise TypeError
  end.

(** [(v.get("version") or {}).get("number")] *)
Definition version_number (v : pyval) : outcome pyval :=
  (ver <~ py_get v "version" PNone ;
   py_get (py_or ver (PDict [])) "number" PNone)%outcome.

(** The arguments of the [update] command. *)
Record update_args : Type := mkUpdateArgs {
  u_source : string;
  u_file : string;
  u_publish : string;
  u_attachment_name : option string;
  u_attachment_id : option string;
  u_comment : option string;
  u_create_if_missing : bool;
  u_dry_run : bool;
  u_base_url : option string;
  u_email : option string;
  u_token : option string;
  u_verbose : bool
}.

Definition content_request (b attachment_id : string) (auth : string * string)
  : request :=
  mkRequest GET (b ++ "/rest/api/content/" ++ attachment_id) auth
            [("expand", PStr "version")] [] None.

(** Lines 123-136: the attachment object and the upload name after it. *)
Definition resolve_attachment (w : world) (args : update_args) (b : string)
           (info : page_info) (auth : string * string) (upload_name : string)
  : M (pyval * pyval) :=
  match u_attachment_id args with
  | Some aid =>
      if opt_truthy (u_attachment_id args)
      then (r <- send w (content_request b aid auth) ;;
            if status_code r =? 200
            then att_obj <- lift (json r) ;;
                 title <- lift (py_get att_obj "title" PNone) ;;
                 ret (att_obj, py_or title (PStr upload_name))
            else raise (exit_with 2 (MsgIdNotAccessible aid (status_code r))))%io
      else (att_obj <- lookup_attachment_by_name w b (pi_id info) auth upload_name ;;
            ret (att_obj, PStr upload_name))%io
  | None =>
      (att_obj <- lookup_attachment_by_name w b (pi_id info) auth upload_name ;;
       ret (att_obj, PStr upload_name))%io
  end.

(** What lines 114-136 establish: base URL, page, credentials, the attachment
    object (or a falsy value) and the upload name. *)
Record resolved : Type := mkResolved {
  rs_base : string;
  rs_info : page_info;
  rs_auth : string * string;
  rs_att_obj : pyval;
  rs_upload_name : pyval
}.

Definition update_resolve (w : world) (args : update_args) : M resolved :=
  (info <- get_page_from_publish w (u_publish args) (u_source args) ;;
   auth <- lift (make_auth w (u_email args) (u_token args)) ;;
   b <- lift (resolve_base_url w (u_base_url args) (pi_url info)) ;;
   let upload_name :=
     match u_attachment_name args with
     | Some n => if opt_truthy (u_attachment_name args) then n
                 else path_name (u_file args)
     | None => path_name (u_file args)
     end in
   (if u_verbose args
    then echo (MsgDebugPage (pi_id info) b (PStr upload_name)) ;;
         match u_attachment_id args with
         | Some aid => if opt_truthy (u_attachment_id args)
                       then echo (MsgDebugAttachmentId aid) else ret tt
         | None => ret tt
         end
    else ret tt) ;;
   found <- resolve_attachment w args b info auth upload_name ;;
   ret (mkResolved b info auth (fst found) (snd found)))%io.

(** Lines 138-168: create, update, or stop. *)
Definition update_apply (w : world) (args : update_args) (x : resolved) : M unit :=
  let b := rs_base x in
  let info := rs_info x in
  let auth := rs_auth x in
  let att_obj := rs_att_obj x in
  let upload_name := rs_upload_name x in
  (if negb (truthy att_obj)
   then
     if negb (u_create_if_missing args)
     then raise (exit_with 3 (MsgNotFound upload_name (pi_id info)))
     else if u_dry_run args
     then echo (MsgWouldCreate upload_name (pi_id info) (u_file args)) ;;
          raise (Exit 0 None)
     else
       res <- create_attachment w b (pi_id info) upload_name (u_file args) auth
                                (u_comment args) ;;
       results <- lift (py_get res "results" PNone) ;;
       created <- lift (first_item (py_or results (PList [res]))) ;;
       vnum <- lift (version_number created) ;;
       did <- lift (py_get created "id" PNone) ;;
       echo (MsgCreated upload_name did vnum)
   else
     aid <- lift (py_get att_obj "id" PNone) ;;
     title <- lift (py_get att_obj "title" PNone) ;;
     let current_title := py_or title upload_name in
     current_ver <- lift (version_number att_obj) ;;
     if u_dry_run args
     then echo (MsgWouldUpdate aid current_title (pi_id info) (u_file args) current_ver) ;;
          raise (Exit 0 None)
     else
       res <- update_attachment w b (pi_id info) aid current_title (u_file args) auth
                                (u_comment args) ;;
       new_ver <- lift (version_number res) ;;
       e <- lift (py_get res "extensions" PNone) ;;
       size <- lift (py_get (py_or e (PDict [])) "fileSize" PNone) ;;
       l <- lift (py_get res "_links" PNone) ;;
       download <- lift (py_get (py_or l (PDict [])) "download" PNone) ;;
       echo (MsgUpdated aid current_title new_ver size) ;;
       if truthy download then echo (MsgDownload (b ++ py_str download)) else ret tt)%io.

Definition update_cmd (w : world) (args : update_args) : M unit :=
  (x <- update_resolve w args ;;
   update_apply w args x)%io.

(* ================================================================== *)
(** ** Observations on a run *)

Definition is_mutation (rq : request) : bool :=
  match rq_method rq with
  | GET => false
  | POST => true
  | DELETE => true
  end.

(** The requests of a run with their responses, in the order sent. *)
Fixpoint exchanges (es : list event) : list (request * response) :=
  match es with
  | [] => []
  | EvHttp rq rs :: es' => (rq, rs) :: exchanges es'
  | _ :: es' => exchanges es'
  end.

Definition requests (es : list event) : list request := map fst (exchanges es).

(** The create, update and delete calls of a run. *)
Definition mutations (es : list event) : list request := filter is_mutation (requests es).

(** A file is only ever opened for reading. *)
Definition read_only_open (e : event) : Prop :=
  match e with
  | EvOpen _ mode => mode = "r" \/ mode = "rb"
  | _ => True
  end.

(** The has-more signal of a listing response: [(data.get("_links") or
    {}).get("next")] is truthy. *)
Definition has_more (rs : response) : bool :=
  match body_json rs with
  | Some (PDict d) =>
      match py_or (match assoc "_links" d with Some l => l | None => PNone end)
                  (PDict []) with
      | PDict links => match assoc "next" links with
                       | Some n => truthy n
                       | None => false
                       end
      | _ => false
      end
  | _ => false
  end.

(** The attachments a listing response yields. *)
Definition page_items (rs : response) : outcome (list pyval) :=
  (ok <~ raise_for_status rs ;
   data <~ json rs ;
   results <~ py_get data "results" (PList []) ;
   py_iter results)%outcome.

(** [list(iter_attachments(...))]: the consumer that keeps every attachment. *)
Definition collect (acc : list pyval) (att : pyval) : M (list pyval) :=
  ret (acc ++ [att])%list.

(** A run of the lister seen from the server: page after page of [limit]
    records from [start] on, each page but the last with the has-more
    signal, and the attachments yielded page by page. *)
Inductive pagination (base_url page_id : string) (auth : string * string) (limit : Z)
  : Z -> list (request * response) -> list pyval -> Prop :=
| pagination_last start rs page :
    page_items rs = Ok page ->
    has_more rs = false ->
    pagination base_url page_id auth limit start
               [(list_request base_url page_id auth start limit, rs)] page
| pagination_more start rs page rest items :
    page_items rs = Ok page ->
    has_more rs = true ->
    pagination base_url page_id auth limit (start + limit) rest items ->
    pagination base_url page_id auth limit start
               ((list_request base_url page_id auth start limit, rs) :: rest)
               (page ++ items)%list.

(** A server that holds [store] and answers a listing request with the
    records from [start], at most [limit] of them, and a next link while
    records remain. *)
Definition page_body (store : list pyval) (start limit : Z) : pyval :=
  PDict [("results", PList (firstn (Z.to_nat limit) (skipn (Z.to_nat start) store)));
         ("_links", if start + limit <? Z.of_nat (List.length store)
                    then PDict [("next", PStr "/rest/api/content?next")]
                    else PDict [])].

Definition serves (w : world) (base_url page_id : string) (auth : string * string)
           (store : list pyval) : Prop :=
  forall h start,
    let rs := w_http w h (list_request base_url page_id auth start default_limit) in
    status_code rs = 200 /\
    body_json rs = Some (page_body store start default_limit).

(** The number of delete calls that were not answered with 200 or 204. *)
Definition delete_failed (rs : response) : bool :=
  negb ((status_code rs =? 204) || (status_code rs =? 200)).

Definition count_failed (xs : list (request * response)) : Z :=
  Z.of_nat (List.length (filter (fun x => delete_failed (snd x)) xs)).

(** The two results of the resolver compared up to the text of the error:
    the page identity, or the exit code and the kind of failure. *)
Inductive failure_kind : Type :=
| NotAList | NoConfig | NoPageId | NotFound | OtherFailure.

Definition kind_of (e : exn) : failure_kind :=
  match e with
  | Exit 2 (Some (MsgUnexpectedStructure _)) => NotAList
  | Exit 2 (Some (MsgNoConfluenceConfig _ _)) => NoConfig
  | Exit 2 (Some (MsgNoPageId _ _)) => NoPageId
  | Exit 2 (Some (MsgSourceNotFound _ _)) => NotFound
  | _ => OtherFailure
  end.

Definition exn_class (e : exn) : exn :=
  match e with
  | Exit code _ => Exit code None
  | _ => e
  end.

Definition resolution (r : outcome page_info) : outcome page_info * failure_kind :=
  match r with
  | Ok p => (Ok p, OtherFailure)
  | Raise e => (Raise (exn_class e), kind_of e)
  | OutOfFuel => (OutOfFuel, OtherFailure)
  end.

(* ================================================================== *)
(** ** A plain [urlsplit] and sample worlds *)

Definition is_alpha (c : ascii) : bool :=
  let n := nat_of_ascii c in
  ((65 <=? n)%nat && (n <=? 90)%nat) || ((97 <=? n)%nat && (n <=? 122)%nat).

Definition is_scheme_char (c : ascii) : bool :=
  is_alpha c || is_digit c || Ascii.eqb c "+" || Ascii.eqb c "-" || Ascii.eqb c ".".

Definition lower_char (c : ascii) : ascii :=
  let n := nat_of_ascii c in
  if (65 <=? n)%nat && (n <=? 90)%nat then ascii_of_nat (n + 32) else c.

Fixpoint map_chars (f : ascii -> ascii) (s : string) : string :=
  match s with
  | EmptyString => EmptyString
  | String c s' => String (f c) (map_chars f s')
  end.

Fixpoint all_chars (p : ascii -> bool) (s : string) : bool :=
  match s with
  | EmptyString => true
  | String c s' => p c && all_chars p s'
  end.

Fixpoint drop_while (p : ascii -> bool) (s : string) : string :=
  match s with
  | EmptyString => EmptyString
  | String c s' => if p c then drop_while p s' else s
  end.

(** [urlsplit] on a URL without brackets, control characters or non-ASCII
    host: scheme up to the first colon, network location between [//] and
    the next [/], [?] or [#], path up to [?] or [#]. *)
Definition urlsplit_plain (url : string) : outcome url_parts :=
  let not_colon := fun c => negb (Ascii.eqb c ":") in
  let pre := take_while not_colon url in
  let post := drop_while not_colon url in
  let '(sch, rest) :=
    match pre, post with
    | String c _, String _ after =>
        if is_alpha c && all_chars is_scheme_char pre
        then (map_chars lower_char pre, after)
        else (EmptyString, url)
    | _, _ => (EmptyString, url)
    end in
  let in_netloc := fun c => negb (Ascii.eqb c "/" || Ascii.eqb c "?" || Ascii.eqb c "#") in
  let in_path := fun c => negb (Ascii.eqb c "?" || Ascii.eqb c "#") in
  let '(net, rest) :=
    if startswith rest "//"
    then (take_while in_netloc (drop 2 rest), drop_while in_netloc (drop 2 rest))
    else (EmptyString, rest) in
  Ok (mkParts sch net (take_while in_path rest)).

Definition no_env : string -> option string := fun _ => None.

Definition sample_env (k : string) : option string :=
  if (k =? "CONFLUENCE_EMAIL")%string then Some "me@example.org"
  else if (k =? "CONFLUENCE_API_TOKEN")%string then Some "secret"
  else None.

(** The mapping file of the specification's scenario. *)
Definition sample_publish : pyval :=
  PList [PDict [("source", PStr "figs/plot.qmd");
                ("confluence",
                 PList [PDict [("url", PStr "https://org.atlassian.net/wiki/spaces/X/pages/123456/Title")]])]].

Definition attachment (id title : string) (version : Z) : pyval :=
  PDict [("id", PStr id); ("title", PStr title);
         ("version", PDict [("number", PInt version)]);
         ("extensions", PDict [("fileSize", PInt 2048); ("mediaType", PStr "image/png")])].

Definition json_response (status : Z) (body : pyval) : response :=
  mkResponse status (Some body) "".

Definition param_Z (k : string) (rq : request) : Z :=
  match assoc k (rq_params rq) with
  | Some (PInt n) => n
  | _ => 0
  end.

(** A server holding [store] for every page: listings are paginated, a
    lookup by filename returns [found], a fetch by id returns [by_id], a
    delete answers [delete_status] of the attachment id in the URL, and a
    create or update answers 200 with [by_id]. *)
Definition sample_server (store : list pyval) (found by_id : pyval)
           (delete_status : string -> Z) (h : list event) (rq : request) : response :=
  match rq_method rq with
  | DELETE => mkResponse (delete_status (rq_url rq)) None "gone"
  | POST => json_response 200 by_id
  | GET =>
      match assoc "limit" (rq_params rq), assoc "filename" (rq_params rq) with
      | Some _, _ =>
          json_response 200 (page_body store (param_Z "start" rq) (param_Z "limit" rq))
      | None, Some _ => json_response 200 (PDict [("results", found)])
      | None, None => json_response 200 by_id
      end
  end.

Definition sample_world (store : list pyval) (found by_id : pyval)
           (delete_status : string -> Z) : world :=
  mkWorld sample_env (fun _ => Ok sample_publish) urlsplit_plain (fun _ => false)
          (sample_server store found by_id delete_status) (fun _ => true).

(** [d.get(k)] for the fields of a dict. *)
Definition field (k : string) (d : list (string * pyval)) : pyval :=
  match assoc k d with
  | Some x => x
  | None => PNone
  end.

(** A file name proper: not empty, not a dot entry, without a slash. *)
Definition plain_name (f : string) : bool :=
  negb (f =? "")%string && negb (f =? ".")%string && negb (f =? "..")%string
  && negb (has_char "/" f).

(* ================================================================== *)
(** * Properties *)

(** ** Strings and paths *)

Lemma append_assoc (a b c : string) : ((a ++ b) ++ c = a ++ (b ++ c))%string.
Proof. induction a as [|x a IH]; simpl; [reflexivity | now rewrite IH]. Qed.

Lemma append_nil_r (a : string) : (a ++ "" = a)%string.
Proof. induction a as [|x a IH]; simpl; [reflexivity | now rewrite IH]. Qed.

Lemma append_eq_nil (a b : string) : (a ++ b = "")%string -> a = ""%string /\ b = ""%string.
Proof. destruct a; simpl; intros H; [now split | discriminate]. Qed.

Lemma split_on_nonempty c s : split_on c s <> [].
Proof.
  destruct s as [|a s]; simpl; [discriminate|].
  destruct (Ascii.eqb a c); [discriminate|].
  destruct (split_on c s); discriminate.
Qed.

Lemma split_on_app c (a b : string) :
  split_on c (a ++ String c b) = (split_on c a ++ split_on c b)%list.
Proof.
  induction a as [|x a IH]; simpl.
  - now rewrite Ascii.eqb_refl.
  - destruct (Ascii.eqb x c); rewrite IH; [reflexivity|].
    destruct (split_on c a) eqn:E; [now apply split_on_nonempty in E | reflexivity].
Qed.

Lemma split_on_plain c (f : string) : has_char c f = false -> split_on c f = [f].
Proof.
  induction f as [|x f IH]; simpl; [reflexivity|].
  intros H. apply orb_false_iff in H as [Hx Hf].
  rewrite Hx, (IH Hf). reflexivity.
Qed.

Lemma concat_snoc sep (l : list string) (x : string) :
  String.concat sep (l ++ [x]) =
  match l with
  | [] => x
  | _ => (String.concat sep l ++ sep ++ x)%string
  end.
Proof.
  induction l as [|y l IH]; simpl; [reflexivity|].
  destruct l as [|z l]; simpl in *; [reflexivity|].
  rewrite IH. now rewrite !append_assoc.
Qed.

Lemma basename_after_slash (z f : string) :
  has_char "/" f = false -> basename (z ++ String "/" f) = f.
Proof.
  intros H. unfold basename.
  rewrite split_on_app, (split_on_plain _ _ H). apply last_last.
Qed.

Lemma basename_plain (f : string) : has_char "/" f = false -> basename f = f.
Proof. intros H. unfold basename. now rewrite (split_on_plain _ _ H). Qed.

Lemma normpath_step_plain n comps (f : string) :
  plain_name f = true -> normpath_step n comps f = f :: comps.
Proof.
  unfold plain_name, normpath_step. intros H.
  repeat (apply andb_true_iff in H as [H ?]).
  apply negb_true_iff in H. rewrite H.
  match goal with H1 : negb (f =? ".")%string = true |- _ =>
    apply negb_true_iff in H1; rewrite H1 end.
  simpl. match goal with H1 : negb (f =? "..")%string = true |- _ => rewrite H1 end.
  reflexivity.
Qed.

Lemma plain_name_no_slash f : plain_name f = true -> has_char "/" f = false.
Proof.
  unfold plain_name. intros H. apply andb_true_iff in H as [_ H].
  now apply negb_true_iff in H.
Qed.

Lemma plain_name_nonempty f : plain_name f = true -> f <> ""%string.
Proof. intros H ->. discriminate H. Qed.

(** The base name of a path that ends in a file name is that file name,
    whatever the directories before it. *)
Lemma norm_dir_file (dir f : string) :
  plain_name f = true -> _norm (dir ++ String "/" f) = f.
Proof.
  intros Hf. pose proof (plain_name_no_slash _ Hf) as Hs.
  pose proof (plain_name_nonempty _ Hf) as Hne.
  unfold _norm, normpath.
  destruct (dir ++ String "/" f =? "")%string eqn:E.
  { apply String.eqb_eq in E. apply append_eq_nil in E as [_ E]. discriminate. }
  rewrite split_on_app, (split_on_plain _ _ Hs), fold_left_app. simpl.
  set (n := if startswith _ "/" then _ else _).
  set (L := fold_left _ _ _).
  rewrite (normpath_step_plain n L f Hf). simpl rev.
  rewrite concat_snoc.
  assert (HY : exists y, (repeat_string n "/" ++
                match rev L with
                | [] => f
                | _ :: _ => String.concat "/" (rev L) ++ "/" ++ f
                end = y ++ f)%string /\ (y = ""%string \/ exists z, y = (z ++ "/")%string)).
  { destruct (rev L) as [|c0 cs].
    - exists (repeat_string n "/"). split; [reflexivity|].
      subst n. destruct (startswith _ "/"); [|now left].
      right. destruct (_ && _); [exists "/"%string | exists ""%string]; reflexivity.
    - exists (repeat_string n "/" ++ String.concat "/" (c0 :: cs) ++ "/")%string. split.
      + now rewrite !append_assoc.
      + right. exists (repeat_string n "/" ++ String.concat "/" (c0 :: cs))%string.
        now rewrite append_assoc. }
  destruct HY as (y & -> & Hy).
  destruct (y ++ f =? "")%string eqn:E2.
  { apply String.eqb_eq in E2. apply append_eq_nil in E2 as [_ E2]. contradiction. }
  destruct Hy as [-> | [z ->]].
  - simpl. now apply basename_plain.
  - rewrite append_assoc. simpl. now apply basename_after_slash.
Qed.

Lemma norm_plain (f : string) : plain_name f = true -> _norm f = f.
Proof.
  intros Hf. pose proof (plain_name_no_slash _ Hf) as Hs.
  pose proof (plain_name_nonempty _ Hf) as Hne.
  unfold _norm, normpath.
  destruct (f =? "")%string eqn:E; [apply String.eqb_eq in E; contradiction|].
  rewrite (split_on_plain _ _ Hs). simpl fold_left.
  rewrite (normpath_step_plain _ [] f Hf). simpl rev. simpl String.concat.
  assert (Hst : startswith f "/" = false).
  { destruct f as [|c f]; [reflexivity|]. simpl in Hs.
    apply orb_false_iff in Hs as [Hc _]. unfold startswith. cbn [String.prefix].
    destruct (ascii_dec "/" c) as [<-|]; [discriminate Hc | reflexivity]. }
  rewrite Hst. simpl. rewrite E. now apply basename_plain.
Qed.

(** ** The mapping resolver *)

Lemma page_of_item_resolution item p s1 s2 :
  resolution (page_of_item item p s1) = resolution (page_of_item item p s2).
Proof.
  unfold page_of_item, exit_with. destruct item; reflexivity.
Qed.

Lemma page_of_entry_resolution entry p s1 s2 :
  resolution (page_of_entry entry p s1) = resolution (page_of_entry entry p s2).
Proof.
  unfold page_of_entry. destruct (py_get entry "confluence" PNone); reflexivity.
Qed.

Lemma scan_entries_resolution entries t p s1 s2 :
  resolution (scan_entries entries t p s1) = resolution (scan_entries entries t p s2).
Proof.
  induction entries as [|e entries IH]; [reflexivity|].
  cbn [scan_entries]. destruct e; try exact IH.
  cbn [py_get obind].
  destruct (norm_value _); try reflexivity. cbn [obind].
  destruct (negb _); [exact IH | apply page_of_entry_resolution].
Qed.

Lemma page_from_data_resolution data p s1 s2 :
  _norm s1 = _norm s2 ->
  resolution (page_from_data data p s1) = resolution (page_from_data data p s2).
Proof.
  intros H. destruct data; try reflexivity.
  cbn [page_from_data]. rewrite H. apply scan_entries_resolution.
Qed.

(** An entry the loop passes over: not a dict, or a dict whose source has
    another base name. *)
Definition passed_over (target : string) (entry : pyval) : Prop :=
  match entry with
  | PDict d => exists src,
      match assoc "source" d with Some x => x | None => PStr "" end = PStr src
      /\ _norm src <> target
  | _ => True
  end.

(** An entry whose source has the base name looked for. *)
Definition matching (target : string) (entry : pyval) : Prop :=
  exists d src, entry = PDict d
    /\ match assoc "source" d with Some x => x | None => PStr "" end = PStr src
    /\ _norm src = target.

Lemma scan_entries_earliest pre e post t p s :
  Forall (passed_over t) pre -> matching t e ->
  scan_entries (pre ++ e :: post) t p s = page_of_entry e p s.
Proof.
  intros Hpre (d & src & -> & Hsrc & Hn).
  induction Hpre as [|x pre Hx Hpre IH]; cbn [app scan_entries].
  - cbn [py_get obind]. rewrite Hsrc. cbn [norm_value obind].
    rewrite Hn, String.eqb_refl. reflexivity.
  - destruct x; try exact IH.
    destruct Hx as (src' & Hsrc' & Hn').
    cbn [py_get obind]. rewrite Hsrc'. cbn [norm_value obind].
    apply String.eqb_neq in Hn'. rewrite Hn'. exact IH.
Qed.

Lemma scan_entries_same_base pre post d d' sA sB t p s :
  assoc "source" d = Some (PStr sA) -> assoc "source" d' = Some (PStr sB) ->
  assoc "confluence" d = assoc "confluence" d' -> _norm sA = _norm sB ->
  scan_entries (pre ++ PDict d :: post) t p s =
  scan_entries (pre ++ PDict d' :: post) t p s.
Proof.
  intros HA HB Hc Hn.
  induction pre as [|x pre IH]; cbn [app scan_entries].
  - cbn [py_get obind]. rewrite HA, HB. cbn [norm_value obind]. rewrite Hn.
    destruct (negb _); [reflexivity|].
    unfold page_of_entry. cbn [py_get]. now rewrite Hc.
  - destruct x; try exact IH.
    destruct (py_get _ "source" _); try reflexivity. cbn [obind].
    destruct (norm_value _); try reflexivity. cbn [obind].
    destruct (negb _); [exact IH | reflexivity].
Qed.

Lemma get_page_from_publish_run w p s h :
  get_page_from_publish w p s h =
  (match w_load_yaml w p with
   | Ok data => page_from_data data p s
   | Raise e => Raise e
   | OutOfFuel => OutOfFuel
   end, [EvOpen p "r"]).
Proof.
  unfold get_page_from_publish, bind, emit, lift. cbn.
  destruct (w_load_yaml w p) as [data| |]; reflexivity.
Qed.

(** ** The pattern [/pages/(\d+)] *)

Definition starts_with_digit (s : string) : bool :=
  match s with
  | String c _ => is_digit c
  | EmptyString => false
  end.

Lemma prefix_split (p s : string) :
  String.prefix p s = true -> s = (p ++ drop (String.length p) s)%string.
Proof.
  revert s. induction p as [|c p IH]; intros s H; [reflexivity|].
  destruct s as [|c' s]; [discriminate|]. cbn [String.prefix] in H.
  destruct (ascii_dec c c') as [<-|]; [|discriminate].
  cbn. f_equal. now apply IH.
Qed.

Lemma take_drop_while p (s : string) : s = (take_while p s ++ drop_while p s)%string.
Proof.
  induction s as [|c s IH]; [reflexivity|]. cbn.
  destruct (p c); cbn; [now f_equal | reflexivity].
Qed.

Lemma take_while_all p (s : string) : all_chars p (take_while p s) = true.
Proof.
  induction s as [|c s IH]; [reflexivity|]. cbn.
  destruct (p c) eqn:E; cbn; [now rewrite E | reflexivity].
Qed.

Lemma drop_while_head (s : string) : starts_with_digit (drop_while is_digit s) = false.
Proof.
  induction s as [|c s IH]; [reflexivity|]. cbn.
  destruct (is_digit c) eqn:E; [exact IH | exact E].
Qed.

Lemma take_while_nil_head (s : string) :
  take_while is_digit s = ""%string -> starts_with_digit s = false.
Proof.
  destruct s as [|c s]; [reflexivity|]. cbn.
  destruct (is_digit c); [discriminate | reflexivity].
Qed.

Lemma search_pages_id_eq s :
  search_pages_id s =
  match (if String.prefix "/pages/" s
         then match take_while is_digit (drop 7 s) with
              | EmptyString => None
              | d => Some d
              end
         else None) with
  | Some d => Some d
  | None => match s with
            | EmptyString => None
            | String _ s' => search_pages_id s'
            end
  end.
Proof. destruct s; reflexivity. Qed.

Lemma no_match_here s rest :
  (if String.prefix "/pages/" s
   then match take_while is_digit (drop 7 s) with
        | EmptyString => None
        | d => Some d
        end
   else None) = None ->
  s = ("/pages/" ++ rest)%string -> starts_with_digit rest = false.
Proof.
  intros H ->.
  replace (String.prefix "/pages/" ("/pages/" ++ rest)) with true in H
    by (destruct rest; reflexivity).
  change (drop 7 ("/pages/" ++ rest)) with rest in H.
  apply take_while_nil_head. destruct (take_while is_digit rest); [reflexivity | discriminate].
Qed.

(** A match is the whole run of digits right after the leftmost [/pages/]
    that a digit follows. *)
Lemma search_pages_id_some s d :
  search_pages_id s = Some d ->
  exists pre post,
    s = (pre ++ "/pages/" ++ d ++ post)%string
    /\ d <> ""%string /\ all_chars is_digit d = true
    /\ starts_with_digit post = false
    /\ forall pre' rest, s = (pre' ++ "/pages/" ++ rest)%string ->
                         (String.length pre' < String.length pre)%nat ->
                         starts_with_digit rest = false.
Proof.
  revert d. induction s as [|c s IH]; intros d; rewrite search_pages_id_eq.
  - cbn. discriminate.
  - destruct (if String.prefix "/pages/" (String c s) then _ else _) as [d0|] eqn:Here.
    + intros [= <-].
      destruct (String.prefix "/pages/" (String c s)) eqn:P; [|discriminate].
      apply prefix_split in P. change (String.length "/pages/") with 7%nat in P.
      exists ""%string, (drop_while is_digit (drop 7 (String c s))).
      assert (Hd : d0 = take_while is_digit (drop 7 (String c s))).
      { destruct (take_while is_digit (drop 7 (String c s))); [discriminate|].
        now injection Here as <-. }
      repeat split.
      * rewrite Hd, <- take_drop_while. exact P.
      * intros ->. destruct (take_while is_digit (drop 7 (String c s))); discriminate.
      * rewrite Hd. apply take_while_all.
      * apply drop_while_head.
      * intros pre' rest _ Hlt. cbn in Hlt. lia.
    + intros H. destruct (IH d H) as (pre & post & Hs & Hne & Hall & Hpost & Hleft).
      exists (String c pre), post. repeat split; try assumption.
      * cbn. now rewrite Hs.
      * intros pre' rest Heq Hlt. destruct pre' as [|c' pre'].
        -- exact (no_match_here _ _ Here Heq).
        -- cbn in Heq. injection Heq as _ Heq. apply (Hleft pre' rest Heq).
           cbn in Hlt. lia.
Qed.

Lemma search_pages_id_none s :
  search_pages_id s = None ->
  forall pre rest, s = (pre ++ "/pages/" ++ rest)%string -> starts_with_digit rest = false.
Proof.
  induction s as [|c s IH]; intros H pre rest Heq.
  - destruct pre; discriminate.
  - rewrite search_pages_id_eq in H.
    destruct (if String.prefix "/pages/" (String c s) then _ else _) eqn:Here; [discriminate|].
    destruct pre as [|c' pre].
    + exact (no_match_here _ _ Here Heq).
    + cbn in Heq. injection Heq as _ Heq. exact (IH H pre rest Heq).
Qed.

(** ** Page identity of an entry *)

Lemma strip_falsy_id idv : truthy idv = false -> strip (py_str (py_or idv (PStr ""))) = ""%string.
Proof. intros H. unfold py_or. now rewrite H. Qed.

Lemma page_of_item_explicit item p s :
  truthy (field "id" item) = true ->
  strip (py_str (field "id" item)) <> ""%string ->
  page_of_item (PDict item) p s
  = Ok (mkPage (strip (py_str (field "id" item))) (field "url" item)).
Proof.
  intros Ht Hne. unfold page_of_item. cbn [py_get obind]. fold (field "id" item).
  fold (field "url" item). unfold py_or. rewrite Ht.
  apply String.eqb_neq in Hne. rewrite Hne. cbn [andb obind]. now rewrite Hne.
Qed.

Lemma no_explicit_id item :
  truthy (field "id" item) = false \/ strip (py_str (field "id" item)) = ""%string ->
  strip (py_str (py_or (field "id" item) (PStr ""))) = ""%string.
Proof.
  intros [H|H]; [now apply strip_falsy_id|].
  unfold py_or. destruct (truthy _); [exact H | reflexivity].
Qed.

Lemma page_of_item_from_url item p s u d :
  truthy (field "id" item) = false \/ strip (py_str (field "id" item)) = ""%string ->
  field "url" item = PStr u -> search_pages_id u = Some d ->
  page_of_item (PDict item) p s = Ok (mkPage d (PStr u)).
Proof.
  intros Hid Hu Hd. unfold page_of_item. cbn [py_get obind]. fold (field "id" item).
  fold (field "url" item). rewrite (no_explicit_id _ Hid), Hu, Hd.
  destruct (search_pages_id_some _ _ Hd) as (_ & _ & _ & Hne & _).
  apply String.eqb_neq in Hne.
  destruct u as [|c u]; [discriminate Hd|]. cbn. now rewrite Hne.
Qed.

Lemma page_of_item_no_id item p s :
  truthy (field "id" item) = false \/ strip (py_str (field "id" item)) = ""%string ->
  (forall u, field "url" item = PStr u -> search_pages_id u = None) ->
  page_of_item (PDict item) p s = Raise TypeError.
Proof.
  intros Hid Hu. unfold page_of_item. cbn [py_get obind]. fold (field "id" item).
  fold (field "url" item). rewrite (no_explicit_id _ Hid). cbn [String.eqb andb].
  destruct (truthy (field "url" item)); [|reflexivity].
  destruct (field "url" item) as [| | |u| |] eqn:E; try reflexivity.
  rewrite (Hu u eq_refl). reflexivity.
Qed.

Lemma page_from_data_earliest pre e post p s :
  Forall (passed_over (_norm s)) pre -> matching (_norm s) e ->
  page_from_data (PList (pre ++ e :: post)) p s = page_of_entry e p s.
Proof. intros. cbn [page_from_data]. now apply scan_entries_earliest. Qed.

Lemma resolver_failure_sends_nothing w p s h e es :
  get_page_from_publish w p s h = (Raise e, es) -> requests es = [].
Proof. rewrite get_page_from_publish_run. now intros [= _ <-]. Qed.

Lemma delete_cmd_stops_on_resolver_failure fuel w args h e es :
  get_page_from_publish w (d_publish args) (d_source args) h = (Raise e, es) ->
  delete_cmd fuel w args h = (Raise e, es).
Proof. intros H. unfold delete_cmd, delete_select, bind. now rewrite H. Qed.

Lemma update_cmd_stops_on_resolver_failure w args h e es :
  get_page_from_publish w (u_publish args) (u_source args) h = (Raise e, es) ->
  update_cmd w args h = (Raise e, es).
Proof. intros H. unfold update_cmd, update_resolve, bind. now rewrite H. Qed.

(** C6: mapping resolution depends on the queried source and on an entry's
    source only through the normalized base filename [_norm]: two queried
    sources with the same base filename get the same page identity or the
    same kind of failure (the error text, which quotes the queried path, is
    the only difference) and emit the same events; replacing an entry's
    source by one with the same base filename changes nothing; and the base
    filename of [dir/f] is [f] for every directory part [dir]. *)
Theorem resolution_depends_only_on_base_filename :
  (forall w publish_path s1 s2 h,
      _norm s1 = _norm s2 ->
      resolution (fst (get_page_from_publish w publish_path s1 h))
      = resolution (fst (get_page_from_publish w publish_path s2 h))
      /\ snd (get_page_from_publish w publish_path s1 h)
         = snd (get_page_from_publish w publish_path s2 h))
  /\ (forall pre post d d' sA sB publish_path s,
         assoc "source" d = Some (PStr sA) -> assoc "source" d' = Some (PStr sB) ->
         assoc "confluence" d = assoc "confluence" d' ->
         _norm sA = _norm sB ->
         page_from_data (PList (pre ++ PDict d :: post)) publish_path s
         = page_from_data (PList (pre ++ PDict d' :: post)) publish_path s)
  /\ (forall dir f, plain_name f = true ->
         _norm (dir ++ "/" ++ f) = f /\ _norm f = f).
Proof.
  split; [|split].
  - intros w p s1 s2 h H. rewrite !get_page_from_publish_run. cbn [fst snd].
    split; [|reflexivity].
    destruct (w_load_yaml w p); try reflexivity. now apply page_from_data_resolution.
  - intros pre post d d' sA sB p s HA HB Hc Hn. cbn [page_from_data].
    now apply scan_entries_same_base with (sA := sA) (sB := sB).
  - intros dir f Hf. split; [now apply norm_dir_file | now apply norm_plain].
Qed.

Lemma resolution_depends_only_on_base_filename_witness :
  let w := sample_world [] PNone PNone (fun _ => 204) in
  resolution (fst (get_page_from_publish w "_publish.yml" "plot.qmd" []))
  = resolution (fst (get_page_from_publish w "_publish.yml" "/home/me/site/./figs/plot.qmd" []))
  /\ _norm ("/home/me/site/figs" ++ "/" ++ "plot.qmd") = "plot.qmd"%string.
Proof.
  split.
  - apply (proj1 resolution_depends_only_on_base_filename). reflexivity.
  - apply (proj2 (proj2 resolution_depends_only_on_base_filename)). reflexivity.
Defined.

(** C7 (amended): for the object [item] of a matched entry, the page id is
    the stringified, trimmed [id] field whenever that field is truthy and
    its trimmed string is not empty; only otherwise it is the run of digits
    that follows the leftmost [/pages/] followed by a digit in the [url]
    string; when neither gives a value (the [url] is missing, is not a
    string, or has no such run) the resolver fails: it raises an error and
    returns no page identity, and a failing resolver ends the command before
    any request is sent.  The error raised is a TypeError: the
    [typer.Exit(code=2, message=...)] of line 50 is a call that [typer.Exit]
    refuses, and [re.search] refuses a [url] that is not a string. *)
Theorem page_id_extraction_order :
  (forall item publish_path source_qmd,
      truthy (field "id" item) = true ->
      strip (py_str (field "id" item)) <> ""%string ->
      page_of_item (PDict item) publish_path source_qmd
      = Ok (mkPage (strip (py_str (field "id" item))) (field "url" item)))
  /\ (forall item publish_path source_qmd u d,
         truthy (field "id" item) = false
         \/ strip (py_str (field "id" item)) = ""%string ->
         field "url" item = PStr u -> search_pages_id u = Some d ->
         page_of_item (PDict item) publish_path source_qmd = Ok (mkPage d (PStr u))
         /\ exists pre post,
             u = (pre ++ "/pages/" ++ d ++ post)%string
             /\ d <> ""%string /\ all_chars is_digit d = true
             /\ starts_with_digit post = false
             /\ forall pre' rest, u = (pre' ++ "/pages/" ++ rest)%string ->
                                  (String.length pre' < String.length pre)%nat ->
                                  starts_with_digit rest = false)
  /\ (forall item publish_path source_qmd,
         truthy (field "id" item) = false
         \/ strip (py_str (field "id" item)) = ""%string ->
         (forall u, field "url" item = PStr u -> search_pages_id u = None) ->
         page_of_item (PDict item) publish_path source_qmd = Raise TypeError)
  /\ (forall w h e es,
         (forall fuel args,
             get_page_from_publish w (d_publish args) (d_source args) h = (Raise e, es) ->
             delete_cmd fuel w args h = (Raise e, es) /\ requests es = [])
         /\ (forall args,
                get_page_from_publish w (u_publish args) (u_source args) h = (Raise e, es) ->
                update_cmd w args h = (Raise e, es) /\ requests es = [])).
Proof.
  split; [|split; [|split]].
  - intros. now apply page_of_item_explicit.
  - intros item p s u d Hid Hu Hd. split.
    + now apply page_of_item_from_url.
    + now apply search_pages_id_some.
  - intros. now apply page_of_item_no_id.
  - intros w h e es. split.
    + intros fuel args H. split.
      * now apply delete_cmd_stops_on_resolver_failure.
      * exact (resolver_failure_sends_nothing _ _ _ _ _ _ H).
    + intros args H. split.
      * now apply update_cmd_stops_on_resolver_failure.
      * exact (resolver_failure_sends_nothing _ _ _ _ _ _ H).
Qed.

Lemma page_id_extraction_order_witness :
  page_of_item (PDict [("id", PStr " 98765 "); ("url", PStr "https://h/wiki/pages/55/T")])
               "_publish.yml" "a.qmd"
  = Ok (mkPage "98765" (PStr "https://h/wiki/pages/55/T"))
  /\ page_of_item (PDict [("id", PStr "  "); ("url", PStr "https://h/wiki/pages/55/T")])
                  "_publish.yml" "a.qmd"
     = Ok (mkPage "55" (PStr "https://h/wiki/pages/55/T"))
  /\ page_of_item (PDict [("url", PStr "https://h/wiki/pages/viewpage.action?pageId=55")])
                  "_publish.yml" "a.qmd"
     = Raise TypeError
  /\ page_of_item (PDict [("id", PStr (String (ascii_of_nat 160) "")); ("url", PInt 55)])
                  "_publish.yml" "a.qmd"
     = Raise TypeError.
Proof.
  split; [|split; [|split]].
  - apply (proj1 page_id_extraction_order); [reflexivity | discriminate].
  - apply (proj1 (proj2 page_id_extraction_order)
             [("id", PStr "  "); ("url", PStr "https://h/wiki/pages/55/T")]
             "_publish.yml" "a.qmd" "https://h/wiki/pages/55/T" "55");
      [right; reflexivity | reflexivity | reflexivity].
  - apply (proj1 (proj2 (proj2 page_id_extraction_order))); [left; reflexivity|].
    intros u [= <-]. reflexivity.
  - apply (proj1 (proj2 (proj2 page_id_extraction_order))); [right; reflexivity|].
    intros u H. discriminate H.
Defined.

(** C7 as stated fails on an [id] that is present but falsy: the id [0]
    stringifies to the non-empty ["0"], yet the page id is taken from the
    url. *)
Lemma explicit_id_zero_is_ignored :
  strip (py_str (PInt 0)) = "0"%string
  /\ page_of_item (PDict [("id", PInt 0); ("url", PStr "https://h/wiki/pages/55/T")])
                  "_publish.yml" "a.qmd"
     = Ok (mkPage "55" (PStr "https://h/wiki/pages/55/T")).
Proof. split; reflexivity. Qed.

(** C10: the earliest entry whose source has the normalized base filename
    looked for decides the resolution; whatever follows it, matching and
    valid or not, is never read: the result is that of this entry alone.
    When its config is missing or not an object, or gives no page id,
    the resolution fails whatever follows, but not with the configuration
    error the code writes: the [typer.Exit(code=2, message=...)] of lines
    43 and 50 is a call that [typer.Exit] refuses, so a TypeError is
    raised. *)
Theorem earliest_matching_entry_decides :
  forall pre e post publish_path source_qmd,
    Forall (passed_over (_norm source_qmd)) pre ->
    matching (_norm source_qmd) e ->
    page_from_data (PList (pre ++ e :: post)) publish_path source_qmd
    = page_of_entry e publish_path source_qmd
    /\ (forall d,
           e = PDict d ->
           match config_item (field "confluence" d) with
           | PDict _ => False
           | _ => True
           end ->
           page_from_data (PList (pre ++ e :: post)) publish_path source_qmd
           = Raise TypeError)
    /\ (forall d item,
           e = PDict d ->
           config_item (field "confluence" d) = PDict item ->
           truthy (field "id" item) = false
           \/ strip (py_str (field "id" item)) = ""%string ->
           (forall u, field "url" item = PStr u -> search_pages_id u = None) ->
           page_from_data (PList (pre ++ e :: post)) publish_path source_qmd
           = Raise TypeError).
Proof.
  intros pre e post p s Hpre He.
  rewrite (page_from_data_earliest pre e post p s Hpre He).
  split; [reflexivity | split].
  - intros d -> Hcfg. unfold page_of_entry. cbn [py_get obind]. fold (field "confluence" d).
    unfold page_of_item, exit_with.
    destruct (config_item _); solve [reflexivity | contradiction].
  - intros d item -> Hcfg Hid Hu. unfold page_of_entry. cbn [py_get obind].
    fold (field "confluence" d). rewrite Hcfg. now apply page_of_item_no_id.
Qed.

Lemma earliest_matching_entry_decides_witness :
  let broken := PDict [("source", PStr "a.qmd")] in
  let valid := PDict [("source", PStr "docs/a.qmd"); ("confluence", PDict [("id", PInt 42)])] in
  page_from_data (PList [valid]) "_publish.yml" "a.qmd" = Ok (mkPage "42" PNone)
  /\ page_from_data (PList [PStr "note"; broken; valid]) "_publish.yml" "a.qmd"
     = Raise TypeError.
Proof.
  split; [reflexivity|].
  refine (proj1 (proj2 (earliest_matching_entry_decides
                          [PStr "note"] (PDict [("source", PStr "a.qmd")])
                          [PDict [("source", PStr "docs/a.qmd");
                                  ("confluence", PDict [("id", PInt 42)])]]
                          "_publish.yml" "a.qmd" _ _)) _ eq_refl I).
  - repeat constructor.
  - exists [("source", PStr "a.qmd")], "a.qmd"%string. repeat split.
Defined.

(** ** The endpoint resolver *)

Fixpoint last_char (s : string) : option ascii :=
  match s with
  | EmptyString => None
  | String c s' => match last_char s' with
                   | None => Some c
                   | x => x
                   end
  end.

Lemma rstrip_by_last p (s : string) :
  match last_char (rstrip_by p s) with
  | Some c => p c = false
  | None => True
  end.
Proof.
  induction s as [|c s IH]; cbn; [exact I|].
  destruct (rstrip_by p s) as [|a r] eqn:E.
  - destruct (p c) eqn:Hp; cbn; [exact I | exact Hp].
  - cbn [last_char] in *. destruct (last_char r); exact IH.
Qed.

Lemma rstrip_slash_no_trailing_slash (s : string) :
  last_char (rstrip_slash s) <> Some "/"%char.
Proof.
  unfold rstrip_slash. pose proof (rstrip_by_last (Ascii.eqb "/") s) as H.
  destruct (last_char _) as [c|]; [|discriminate].
  intros [= ->]. discriminate H.
Qed.

Lemma opt_truthy_some (c : string) : c <> ""%string -> opt_truthy (Some c) = true.
Proof. intros H. cbn. apply String.eqb_neq in H. now rewrite H. Qed.

Lemma truthy_str (u : string) : u <> ""%string -> truthy (PStr u) = true.
Proof. intros H. cbn. apply String.eqb_neq in H. now rewrite H. Qed.

Lemma context_of_cases (p : string) :
  (startswith p "/wiki" = true -> context_of p = "/wiki"%string)
  /\ (startswith p "/confluence" = true -> context_of p = "/confluence"%string)
  /\ (startswith p "/wiki" = false -> startswith p "/confluence" = false ->
      context_of p = ""%string).
Proof.
  unfold context_of. repeat split.
  - now intros ->.
  - intros H. rewrite H.
    unfold startswith in *. apply prefix_split in H. rewrite H.
    reflexivity.
  - now intros -> ->.
Qed.

Lemma resolve_base_url_inferred w cli page_url :
  opt_truthy cli = false ->
  opt_truthy (w_environ w "CONFLUENCE_BASE_URL") = false ->
  resolve_base_url w cli page_url =
  obind (infer_base_url_from_page_url w (py_or page_url (PStr "")))
        (fun base => if opt_truthy base
                     then match base with
                          | Some b => Ok (rstrip_slash b)
                          | None => Raise (exit_with 2 MsgNoBaseUrl)
                          end
                     else Raise (exit_with 2 MsgNoBaseUrl)).
Proof. intros H1 H2. unfold resolve_base_url. now rewrite H1, H2. Qed.

(** C8: the base URL is the first available of the explicit override, the
    environment variable CONFLUENCE_BASE_URL and the inference
    [scheme://netloc] plus the context segment ([/wiki] or [/confluence]
    when the path of the page URL starts with it, else nothing), with the
    trailing slashes removed; a resolved base URL never ends in a slash.
    When none gives a value the resolver fails, but not with the
    configuration error the code writes: the
    [typer.Exit(code=2, message=...)] of line 61 is a call that
    [typer.Exit] refuses, so a TypeError is raised. *)
Theorem base_url_resolution_precedence :
  forall w cli page_url,
    (forall c, cli = Some c -> c <> ""%string ->
               resolve_base_url w cli page_url = Ok (rstrip_slash c))
    /\ (forall e, opt_truthy cli = false ->
                  w_environ w "CONFLUENCE_BASE_URL" = Some e -> e <> ""%string ->
                  resolve_base_url w cli page_url = Ok (rstrip_slash e))
    /\ (forall u parts,
           opt_truthy cli = false ->
           opt_truthy (w_environ w "CONFLUENCE_BASE_URL") = false ->
           page_url = PStr u -> u <> ""%string ->
           w_urlsplit w u = Ok parts ->
           scheme parts <> ""%string -> netloc parts <> ""%string ->
           resolve_base_url w cli page_url
           = Ok (rstrip_slash (scheme parts ++ "://" ++ netloc parts
                                 ++ context_of (path parts)))
           /\ (startswith (path parts) "/wiki" = true ->
               context_of (path parts) = "/wiki"%string)
           /\ (startswith (path parts) "/confluence" = true ->
               context_of (path parts) = "/confluence"%string)
           /\ (startswith (path parts) "/wiki" = false ->
               startswith (path parts) "/confluence" = false ->
               context_of (path parts) = ""%string))
    /\ (opt_truthy cli = false ->
        opt_truthy (w_environ w "CONFLUENCE_BASE_URL") = false ->
        truthy page_url = false
        \/ (exists u parts, page_url = PStr u /\ w_urlsplit w u = Ok parts
                            /\ (scheme parts = ""%string \/ netloc parts = ""%string)) ->
        resolve_base_url w cli page_url = Raise TypeError)
    /\ (forall b, resolve_base_url w cli page_url = Ok b ->
                  last_char b <> Some "/"%char).
Proof.
  intros w cli page_url. split; [|split; [|split; [|split]]].
  - intros c -> Hc. unfold resolve_base_url.
    rewrite (opt_truthy_some c Hc). cbn [obind]. now rewrite (opt_truthy_some c Hc).
  - intros e Hcli He Hne. unfold resolve_base_url.
    rewrite Hcli, He, (opt_truthy_some e Hne). cbn [obind].
    now rewrite (opt_truthy_some e Hne).
  - intros u parts Hcli Henv -> Hu Hsplit Hs Hn.
    rewrite (resolve_base_url_inferred _ _ _ Hcli Henv).
    split; [|apply context_of_cases].
    unfold py_or, infer_base_url_from_page_url. rewrite (truthy_str u Hu).
    rewrite (truthy_str u Hu). cbn [negb]. rewrite Hsplit. cbn [obind].
    apply String.eqb_neq in Hs, Hn. rewrite Hs, Hn. cbn [negb andb obind].
    assert (Hb : opt_truthy (Some (scheme parts ++ "://" ++ netloc parts
                                     ++ context_of (path parts))%string) = true).
    { apply opt_truthy_some. intros E. apply append_eq_nil in E as [E _].
      apply String.eqb_neq in Hs. contradiction. }
    now rewrite Hb.
  - intros Hcli Henv Hu.
    rewrite (resolve_base_url_inferred _ _ _ Hcli Henv).
    destruct Hu as [Hu | (u & parts & -> & Hsplit & Hempty)].
    + unfold py_or. rewrite Hu. reflexivity.
    + unfold py_or, infer_base_url_from_page_url.
      destruct (truthy (PStr u)) eqn:Ht; [|reflexivity].
      rewrite Ht. cbn [negb]. rewrite Hsplit. cbn [obind].
      destruct Hempty as [-> | ->]; cbn [String.eqb negb andb];
        rewrite ?andb_false_r; reflexivity.
  - intros b. unfold resolve_base_url.
    destruct (if opt_truthy cli then _ else _) as [base| |]; try discriminate.
    cbn [obind]. destruct (opt_truthy base); [|discriminate].
    destruct base as [b0|]; [|discriminate].
    intros [= <-]. apply rstrip_slash_no_trailing_slash.
Qed.

Lemma base_url_resolution_precedence_witness :
  let w := mkWorld no_env (fun _ => Ok sample_publish) urlsplit_plain (fun _ => false)
                   (sample_server [] PNone PNone (fun _ => 204)) (fun _ => true) in
  resolve_base_url w (Some "https://wiki.example.org/confluence//") PNone
  = Ok "https://wiki.example.org/confluence"%string
  /\ resolve_base_url w None
       (PStr "https://org.atlassian.net/wiki/spaces/X/pages/123456/Title")
     = Ok "https://org.atlassian.net/wiki"%string
  /\ resolve_base_url w None (PStr "spaces/X/pages/123456")
     = Raise TypeError.
Proof.
  intros w. split; [|split].
  - refine (proj1 (base_url_resolution_precedence w _ PNone)
                  "https://wiki.example.org/confluence//"%string eq_refl _).
    discriminate.
  - refine (proj1 (proj1 (proj2 (proj2 (base_url_resolution_precedence w None _)))
                     "https://org.atlassian.net/wiki/spaces/X/pages/123456/Title"
                     (mkParts "https" "org.atlassian.net" "/wiki/spaces/X/pages/123456/Title")
                     eq_refl eq_refl eq_refl _ eq_refl _ _)); discriminate.
  - apply (proj1 (proj2 (proj2 (proj2 (base_url_resolution_precedence w None _))))
             eq_refl eq_refl).
    right. exists "spaces/X/pages/123456"%string, (mkParts "" "" "spaces/X/pages/123456").
    repeat split. now left.
Defined.

(** ** Lookup by name: the highest version *)

Lemma string_compare_ge_trans (x y z : string) :
  String.compare x y <> Lt -> String.compare y z <> Lt -> String.compare x z <> Lt.
Proof.
  revert y z. induction x as [|a x IH]; intros [|b y] [|c z]; cbn; try congruence.
  unfold Ascii.compare.
  destruct (N.compare_spec (N_of_ascii a) (N_of_ascii b)) as [E1|L1|G1];
    destruct (N.compare_spec (N_of_ascii b) (N_of_ascii c)) as [E2|L2|G2];
    destruct (N.compare_spec (N_of_ascii a) (N_of_ascii c)) as [E3|L3|G3];
    try congruence; try lia.
  apply IH.
Qed.

Lemma string_ltb_ge_trans (x y z : string) :
  String.ltb x y = false -> String.ltb y z = false -> String.ltb x z = false.
Proof.
  unfold String.ltb. intros H1 H2.
  pose proof (string_compare_ge_trans x y z) as H.
  destruct (String.compare x y); try discriminate;
    destruct (String.compare y z); try discriminate;
    destruct (String.compare x z); try reflexivity;
    exfalso; apply H; congruence.
Qed.

Lemma string_ltb_asym (x y : string) : String.ltb x y = true -> String.ltb y x = false.
Proof.
  unfold String.ltb. rewrite (String.compare_antisym x y).
  destruct (String.compare y x); cbn; congruence.
Qed.

Lemma string_ltb_irrefl (x : string) : String.ltb x x = false.
Proof.
  unfold String.ltb.
  replace (String.compare x x) with Eq; [reflexivity|].
  induction x as [|a x IH]; cbn; [reflexivity|].
  unfold Ascii.compare. now rewrite N.compare_refl.
Qed.

Ltac key_cases :=
  repeat match goal with
         | H : Some _ = Some _ |- _ => injection H as H
         | H : None = Some _ |- _ => discriminate H
         | H : (_ <? _) = true |- _ => apply Z.ltb_lt in H
         | H : (_ <? _) = false |- _ => apply Z.ltb_ge in H
         | |- Some _ <> Some true => let E := fresh in intros [= E]
         | |- None <> Some _ => discriminate
         | |- Some _ = Some _ => f_equal
         | |- (_ <? _) = false => apply Z.ltb_ge
         end.

Lemma key_lt_irrefl k : key_lt k k <> Some true.
Proof.
  destruct k; cbn; key_cases; try lia.
  rewrite string_ltb_irrefl in *. discriminate.
Qed.

Lemma key_lt_asym a b : key_lt a b = Some true -> key_lt b a <> Some true.
Proof.
  destruct a, b; cbn; intros H; key_cases; try lia.
  apply string_ltb_asym in H. congruence.
Qed.

Lemma key_ge_trans x y z :
  key_lt x y = Some false -> key_lt y z <> Some true -> key_lt x z <> Some true.
Proof.
  destruct x, y, z; cbn; intros H1 H2; key_cases; try lia;
    try (apply H2; f_equal; apply Z.ltb_lt; lia).
  destruct (String.ltb s0 s1) eqn:E; [now apply H2|].
  rewrite (string_ltb_ge_trans _ _ _ H1 E) in *. discriminate.
Qed.

(** No key of [l] is above [k]. *)
Definition is_max (k : pyval) (l : list (pyval * pyval)) : Prop :=
  forall y, In y l -> key_lt k (fst y) <> Some true.

Definition head_max (l : list (pyval * pyval)) : Prop :=
  match l with
  | [] => True
  | h :: _ => is_max (fst h) l
  end.

Lemma insert_desc_spec x l r :
  insert_desc x l = Ok r ->
  (forall y, In y r <-> y = x \/ In y l) /\ (head_max l -> head_max r) /\ r <> [].
Proof.
  revert r. induction l as [|y l IH]; intros r; cbn [insert_desc].
  - intros [= <-]. repeat split; try discriminate.
    + cbn. intuition.
    + cbn. intuition.
    + intros _ z [<-|[]]. apply key_lt_irrefl.
  - destruct (key_lt (fst x) (fst y)) as [[|]|] eqn:E; try discriminate.
    + destruct (insert_desc x l) as [r0| |] eqn:Er; try discriminate.
      cbn [obind]. intros [= <-]. destruct (IH r0 eq_refl) as (Hin & _ & _).
      repeat split; try discriminate.
      * cbn. rewrite Hin. intuition.
      * cbn. rewrite Hin. intuition.
      * intros Hmax z [<-|Hz]; [apply key_lt_irrefl|].
        apply Hin in Hz as [->|Hz]; [now apply key_lt_asym|].
        apply Hmax. now right.
    + intros [= <-]. repeat split; try discriminate.
      * cbn. intuition.
      * cbn. intuition.
      * intros Hmax z [<-|Hz]; [apply key_lt_irrefl|].
        apply (key_ge_trans _ _ _ E). now apply Hmax.
Qed.

Lemma sort_desc_spec l s :
  sort_desc l = Ok s -> (forall y, In y s <-> In y l) /\ head_max s.
Proof.
  revert s. induction l as [|x l IH]; intros s; cbn [sort_desc].
  - intros [= <-]. split; [reflexivity | exact I].
  - destruct (sort_desc l) as [s0| |]; try discriminate. cbn [obind].
    intros H. destruct (IH s0 eq_refl) as (Hin & Hmax).
    destruct (insert_desc_spec _ _ _ H) as (Hin' & Hmax' & _).
    split; [|now apply Hmax'].
    intros y. rewrite Hin', Hin. cbn. intuition congruence.
Qed.

Lemma with_keys_spec l kl :
  with_keys l = Ok kl ->
  map snd kl = l /\ Forall (fun ka => version_key (snd ka) = Ok (fst ka)) kl.
Proof.
  revert kl. induction l as [|a l IH]; intros kl; cbn [with_keys].
  - intros [= <-]. split; [reflexivity | constructor].
  - destruct (version_key a) as [k| |] eqn:Ek; try discriminate. cbn [obind].
    destruct (with_keys l) as [r| |]; try discriminate. cbn [obind].
    intros [= <-]. destruct (IH r eq_refl) as (Hm & Hf). split.
    + cbn. now rewrite Hm.
    + constructor; [exact Ek | exact Hf].
Qed.

Lemma pick_latest_max l a :
  l <> [] -> pick_latest (PList l) = Ok a ->
  In a l
  /\ exists ka, version_key a = Ok ka
                /\ forall b, In b l ->
                             exists kb, version_key b = Ok kb /\ key_lt ka kb <> Some true.
Proof.
  intros Hne. unfold pick_latest.
  replace (truthy (PList l)) with true by (destruct l; [contradiction | reflexivity]).
  cbn [negb]. unfold sort_by_version.
  destruct (with_keys l) as [kl| |] eqn:Ek; try discriminate. cbn [obind].
  destruct (sort_desc kl) as [s| |] eqn:Es; try discriminate. cbn [obind].
  destruct (with_keys_spec _ _ Ek) as (Hm & Hf).
  destruct (sort_desc_spec _ _ Es) as (Hin & Hmax).
  destruct s as [|[k x] s]; [discriminate|]. cbn [map snd]. intros [= <-].
  assert (Hx : In (k, x) kl) by (apply Hin; now left).
  rewrite Forall_forall in Hf. split; [|exists k; split].
  - rewrite <- Hm. now apply (in_map snd) in Hx.
  - exact (Hf _ Hx).
  - intros b Hb. rewrite <- Hm in Hb. apply in_map_iff in Hb as ([kb b'] & <- & Hb).
    exists kb. split; [exact (Hf _ Hb)|].
    apply (Hmax (kb, b')). now apply Hin.
Qed.

Lemma insert_desc_ints x l :
  (exists n, fst x = PInt n) -> Forall (fun y => exists n, fst y = PInt n) l ->
  exists r, insert_desc x l = Ok r /\ Forall (fun y => exists n, fst y = PInt n) r.
Proof.
  intros [n Hx] Hl. induction Hl as [|y l [m Hy] Hl IH]; cbn [insert_desc].
  - eexists. split; [reflexivity|]. constructor; [now exists n | constructor].
  - rewrite Hx, Hy. cbn [key_lt]. destruct (n <? m).
    + destruct IH as (r & -> & Hr). cbn [obind]. eexists. split; [reflexivity|].
      constructor; [now exists m | exact Hr].
    + eexists. split; [reflexivity|].
      constructor; [now exists n|]. constructor; [now exists m | exact Hl].
Qed.

Lemma sort_desc_ints l :
  Forall (fun y => exists n, fst y = PInt n) l ->
  exists s, sort_desc l = Ok s /\ Forall (fun y => exists n, fst y = PInt n) s.
Proof.
  induction 1 as [|x l Hx Hl IH]; cbn [sort_desc].
  - exists []. split; [reflexivity | constructor].
  - destruct IH as (s & -> & Hs). cbn [obind]. now apply insert_desc_ints.
Qed.

Lemma with_keys_ints l :
  (forall b, In b l -> exists n, version_key b = Ok (PInt n)) ->
  exists kl, with_keys l = Ok kl /\ Forall (fun y => exists n, fst y = PInt n) kl.
Proof.
  induction l as [|a l IH]; intros H; cbn [with_keys].
  - exists []. split; [reflexivity | constructor].
  - destruct (H a (or_introl eq_refl)) as [n ->]. cbn [obind].
    destruct IH as (kl & -> & Hkl); [intros b Hb; apply H; now right|].
    cbn [obind]. eexists. split; [reflexivity|].
    constructor; [now exists n | exact Hkl].
Qed.

Lemma pick_latest_total l :
  l <> [] -> (forall b, In b l -> exists n, version_key b = Ok (PInt n)) ->
  exists a, pick_latest (PList l) = Ok a.
Proof.
  intros Hne H. unfold pick_latest.
  replace (truthy (PList l)) with true by (destruct l; [contradiction | reflexivity]).
  cbn [negb]. unfold sort_by_version.
  destruct (with_keys_ints l H) as (kl & Ek & Hkl). rewrite Ek. cbn [obind].
  destruct (sort_desc_ints kl Hkl) as (s & Es & _). rewrite Es. cbn [obind].
  destruct (sort_desc_spec _ _ Es) as (Hin & _).
  destruct (with_keys_spec _ _ Ek) as (Hm & _).
  destruct s as [|x s].
  - destruct l as [|a l]; [contradiction|]. destruct kl as [|ka kl]; [discriminate|].
    exfalso. apply (proj2 (Hin ka)). now left.
  - now exists (snd x).
Qed.

(** The [results] field the lookup reads from its response. *)
Definition lookup_results (rs : response) : outcome pyval :=
  (ok <~ raise_for_status rs ;
   data <~ json rs ;
   py_get data "results" (PList []))%outcome.

Lemma lookup_attachment_by_name_run w b p auth f h :
  lookup_attachment_by_name w b p auth f h =
  (obind (lookup_results (w_http w h (lookup_request b p auth f))) pick_latest,
   [EvHttp (lookup_request b p auth f) (w_http w h (lookup_request b p auth f))]).
Proof.
  unfold lookup_attachment_by_name, lookup_results, bind, send, lift. cbn.
  destruct (raise_for_status _); try reflexivity. cbn.
  destruct (json _); try reflexivity. cbn.
  destruct (py_get _ _ _); reflexivity.
Qed.

(** C9: the lookup by filename returns no attachment when the result set is
    empty; when it returns an attachment of a non-empty result set, that
    attachment is one of the set and no attachment of the set has a higher
    version number (the key the sort uses, 0 when the number is absent);
    and when the version numbers are integers the lookup does return such
    an attachment. *)
Theorem lookup_selects_highest_version :
  forall w base_url page_id auth filename h results,
    lookup_results (w_http w h (lookup_request base_url page_id auth filename)) = Ok results ->
    (truthy results = false ->
     fst (lookup_attachment_by_name w base_url page_id auth filename h) = Ok PNone)
    /\ (forall l a,
           results = PList l -> l <> [] ->
           fst (lookup_attachment_by_name w base_url page_id auth filename h) = Ok a ->
           In a l
           /\ exists ka,
               version_key a = Ok ka
               /\ forall b, In b l ->
                            exists kb, version_key b = Ok kb /\ key_lt ka kb <> Some true)
    /\ (forall l,
           results = PList l -> l <> [] ->
           (forall b, In b l -> exists n, version_key b = Ok (PInt n)) ->
           exists a na,
             fst (lookup_attachment_by_name w base_url page_id auth filename h) = Ok a
             /\ In a l /\ version_key a = Ok (PInt na)
             /\ forall b nb, In b l -> version_key b = Ok (PInt nb) -> nb <= na).
Proof.
  intros w b p auth f h results Hres.
  rewrite lookup_attachment_by_name_run, Hres. cbn [obind fst].
  split; [|split].
  - intros Ht. unfold pick_latest. now rewrite Ht.
  - intros l a -> Hne Ha. now apply pick_latest_max.
  - intros l -> Hne Hint.
    destruct (pick_latest_total l Hne Hint) as (a & Ha).
    destruct (pick_latest_max l a Hne Ha) as (Hin & ka & Hka & Hmax).
    destruct (Hint a Hin) as (na & Hna).
    exists a, na. repeat split; try assumption.
    intros b0 nb Hb Hnb. destruct (Hmax b0 Hb) as (kb & Hkb & Hlt).
    rewrite Hna in Hka. injection Hka as <-.
    rewrite Hnb in Hkb. injection Hkb as <-.
    cbn in Hlt. destruct (na <? nb) eqn:E; [now elim Hlt|].
    now apply Z.ltb_ge.
Qed.

Lemma lookup_selects_highest_version_witness :
  let found := [attachment "7" "plot.png" 3; attachment "8" "plot.png" 5;
                attachment "9" "plot.png" 4] in
  let w := sample_world [] (PList found) PNone (fun _ => 204) in
  fst (lookup_attachment_by_name w "https://h/wiki" "123456" ("me", "t") "plot.png" [])
  = Ok (attachment "8" "plot.png" 5)
  /\ fst (lookup_attachment_by_name (sample_world [] (PList []) PNone (fun _ => 204))
                                    "https://h/wiki" "123456" ("me", "t") "plot.png" [])
     = Ok PNone.
Proof.
  intros found w. split.
  - destruct (proj2 (proj2 (lookup_selects_highest_version
                              w "https://h/wiki" "123456" ("me", "t") "plot.png" []
                              (PList found) eq_refl)) found eq_refl)
      as (a & na & Ha & _).
    + discriminate.
    + intros b Hb. cbn in Hb.
      destruct Hb as [<-|[<-|[<-|[]]]]; eexists; reflexivity.
    + reflexivity.
  - apply (proj1 (lookup_selects_highest_version
                    (sample_world [] (PList []) PNone (fun _ => 204))
                    "https://h/wiki" "123456" ("me", "t") "plot.png" []
                    (PList []) eq_refl)).
    reflexivity.
Defined.

(** ** Running computations *)

Lemma bind_run {A B} (m : M A) (f : A -> M B) h :
  bind m f h =
  match m h with
  | (Ok a, es) => (fst (f a (h ++ es)%list), (es ++ snd (f a (h ++ es)%list))%list)
  | (Raise e, es) => (Raise e, es)
  | (OutOfFuel, es) => (OutOfFuel, es)
  end.
Proof.
  unfold bind. destruct (m h) as [[a| |] es]; try reflexivity.
  destruct (f a (h ++ es)%list); reflexivity.
Qed.

Lemma bind_pure {A B} (m : M A) (f : A -> M B) h a :
  m h = (Ok a, []) -> bind m f h = f a h.
Proof.
  intros H. unfold bind. rewrite H, app_nil_r. now destruct (f a h).
Qed.

Lemma bind_lift {A B} (o : outcome A) (f : A -> M B) h :
  bind (lift o) f h =
  match o with
  | Ok a => f a h
  | Raise e => (Raise e, [])
  | OutOfFuel => (OutOfFuel, [])
  end.
Proof. destruct o; try reflexivity. now apply bind_pure. Qed.

Lemma bind_emit {B} ev (f : unit -> M B) h :
  bind (emit ev) f h = let '(r, es) := f tt (h ++ [ev])%list in (r, ev :: es).
Proof. reflexivity. Qed.

Lemma bind_send {B} w rq (f : response -> M B) h :
  bind (send w rq) f h =
  let '(r, es) := f (w_http w h rq) (h ++ [EvHttp rq (w_http w h rq)])%list in
  (r, EvHttp rq (w_http w h rq) :: es).
Proof. reflexivity. Qed.

Lemma exchanges_app es1 es2 :
  exchanges (es1 ++ es2) = (exchanges es1 ++ exchanges es2)%list.
Proof.
  induction es1 as [|e es1 IH]; [reflexivity|].
  destruct e; cbn; now rewrite ?IH.
Qed.

Lemma requests_app es1 es2 : requests (es1 ++ es2) = (requests es1 ++ requests es2)%list.
Proof. unfold requests. now rewrite exchanges_app, map_app. Qed.

Lemma mutations_app es1 es2 :
  mutations (es1 ++ es2) = (mutations es1 ++ mutations es2)%list.
Proof. unfold mutations. now rewrite requests_app, filter_app. Qed.

Lemma count_failed_cons x xs :
  count_failed (x :: xs) = (if delete_failed (snd x) then 1 else 0) + count_failed xs.
Proof.
  unfold count_failed. cbn [filter]. destruct (delete_failed (snd x)); cbn [List.length]; lia.
Qed.

(** ** The deletion workflow *)

Lemma delete_loop_run w b auth atts :
  forall failures h,
  exists es,
    delete_loop w b auth atts failures h
    = (Ok (failures + count_failed (exchanges es)), es)
    /\ requests es = map (fun a => delete_request b (ar_id a) auth) atts.
Proof.
  induction atts as [|a atts IH]; intros failures h.
  - exists []. cbn. split; [now rewrite Z.add_0_r | reflexivity].
  - cbn [delete_loop]. rewrite bind_run. unfold delete_attachment, send.
    set (rq := delete_request b (ar_id a) auth). set (rs := w_http w h rq).
    cbn [fst snd].
    destruct ((status_code rs =? 204) || (status_code rs =? 200)) eqn:E.
    + rewrite bind_run. unfold echo, emit. cbn [fst snd].
      match goal with |- context [delete_loop w b auth atts ?f ?h'] =>
        destruct (IH f h') as (es & Hes & Hreq); rewrite Hes end.
      exists (EvHttp rq rs :: EvEcho (MsgDeleted (ar_id a) (ar_title a)) :: es).
      split; [|cbn; unfold requests in *; cbn; now rewrite Hreq].
      cbn [fst snd app exchanges]. rewrite count_failed_cons. cbn [snd].
      unfold delete_failed. rewrite E. cbn [negb].
      match goal with |- (Ok ?x, _) = (Ok ?y, _) => replace x with y by lia end.
      reflexivity.
    + rewrite bind_run. unfold echo, emit. cbn [fst snd].
      rewrite bind_run. cbn [fst snd].
      match goal with |- context [delete_loop w b auth atts ?f ?h'] =>
        destruct (IH f h') as (es & Hes & Hreq); rewrite Hes end.
      exists (EvHttp rq rs :: EvEcho (MsgFailed (ar_id a) (ar_title a) (status_code rs))
                :: EvEcho (MsgText (text rs)) :: es).
      split; [|cbn; unfold requests in *; cbn; now rewrite Hreq].
      cbn [fst snd app exchanges]. rewrite count_failed_cons. cbn [snd].
      unfold delete_failed. rewrite E. cbn [negb].
      match goal with |- (Ok ?x, _) = (Ok ?y, _) => replace x with y by lia end.
      reflexivity.
Qed.

(** C4: once the K matched attachments are selected (not a dry run, and
    confirmed), the workflow sends exactly K requests, one per matched
    attachment and in their order, each of them the DELETE of
    [{base}/rest/api/content/{id}] for the id of its attachment, whatever
    the earlier calls answered; it then returns normally, and the last
    line it prints is "All deletions succeeded." when M = 0 and "Completed
    with M failure(s)." otherwise, where M is the number of those calls
    whose answer has a status other than 200 and 204. *)
Theorem deletion_attempts_all_and_counts_failures :
  forall fuel w args h b auth atts,
    fst (delete_select fuel w args h) = Ok (b, auth, atts) ->
    exists es M,
      delete_cmd fuel w args h
      = (Ok tt,
         (snd (delete_select fuel w args h) ++ es
            ++ [EvEcho (if M =? 0 then MsgAllSucceeded
                        else MsgCompletedWithFailures M)])%list)
      /\ requests es
         = map (fun a => mkRequest DELETE
                                   (b ++ "/rest/api/content/" ++ py_str (ar_id a))%string
                                   auth [] [] None) atts
      /\ mutations es = requests es
      /\ List.length (requests es) = List.length atts
      /\ M = Z.of_nat
                (List.length
                   (filter (fun x => negb ((status_code (snd x) =? 204)
                                           || (status_code (snd x) =? 200)))
                           (exchanges es)))
      /\ 0 <= M <= Z.of_nat (List.length atts).
Proof.
  intros fuel w args h b auth atts Hsel.
  unfold delete_cmd. rewrite bind_run.
  destruct (delete_select fuel w args h) as [r es0]. cbn [fst snd] in *. subst r.
  unfold delete_matched. rewrite bind_run.
  destruct (delete_loop_run w b auth atts 0 (h ++ es0)%list) as (es & Hes & Hreq).
  rewrite Hes. cbn [fst snd]. unfold echo, emit. cbn [fst snd].
  exists es, (count_failed (exchanges es)). rewrite Z.add_0_l.
  assert (Hlen : List.length (requests es) = List.length atts)
    by now rewrite Hreq, length_map.
  repeat split.
  - exact Hreq.
  - unfold mutations. rewrite Hreq. clear. induction atts as [|a atts IH]; [reflexivity|].
    cbn [map filter is_mutation delete_request rq_method]. now rewrite IH.
  - exact Hlen.
  - unfold count_failed. lia.
  - unfold count_failed. apply inj_le.
    etransitivity; [apply filter_length_le|].
    replace (List.length (exchanges es)) with (List.length (requests es))
      by (unfold requests; apply length_map).
    rewrite Hlen. reflexivity.
Qed.

Lemma deletion_attempts_all_and_counts_failures_witness :
  let w := sample_world [attachment "1" "a.png" 1; attachment "2" "b.png" 2;
                         attachment "3" "c.png" 1]
                        PNone PNone
                        (fun u => if (u =? "https://org.atlassian.net/wiki/rest/api/content/2")%string
                                  then 500 else 204) in
  let args := mkDeleteArgs "plot.qmd" "_publish.yml" None false true None None None in
  fst (delete_cmd 3 w args []) = Ok tt
  /\ map (fun rq => (rq_method rq, rq_url rq)) (mutations (snd (delete_cmd 3 w args [])))
     = [(DELETE, "https://org.atlassian.net/wiki/rest/api/content/1"%string);
        (DELETE, "https://org.atlassian.net/wiki/rest/api/content/2"%string);
        (DELETE, "https://org.atlassian.net/wiki/rest/api/content/3"%string)]
  /\ last (snd (delete_cmd 3 w args [])) (EvEcho MsgAllSucceeded)
     = EvEcho (MsgCompletedWithFailures 1).
Proof.
  intros w args.
  edestruct (deletion_attempts_all_and_counts_failures 3 w args [])
    as (es & M & Hrun & _).
  { vm_compute. reflexivity. }
  split; [now rewrite Hrun|].
  split; vm_compute; reflexivity.
Defined.

(** ** The attachment lister *)

(** The next link of a listing response, as the loop reads it. *)
Definition next_link (rs : response) : outcome pyval :=
  (data <~ json rs ;
   links <~ py_get data "_links" PNone ;
   py_get (py_or links (PDict [])) "next" PNone)%outcome.

Lemma foldM_collect atts : forall acc h, foldM collect atts acc h = (Ok (acc ++ atts)%list, []).
Proof.
  induction atts as [|a atts IH]; intros acc h; cbn [foldM].
  - unfold ret. now rewrite app_nil_r.
  - rewrite bind_run. unfold collect at 1, ret. cbn [fst snd app].
    rewrite IH. cbn [fst snd]. now rewrite <- app_assoc.
Qed.

Lemma has_more_next_link rs next :
  page_items rs = Ok next -> forall n, next_link rs = Ok n -> has_more rs = truthy n.
Proof.
  intros _ n. unfold next_link, has_more, json.
  destruct (body_json rs) as [data|]; [|discriminate]. cbn [obind].
  destruct data; try discriminate. cbn [py_get obind].
  destruct (py_or _ _); try discriminate. cbn [py_get].
  intros [= <-]. destruct (assoc "next" d0); reflexivity.
Qed.

Lemma iter_collect_step fuel w b p auth limit start acc h :
  iter_attachments (S fuel) w b p auth limit collect start acc h =
  let rq := list_request b p auth start limit in
  let rs := w_http w h rq in
  match page_items rs with
  | Ok atts =>
      match next_link rs with
      | Ok next =>
          if truthy next
          then (fst (iter_attachments fuel w b p auth limit collect (start + limit)
                                      (acc ++ atts)%list (h ++ [EvHttp rq rs])%list),
                EvHttp rq rs
                  :: snd (iter_attachments fuel w b p auth limit collect (start + limit)
                                           (acc ++ atts)%list (h ++ [EvHttp rq rs])%list))
          else (Ok (acc ++ atts)%list, [EvHttp rq rs])
      | Raise e => (Raise e, [EvHttp rq rs])
      | OutOfFuel => (OutOfFuel, [EvHttp rq rs])
      end
  | Raise e => (Raise e, [EvHttp rq rs])
  | OutOfFuel => (OutOfFuel, [EvHttp rq rs])
  end.
Proof.
  cbn zeta. cbn [iter_attachments]. unfold page_items, next_link.
  set (rq := list_request b p auth start limit).
  rewrite bind_send. fold rq. set (rs := w_http w h rq).
  rewrite bind_lift.
  destruct (raise_for_status rs); try reflexivity. cbn [obind].
  rewrite bind_lift.
  destruct (json rs) as [data| |]; try reflexivity. cbn [obind].
  rewrite bind_lift.
  destruct (py_get data "results" (PList [])) as [results| |]; try reflexivity.
  cbn [obind]. rewrite bind_lift.
  destruct (py_iter results) as [atts| |]; try reflexivity. cbn [obind].
  rewrite (bind_pure _ _ _ _ (foldM_collect atts acc _)).
  rewrite bind_lift.
  destruct (py_get data "_links" PNone) as [links| |]; try reflexivity.
  cbn [obind]. rewrite bind_lift.
  destruct (py_get _ "next" PNone) as [next| |]; try reflexivity.
  destruct (truthy next); [|reflexivity].
  now destruct (iter_attachments _ _ _ _ _ _ _ _ _ _).
Qed.

Lemma iter_collect_pagination w b p auth limit fuel :
  forall start acc h items es,
    iter_attachments fuel w b p auth limit collect start acc h = (Ok items, es) ->
    exists yielded,
      items = (acc ++ yielded)%list
      /\ pagination b p auth limit start (exchanges es) yielded.
Proof.
  induction fuel as [|fuel IH]; intros start acc h items es.
  - cbn. unfold lift. discriminate.
  - rewrite iter_collect_step. cbn zeta.
    set (rq := list_request b p auth start limit). set (rs := w_http w h rq).
    destruct (page_items rs) as [atts| |] eqn:Hp; try discriminate.
    destruct (next_link rs) as [next| |] eqn:Hn; try discriminate.
    pose proof (has_more_next_link rs atts Hp next Hn) as Hmore.
    destruct (truthy next) eqn:Ht.
    + destruct (iter_attachments fuel w b p auth limit collect (start + limit)
                                 (acc ++ atts)%list (h ++ [EvHttp rq rs])%list)
        as [r es'] eqn:E.
      cbn [fst snd]. intros [= -> <-].
      destruct (IH _ _ _ _ _ E) as (yielded & -> & Hpag).
      exists (atts ++ yielded)%list. split; [now rewrite app_assoc|].
      cbn [exchanges]. now apply pagination_more.
    + intros [= <- <-]. exists atts. split; [reflexivity|].
      cbn [exchanges]. now apply pagination_last.
Qed.

Lemma served_page w b p auth store h start :
  serves w b p auth store ->
  let rs := w_http w h (list_request b p auth start default_limit) in
  page_items rs = Ok (firstn 50 (skipn (Z.to_nat start) store))
  /\ next_link rs = Ok (if start + 50 <? Z.of_nat (List.length store)
                        then PStr "/rest/api/content?next" else PNone).
Proof.
  intros Hs. destruct (Hs h start) as (Hst & Hbody). cbn zeta.
  unfold page_items, next_link, raise_for_status, json. rewrite Hst, Hbody.
  cbn [Z.leb Z.compare Pos.compare Pos.compare_cont andb obind].
  unfold page_body. change default_limit with 50.
  split; [reflexivity|].
  cbn [py_get assoc String.eqb Ascii.eqb Bool.eqb obind].
  destruct (start + 50 <? Z.of_nat (List.length store)); reflexivity.
Qed.

Lemma iter_served w b p auth store :
  serves w b p auth store ->
  forall fuel start acc h,
    0 <= start -> (0 < fuel)%nat ->
    Z.of_nat (List.length store) - start <= 50 * Z.of_nat fuel ->
    fst (iter_attachments fuel w b p auth default_limit collect start acc h)
    = Ok (acc ++ skipn (Z.to_nat start) store)%list.
Proof.
  intros Hs. induction fuel as [|fuel IH]; intros start acc h Hstart Hfuel Hlen; [lia|].
  rewrite iter_collect_step. cbn zeta.
  destruct (served_page w b p auth store h start Hs) as (Hp & Hn).
  rewrite Hp, Hn. change default_limit with 50.
  destruct (start + 50 <? Z.of_nat (List.length store)) eqn:E.
  - apply Z.ltb_lt in E. cbn [truthy String.eqb negb fst].
    rewrite IH by lia.
    replace (Z.to_nat (start + 50)) with (50 + Z.to_nat start)%nat by lia.
    now rewrite <- app_assoc, <- skipn_skipn, firstn_skipn.
  - apply Z.ltb_ge in E. cbn [truthy fst].
    rewrite firstn_all2; [reflexivity|]. rewrite length_skipn. lia.
Qed.

(** C3: the lister asks for pages of exactly 50 records, from record 0 on
    in steps of 50, goes on exactly while the response carries the has-more
    signal ([_links.next]), and yields the records of the pages in the order
    received; against a server that holds [N] records and paginates them,
    it yields exactly those records, none dropped and none repeated, for
    every [N] (so for 51, one more than a page). *)
Theorem lister_paginates_completely :
  (forall fuel w base_url page_id auth h items es,
      iter_attachments fuel w base_url page_id auth default_limit collect 0 [] h
      = (Ok items, es) ->
      default_limit = 50
      /\ pagination base_url page_id auth 50 0 (exchanges es) items)
  /\ (forall fuel w base_url page_id auth store h,
         serves w base_url page_id auth store ->
         (0 < fuel)%nat ->
         Z.of_nat (List.length store) <= 50 * Z.of_nat fuel ->
         fst (iter_attachments fuel w base_url page_id auth default_limit collect 0 [] h)
         = Ok store).
Proof.
  split.
  - intros fuel w b p auth h items es H. split; [reflexivity|].
    destruct (iter_collect_pagination _ _ _ _ _ _ _ _ _ _ _ H) as (yielded & -> & Hpag).
    exact Hpag.
  - intros fuel w b p auth store h Hs Hfuel Hlen.
    rewrite (iter_served w b p auth store Hs fuel 0 [] h); [reflexivity | lia | exact Hfuel | lia].
Qed.

(** Fifty-one records: two pages. *)
Definition store51 : list pyval :=
  map (fun i => attachment (str_of_Z (Z.of_nat i)) "fig.png" 1) (seq 0 51).

Lemma lister_paginates_completely_witness :
  let w := sample_world store51 PNone PNone (fun _ => 204) in
  fst (iter_attachments 2 w "https://h/wiki" "123456" ("me", "t") default_limit collect 0 [] [])
  = Ok store51
  /\ List.length (exchanges (snd (iter_attachments 2 w "https://h/wiki" "123456" ("me", "t")
                                                   default_limit collect 0 [] [])))
     = 2%nat.
Proof.
  intros w. split; [|vm_compute; reflexivity].
  apply (proj2 lister_paginates_completely).
  - intros h start. split; reflexivity.
  - lia.
  - vm_compute. discriminate.
Defined.

(** ** What a command may emit *)

(** Every event a computation emits satisfies [P], whatever the history. *)
Definition all_events {A} (P : event -> Prop) (m : M A) : Prop :=
  forall h, Forall P (snd (m h)).

(** A computation that never returns normally. *)
Definition diverts {A} (m : M A) : Prop := forall h a, fst (m h) <> Ok a.

Section Events.
Variable P : event -> Prop.

Lemma all_ret {A} (a : A) : all_events P (ret a).
Proof. intros h. constructor. Qed.

Lemma all_lift {A} (o : outcome A) : all_events P (lift o).
Proof. intros h. constructor. Qed.

Lemma all_raise {A} e : all_events P (@raise A e).
Proof. apply all_lift. Qed.

Lemma all_emit ev : P ev -> all_events P (emit ev).
Proof. intros H h. now repeat constructor. Qed.

Lemma all_echo m : P (EvEcho m) -> all_events P (echo m).
Proof. apply all_emit. Qed.

Lemma all_send w rq : (forall rs, P (EvHttp rq rs)) -> all_events P (send w rq).
Proof. intros H h. cbn. now repeat constructor. Qed.

Lemma all_confirm w prompt :
  (forall a, P (EvConfirm prompt a)) -> all_events P (confirm w prompt).
Proof. intros H h. cbn. now repeat constructor. Qed.

Lemma all_bind {A B} (m : M A) (f : A -> M B) :
  all_events P m -> (forall a, all_events P (f a)) -> all_events P (bind m f).
Proof.
  intros Hm Hf h. rewrite bind_run. specialize (Hm h).
  destruct (m h) as [[a| |] es]; cbn [snd] in *; try assumption.
  apply Forall_app. split; [assumption | apply Hf].
Qed.

Lemma all_bind_diverts {A B} (m : M A) (f : A -> M B) :
  all_events P m -> diverts m -> all_events P (bind m f).
Proof.
  intros Hm Hd h. rewrite bind_run. specialize (Hm h). specialize (Hd h).
  destruct (m h) as [[a| |] es]; cbn [fst snd] in *; try assumption.
  now elim (Hd a).
Qed.

Lemma all_foldM {A S} (f : S -> A -> M S) l :
  (forall acc x, all_events P (f acc x)) -> forall acc, all_events P (foldM f l acc).
Proof.
  intros Hf. induction l as [|x l IH]; intros acc; cbn [foldM].
  - apply all_ret.
  - apply all_bind; [apply Hf | exact IH].
Qed.
End Events.

Lemma diverts_raise {A} e : diverts (@raise A e).
Proof. intros h a. discriminate. Qed.

Lemma diverts_bind_l {A B} (m : M A) (f : A -> M B) : diverts m -> diverts (bind m f).
Proof.
  intros Hd h b. rewrite bind_run. specialize (Hd h).
  destruct (m h) as [[a| |] es]; cbn [fst] in *; try discriminate. now elim (Hd a).
Qed.

Lemma diverts_bind_r {A B} (m : M A) (f : A -> M B) :
  (forall a, diverts (f a)) -> diverts (bind m f).
Proof.
  intros Hd h b. rewrite bind_run.
  destruct (m h) as [[a| |] es]; cbn [fst]; try discriminate. apply Hd.
Qed.

(** The events that are not a create, update or delete call. *)
Definition no_mutation (e : event) : Prop :=
  match e with
  | EvHttp rq _ => is_mutation rq = false
  | _ => True
  end.

Lemma no_mutation_mutations es : Forall no_mutation es -> mutations es = [].
Proof.
  induction 1 as [|e es He Hes IH]; [reflexivity|].
  destruct e; try exact IH.
  unfold mutations, requests in *. cbn in *. now rewrite He.
Qed.

(** Opening the two files the update command reads. *)
Definition opens_for_reading (publish file : string) (e : event) : Prop :=
  match e with
  | EvOpen p mode => (p = publish /\ mode = "r"%string) \/ (p = file /\ mode = "rb"%string)
  | _ => True
  end.

Section Stages.
Variable P : event -> Prop.
Hypothesis P_get : forall rq rs, rq_method rq = GET -> P (EvHttp rq rs).
Hypothesis P_echo : forall m, P (EvEcho m).
Hypothesis P_confirm : forall m a, P (EvConfirm m a).

Lemma get_page_from_publish_events w p s :
  P (EvOpen p "r") -> all_events P (get_page_from_publish w p s).
Proof.
  intros Hopen h. rewrite get_page_from_publish_run. cbn. now repeat constructor.
Qed.

Lemma iter_attachments_events {S} fuel w b p auth limit (body : S -> pyval -> M S) :
  (forall acc x, all_events P (body acc x)) ->
  forall start acc, all_events P (iter_attachments fuel w b p auth limit body start acc).
Proof.
  intros Hbody. induction fuel as [|fuel IH]; intros start acc; cbn [iter_attachments].
  - apply all_lift.
  - apply all_bind; [apply all_send; intros; now apply P_get | intros r].
    repeat (apply all_bind; [apply all_lift | intros ?]).
    apply all_bind; [now apply all_foldM | intros acc'].
    repeat (apply all_bind; [apply all_lift | intros ?]).
    destruct (truthy _); [apply IH | apply all_ret].
Qed.

Lemma list_page_attachments_events fuel w b p auth fc :
  all_events P (list_page_attachments fuel w b p auth fc).
Proof.
  unfold list_page_attachments. apply iter_attachments_events.
  intros acc x. apply all_lift.
Qed.

Lemma preview_loop_events w atts : all_events P (preview_loop w atts).
Proof.
  induction atts as [|a atts IH]; cbn [preview_loop]; [apply all_ret|].
  apply all_bind; [apply all_lift | intros _].
  apply all_bind; [now apply all_echo | intros _]. exact IH.
Qed.

Lemma delete_select_events fuel w args :
  P (EvOpen (d_publish args) "r") -> all_events P (delete_select fuel w args).
Proof.
  intros Hopen. unfold delete_select.
  apply all_bind; [now apply get_page_from_publish_events | intros info].
  repeat (apply all_bind; [apply all_lift | intros ?]).
  apply all_bind; [apply list_page_attachments_events | intros atts].
  destruct atts as [|att0 atts].
  - apply all_bind; [now apply all_echo | intros _; apply all_raise].
  - apply all_bind; [now apply all_echo | intros _].
    apply all_bind; [apply preview_loop_events | intros _].
    destruct (d_dry_run args).
    + apply all_bind; [now apply all_echo | intros _; apply all_raise].
    + apply all_bind; [|intros _; apply all_ret].
      destruct (negb (d_yes args)); [|apply all_ret].
      apply all_bind; [now apply all_confirm | intros ok].
      destruct (negb ok); [apply all_raise | apply all_ret].
Qed.

Lemma lookup_attachment_by_name_events w b p auth f :
  all_events P (lookup_attachment_by_name w b p auth f).
Proof.
  intros h. rewrite lookup_attachment_by_name_run. cbn [snd].
  constructor; [now apply P_get | constructor].
Qed.

Lemma resolve_attachment_events w args b info auth name :
  all_events P (resolve_attachment w args b info auth name).
Proof.
  unfold resolve_attachment.
  assert (Hlook : all_events P
            (bind (lookup_attachment_by_name w b (pi_id info) auth name)
                  (fun att_obj => ret (att_obj, PStr name)))).
  { apply all_bind; [apply lookup_attachment_by_name_events | intros; apply all_ret]. }
  destruct (u_attachment_id args) as [aid|]; [|exact Hlook].
  destruct (opt_truthy (Some aid)); [|exact Hlook].
  apply all_bind; [apply all_send; intros; now apply P_get | intros r].
  destruct (status_code r =? 200); [|apply all_raise].
  repeat (apply all_bind; [apply all_lift | intros ?]). apply all_ret.
Qed.

Lemma update_resolve_events w args :
  P (EvOpen (u_publish args) "r") -> all_events P (update_resolve w args).
Proof.
  intros Hopen. unfold update_resolve.
  apply all_bind; [now apply get_page_from_publish_events | intros info].
  repeat (apply all_bind; [apply all_lift | intros ?]).
  apply all_bind.
  - destruct (u_verbose args); [|apply all_ret].
    apply all_bind; [now apply all_echo | intros _].
    destruct (u_attachment_id args); [|apply all_ret].
    destruct (opt_truthy _); [now apply all_echo | apply all_ret].
  - intros _. apply all_bind; [apply resolve_attachment_events | intros; apply all_ret].
Qed.
End Stages.

(** ** Dry runs *)

Lemma no_mutation_get rq rs : rq_method rq = GET -> no_mutation (EvHttp rq rs).
Proof. intros H. cbn. unfold is_mutation. now rewrite H. Qed.

Lemma delete_select_quiet fuel w args : all_events no_mutation (delete_select fuel w args).
Proof.
  apply delete_select_events; try exact no_mutation_get; intros; exact I.
Qed.

Lemma update_resolve_quiet w args : all_events no_mutation (update_resolve w args).
Proof.
  apply update_resolve_events; try exact no_mutation_get; intros; exact I.
Qed.

Lemma delete_select_dry_run_diverts fuel w args :
  d_dry_run args = true -> diverts (delete_select fuel w args).
Proof.
  intros Hdry. unfold delete_select.
  do 4 (apply diverts_bind_r; intros ?).
  match goal with |- diverts (match ?l with _ => _ end) => destruct l end.
  - apply diverts_bind_r. intros _. apply diverts_raise.
  - do 2 (apply diverts_bind_r; intros _). rewrite Hdry.
    apply diverts_bind_r. intros _. apply diverts_raise.
Qed.

Lemma update_apply_dry_run w args x :
  u_dry_run args = true ->
  all_events no_mutation (update_apply w args x) /\ diverts (update_apply w args x).
Proof.
  intros Hdry. unfold update_apply. rewrite Hdry.
  destruct (negb (truthy (rs_att_obj x))).
  - destruct (negb (u_create_if_missing args)).
    + split; [apply all_raise | apply diverts_raise].
    + split.
      * apply all_bind; [now apply all_echo | intros _; apply all_raise].
      * apply diverts_bind_r. intros _. apply diverts_raise.
  - split.
    + repeat (apply all_bind; [apply all_lift | intros ?]).
      apply all_bind; [now apply all_echo | intros _; apply all_raise].
    + do 3 (apply diverts_bind_r; intros ?).
      apply diverts_bind_r. intros _. apply diverts_raise.
Qed.

(** C2: with [dry_run] set, the delete workflow and the update command send
    no create, update or delete call, whatever the server and the mapping
    file hold, and they end by an exit, never by running to the end; the
    update command's dry-run branches print the creation or the update they
    would make and exit with code 0. *)
Theorem dry_run_sends_no_mutation :
  (forall fuel w args h,
      d_dry_run args = true ->
      mutations (snd (delete_cmd fuel w args h)) = []
      /\ fst (delete_cmd fuel w args h) <> Ok tt)
  /\ (forall w args h,
         u_dry_run args = true ->
         mutations (snd (update_cmd w args h)) = []
         /\ fst (update_cmd w args h) <> Ok tt)
  /\ (forall w args x h,
         u_dry_run args = true ->
         truthy (rs_att_obj x) = false -> u_create_if_missing args = true ->
         update_apply w args x h
         = (Raise (Exit 0 None),
            [EvEcho (MsgWouldCreate (rs_upload_name x) (pi_id (rs_info x)) (u_file args))]))
  /\ (forall w args x h aid title ver,
         u_dry_run args = true ->
         truthy (rs_att_obj x) = true ->
         py_get (rs_att_obj x) "id" PNone = Ok aid ->
         py_get (rs_att_obj x) "title" PNone = Ok title ->
         version_number (rs_att_obj x) = Ok ver ->
         update_apply w args x h
         = (Raise (Exit 0 None),
            [EvEcho (MsgWouldUpdate aid (py_or title (rs_upload_name x))
                                    (pi_id (rs_info x)) (u_file args) ver)])).
Proof.
  split; [|split; [|split]].
  - intros fuel w args h Hdry. split.
    + apply no_mutation_mutations. unfold delete_cmd.
      apply all_bind_diverts;
        [apply delete_select_quiet | now apply delete_select_dry_run_diverts].
    + unfold delete_cmd.
      apply (diverts_bind_l _ _ (delete_select_dry_run_diverts fuel w args Hdry)).
  - intros w args h Hdry. split.
    + apply no_mutation_mutations. unfold update_cmd.
      apply all_bind; [apply update_resolve_quiet|].
      intros x. now apply update_apply_dry_run.
    + unfold update_cmd. apply diverts_bind_r. intros x.
      now apply update_apply_dry_run.
  - intros w args x h Hdry Hatt Hcreate. unfold update_apply.
    rewrite Hatt, Hcreate, Hdry. reflexivity.
  - intros w args x h aid title ver Hdry Hatt Hid Htitle Hver. unfold update_apply.
    rewrite Hatt, Hdry. cbn [negb].
    rewrite Hid, bind_lift, Htitle, bind_lift, Hver, bind_lift. reflexivity.
Qed.

Lemma dry_run_sends_no_mutation_witness :
  let w := sample_world [attachment "1" "a.png" 1; attachment "2" "b.png" 2]
                        (PList [attachment "7" "plot.png" 3]) PNone (fun _ => 204) in
  let dargs := mkDeleteArgs "plot.qmd" "_publish.yml" None true false None None None in
  let uargs := mkUpdateArgs "plot.qmd" "out/plot.png" "_publish.yml" None None None
                            false true None None None false in
  (mutations (snd (delete_cmd 3 w dargs [])) = []
   /\ last (snd (delete_cmd 3 w dargs [])) (EvEcho MsgAllSucceeded)
      = EvEcho MsgDryRunNothingDeleted)
  /\ (mutations (snd (update_cmd w uargs [])) = []
      /\ last (snd (update_cmd w uargs [])) (EvEcho MsgAllSucceeded)
         = EvEcho (MsgWouldUpdate (PStr "7") (PStr "plot.png") "123456" "out/plot.png"
                                  (PInt 3))).
Proof.
  intros w dargs uargs. split; split.
  - apply (proj1 dry_run_sends_no_mutation 3%nat w dargs [] eq_refl).
  - vm_compute. reflexivity.
  - apply (proj1 (proj2 dry_run_sends_no_mutation) w uargs [] eq_refl).
  - vm_compute. reflexivity.
Defined.

(** ** The update command: one upload at most *)

(** The create call or the update call of the update command. *)
Definition is_upload_call (args : update_args) (rq : request) : Prop :=
  (exists b page_id name auth,
      rq = create_request b page_id name (u_file args) auth (u_comment args))
  \/ (exists b page_id aid name auth,
         rq = update_request b page_id aid name (u_file args) auth (u_comment args)).

Definition at_most_one_upload (args : update_args) (es : list event) : Prop :=
  mutations es = [] \/ exists rq, mutations es = [rq] /\ is_upload_call args rq.

Lemma at_most_one_after_quiet {A B} args (m : M A) (f : A -> M B) :
  all_events no_mutation m ->
  (forall a h, at_most_one_upload args (snd (f a h))) ->
  forall h, at_most_one_upload args (snd (bind m f h)).
Proof.
  intros Hm Hf h. rewrite bind_run. specialize (Hm h).
  apply no_mutation_mutations in Hm.
  destruct (m h) as [[a| |] es]; cbn [snd] in *; try (now left).
  unfold at_most_one_upload. rewrite mutations_app, Hm. apply Hf.
Qed.

Lemma at_most_one_then_quiet {A B} args (m : M A) (f : A -> M B) rq :
  (forall h, mutations (snd (m h)) = [rq]) -> is_upload_call args rq ->
  (forall a, all_events no_mutation (f a)) ->
  forall h, at_most_one_upload args (snd (bind m f h)).
Proof.
  intros Hm Hrq Hf h. rewrite bind_run. specialize (Hm h).
  destruct (m h) as [[a| |] es]; cbn [snd] in *; right; exists rq;
    (split; [|exact Hrq]); try exact Hm.
  rewrite mutations_app, Hm, (no_mutation_mutations _ (Hf a _)). reflexivity.
Qed.

Lemma create_attachment_events w b page_id name file auth comment h :
  snd (create_attachment w b page_id name file auth comment h)
  = [EvOpen file "rb";
     EvHttp (create_request b page_id name file auth comment)
            (w_http w (h ++ [EvOpen file "rb"])%list
                    (create_request b page_id name file auth comment))].
Proof.
  unfold create_attachment. rewrite bind_emit, bind_send.
  destruct (negb _); [reflexivity|]. unfold lift. reflexivity.
Qed.

Lemma update_attachment_events w b page_id aid name file auth comment h :
  snd (update_attachment w b page_id aid name file auth comment h)
  = [EvOpen file "rb";
     EvHttp (update_request b page_id aid name file auth comment)
            (w_http w (h ++ [EvOpen file "rb"])%list
                    (update_request b page_id aid name file auth comment))].
Proof.
  unfold update_attachment. rewrite bind_emit, bind_send.
  destruct (negb _); [reflexivity|]. unfold lift. reflexivity.
Qed.

Lemma update_apply_at_most_one w args x h :
  at_most_one_upload args (snd (update_apply w args x h)).
Proof.
  unfold update_apply.
  destruct (negb (truthy (rs_att_obj x))).
  - destruct (negb (u_create_if_missing args)); [now left|].
    destruct (u_dry_run args); [now left|].
    apply at_most_one_then_quiet
      with (rq := create_request (rs_base x) (pi_id (rs_info x)) (rs_upload_name x)
                                 (u_file args) (rs_auth x) (u_comment args)).
    + intros h'. rewrite create_attachment_events. reflexivity.
    + left. now repeat eexists.
    + intros res. repeat (apply all_bind; [apply all_lift | intros ?]).
      now apply all_echo.
  - revert h. repeat (apply at_most_one_after_quiet; [apply all_lift | intros ?]).
    intros h. destruct (u_dry_run args); [now left|].
    match goal with
    | |- context [update_attachment w ?b ?p ?aid ?name ?file ?auth ?comment] =>
        apply at_most_one_then_quiet
          with (rq := update_request b p aid name file auth comment)
    end.
    + intros h'. rewrite update_attachment_events. reflexivity.
    + right. now repeat eexists.
    + intros res. repeat (apply all_bind; [apply all_lift | intros ?]).
      apply all_bind; [now apply all_echo | intros _].
      destruct (truthy _); [now apply all_echo | apply all_ret].
Qed.

Section UpdateApply.
Variable P : event -> Prop.
Hypothesis P_http : forall rq rs, P (EvHttp rq rs).
Hypothesis P_echo : forall m, P (EvEcho m).

Lemma update_apply_events w args x :
  P (EvOpen (u_file args) "rb") -> all_events P (update_apply w args x).
Proof.
  intros Hopen. unfold update_apply.
  assert (Hup : forall b page_id aid name auth comment,
             all_events P (update_attachment w b page_id aid name (u_file args) auth comment)).
  { intros. intros h. rewrite update_attachment_events. now repeat constructor. }
  assert (Hcr : forall b page_id name auth comment,
             all_events P (create_attachment w b page_id name (u_file args) auth comment)).
  { intros. intros h. rewrite create_attachment_events. now repeat constructor. }
  destruct (negb (truthy (rs_att_obj x))).
  - destruct (negb (u_create_if_missing args)); [apply all_raise|].
    destruct (u_dry_run args).
    + apply all_bind; [now apply all_echo | intros _; apply all_raise].
    + apply all_bind; [apply Hcr | intros res].
      repeat (apply all_bind; [apply all_lift | intros ?]). now apply all_echo.
  - repeat (apply all_bind; [apply all_lift | intros ?]).
    destruct (u_dry_run args).
    + apply all_bind; [now apply all_echo | intros _; apply all_raise].
    + apply all_bind; [apply Hup | intros res].
      repeat (apply all_bind; [apply all_lift | intros ?]).
      apply all_bind; [now apply all_echo | intros _].
      destruct (truthy _); [now apply all_echo | apply all_ret].
Qed.
End UpdateApply.

(** C5: a run of the update command sends no create, update or delete call,
    or exactly one call, which is the create call or the update call with
    the upload file; and the only files it opens are the mapping file and
    the upload file, both for reading. *)
Theorem update_issues_at_most_one_mutation :
  forall w args h,
    (mutations (snd (update_cmd w args h)) = []
     \/ exists rq, mutations (snd (update_cmd w args h)) = [rq]
                   /\ is_upload_call args rq)
    /\ (List.length (mutations (snd (update_cmd w args h))) <= 1)%nat
    /\ Forall (opens_for_reading (u_publish args) (u_file args))
              (snd (update_cmd w args h))
    /\ Forall read_only_open (snd (update_cmd w args h)).
Proof.
  intros w args h.
  assert (H1 : at_most_one_upload args (snd (update_cmd w args h))).
  { unfold update_cmd. apply at_most_one_after_quiet; [apply update_resolve_quiet|].
    intros x h'. apply update_apply_at_most_one. }
  split; [exact H1 | split; [|split]].
  - destruct H1 as [-> | (rq & -> & _)]; cbn; lia.
  - unfold update_cmd. apply all_bind.
    + apply update_resolve_events; cbn; auto.
    + intros x. apply update_apply_events; cbn; auto.
  - unfold update_cmd. apply all_bind.
    + apply update_resolve_events; cbn; auto.
    + intros x. apply update_apply_events; cbn; auto.
Qed.

(** ** The update command: the upload name *)

(** [attachment_name or file.name] *)
Definition requested_name (args : update_args) : string :=
  match u_attachment_name args with
  | Some n => if opt_truthy (u_attachment_name args) then n else path_name (u_file args)
  | None => path_name (u_file args)
  end.

Lemma bind_fst_ok {A B} (m : M A) (f : A -> M B) h b :
  fst (bind m f h) = Ok b ->
  exists a es, m h = (Ok a, es) /\ fst (f a (h ++ es)%list) = Ok b.
Proof.
  rewrite bind_run. destruct (m h) as [[a| |] es]; cbn [fst]; try discriminate.
  intros H. now exists a, es.
Qed.

Lemma exactly_one_then_quiet {A B} (m : M A) (f : A -> M B) rq :
  (forall h, mutations (snd (m h)) = [rq]) ->
  (forall a, all_events no_mutation (f a)) ->
  forall h, mutations (snd (bind m f h)) = [rq].
Proof.
  intros Hm Hf h. rewrite bind_run. specialize (Hm h).
  destruct (m h) as [[a| |] es]; cbn [snd] in *; try exact Hm.
  rewrite mutations_app, Hm, (no_mutation_mutations _ (Hf a _)). reflexivity.
Qed.

Lemma resolve_attachment_upload_name w args b info auth name h att up :
  fst (resolve_attachment w args b info auth name h) = Ok (att, up) ->
  up = PStr name
  \/ exists t, py_get att "title" PNone = Ok t /\ truthy t = true /\ up = t.
Proof.
  unfold resolve_attachment.
  assert (Hlook :
    fst (bind (lookup_attachment_by_name w b (pi_id info) auth name)
              (fun att_obj => ret (att_obj, PStr name)) h) = Ok (att, up) ->
    up = PStr name).
  { intros H. apply bind_fst_ok in H as (a & es & _ & H). cbn in H. congruence. }
  destruct (u_attachment_id args) as [aid|]; [|intros H; left; now apply Hlook].
  destruct (opt_truthy (Some aid)); [|intros H; left; now apply Hlook].
  rewrite bind_send. destruct (status_code _ =? 200); [|discriminate].
  rewrite bind_lift. destruct (json _) as [att_obj| |]; try discriminate.
  rewrite bind_lift. destruct (py_get att_obj "title" PNone) as [t| |] eqn:Ht; try discriminate.
  cbn. intros [= <- <-]. unfold py_or. destruct (truthy t) eqn:E.
  - right. now exists t.
  - now left.
Qed.

Lemma update_resolve_upload_name w args h x :
  fst (update_resolve w args h) = Ok x ->
  rs_upload_name x = PStr (requested_name args)
  \/ exists t, py_get (rs_att_obj x) "title" PNone = Ok t /\ truthy t = true
               /\ rs_upload_name x = t.
Proof.
  unfold update_resolve. intros H.
  apply bind_fst_ok in H as (info & es1 & _ & H).
  apply bind_fst_ok in H as (auth & es2 & _ & H).
  apply bind_fst_ok in H as (b & es3 & _ & H).
  apply bind_fst_ok in H as (u & es4 & _ & H).
  apply bind_fst_ok in H as ([att up] & es5 & Hres & H).
  cbn in H. injection H as <-. cbn [rs_upload_name rs_att_obj fst snd].
  apply (resolve_attachment_upload_name w args b info auth (requested_name args)
           ((((h ++ es1) ++ es2) ++ es3) ++ es4)%list att up).
  unfold requested_name. now rewrite Hres.
Qed.

Lemma update_apply_existing w args x h title :
  truthy (rs_att_obj x) = true ->
  py_get (rs_att_obj x) "title" PNone = Ok title ->
  (mutations (snd (update_apply w args x h)) = []
   \/ exists aid,
       py_get (rs_att_obj x) "id" PNone = Ok aid
       /\ mutations (snd (update_apply w args x h))
          = [update_request (rs_base x) (pi_id (rs_info x)) aid
                            (py_or title (rs_upload_name x)) (u_file args)
                            (rs_auth x) (u_comment args)])
  /\ (u_dry_run args = false ->
      forall ver, version_number (rs_att_obj x) = Ok ver ->
      exists aid,
        py_get (rs_att_obj x) "id" PNone = Ok aid
        /\ mutations (snd (update_apply w args x h))
           = [update_request (rs_base x) (pi_id (rs_info x)) aid
                             (py_or title (rs_upload_name x)) (u_file args)
                             (rs_auth x) (u_comment args)]).
Proof.
  intros Hatt Htitle. unfold update_apply. rewrite Hatt. cbn [negb].
  rewrite bind_lift.
  destruct (py_get (rs_att_obj x) "id" PNone) as [aid| |] eqn:Hid.
  2,3: destruct (rs_att_obj x); discriminate.
  rewrite bind_lift, Htitle, bind_lift.
  assert (Hsend : forall h',
    mutations
      (snd (bind (update_attachment w (rs_base x) (pi_id (rs_info x)) aid
                                    (py_or title (rs_upload_name x)) (u_file args)
                                    (rs_auth x) (u_comment args))
                 (fun res =>
                    (new_ver <- lift (version_number res) ;;
                     e <- lift (py_get res "extensions" PNone) ;;
                     size <- lift (py_get (py_or e (PDict [])) "fileSize" PNone) ;;
                     l <- lift (py_get res "_links" PNone) ;;
                     download <- lift (py_get (py_or l (PDict [])) "download" PNone) ;;
                     echo (MsgUpdated aid (py_or title (rs_upload_name x)) new_ver size) ;;
                     if truthy download
                     then echo (MsgDownload (rs_base x ++ py_str download))
                     else ret tt)%io) h'))
    = [update_request (rs_base x) (pi_id (rs_info x)) aid
                      (py_or title (rs_upload_name x)) (u_file args)
                      (rs_auth x) (u_comment args)]).
  { apply exactly_one_then_quiet.
    - intros h'. rewrite update_attachment_events. reflexivity.
    - intros res. repeat (apply all_bind; [apply all_lift | intros ?]).
      apply all_bind; [now apply all_echo | intros _].
      match goal with |- context [if truthy ?v then _ else _] => destruct (truthy v) end;
        [now apply all_echo | apply all_ret]. }
  split.
  - destruct (version_number (rs_att_obj x)); try (now left).
    destruct (u_dry_run args); [now left|].
    right. exists aid. split; [reflexivity | apply Hsend].
  - intros Hdry ver ->. rewrite Hdry. exists aid. split; [reflexivity | apply Hsend].
Qed.

Lemma update_cmd_mutations w args h x :
  fst (update_resolve w args h) = Ok x ->
  mutations (snd (update_cmd w args h))
  = mutations (snd (update_apply w args x (h ++ snd (update_resolve w args h))%list)).
Proof.
  intros H. unfold update_cmd. rewrite bind_run.
  pose proof (update_resolve_quiet w args h) as Hq. apply no_mutation_mutations in Hq.
  destruct (update_resolve w args h) as [r es]. cbn [fst snd] in *. subst r.
  cbn [snd]. now rewrite mutations_app, Hq.
Qed.

(** C1 (amended): when the update command has resolved an existing
    attachment (by name or by attachment id) whose remote title is present
    and not empty, every upload it sends carries that title as the upload
    filename, whatever [--name] says, and outside a dry run the one call it
    sends is the update call with that title; when the remote object has
    no title or an empty one, the upload filename falls back to the name
    asked for ([--name], else the base name of the file). *)
Theorem update_uploads_under_remote_title :
  forall w args h x title,
    fst (update_resolve w args h) = Ok x ->
    truthy (rs_att_obj x) = true ->
    py_get (rs_att_obj x) "title" PNone = Ok title ->
    (truthy title = true ->
     (forall rq, In rq (mutations (snd (update_cmd w args h))) ->
                 rq_files rq = Some (title, u_file args))
     /\ (u_dry_run args = false ->
         forall ver, version_number (rs_att_obj x) = Ok ver ->
         exists aid,
           py_get (rs_att_obj x) "id" PNone = Ok aid
           /\ mutations (snd (update_cmd w args h))
              = [update_request (rs_base x) (pi_id (rs_info x)) aid title
                                (u_file args) (rs_auth x) (u_comment args)]))
    /\ (truthy title = false ->
        forall rq, In rq (mutations (snd (update_cmd w args h))) ->
                   rq_files rq = Some (PStr (requested_name args), u_file args)).
Proof.
  intros w args h x title Hres Hatt Htitle.
  rewrite (update_cmd_mutations w args h x Hres).
  destruct (update_apply_existing w args x (h ++ snd (update_resolve w args h))%list
                                  title Hatt Htitle) as (Hany & Hrun).
  split.
  - intros Ht. unfold py_or in *. rewrite Ht in *. split.
    + intros rq Hin. destruct Hany as [E | (aid & _ & E)]; rewrite E in Hin.
      * contradiction.
      * destruct Hin as [<-|[]]. reflexivity.
    + exact Hrun.
  - intros Ht rq Hin. unfold py_or in *. rewrite Ht in *.
    destruct (update_resolve_upload_name w args h x Hres) as [Hup | (t & Ht' & Htt & _)].
    + destruct Hany as [E | (aid & _ & E)]; rewrite E in Hin.
      * contradiction.
      * destruct Hin as [<-|[]]. cbn. now rewrite Hup.
    + rewrite Htitle in Ht'. injection Ht' as <-. congruence.
Qed.

Lemma update_uploads_under_remote_title_witness :
  let w := sample_world [] PNone (attachment "7" "plot.png" 3) (fun _ => 204) in
  let args := mkUpdateArgs "plot.qmd" "out/new.png" "_publish.yml" (Some "renamed.png")
                           (Some "7") None false false None None None false in
  map rq_files (mutations (snd (update_cmd w args [])))
  = [Some (PStr "plot.png", "out/new.png")].
Proof.
  intros w args.
  edestruct (update_uploads_under_remote_title w args []) as (Htitle & _).
  - vm_compute. reflexivity.
  - reflexivity.
  - reflexivity.
  - destruct (Htitle eq_refl) as (_ & Hrun).
    destruct (Hrun eq_refl (PInt 3) eq_refl) as (aid & _ & ->). reflexivity.
Defined.

(** C1 as stated fails when the remote object carries an empty title: the
    attachment fetched by id has the title [""], and the update call
    uploads under the name given with [--name]. *)
Lemma update_with_empty_remote_title_uses_name :
  let w := sample_world [] PNone (attachment "7" "" 3) (fun _ => 204) in
  let args := mkUpdateArgs "plot.qmd" "out/new.png" "_publish.yml" (Some "renamed.png")
                           (Some "7") None false false None None None false in
  (exists x, fst (update_resolve w args []) = Ok x
             /\ rs_att_obj x = attachment "7" "" 3
             /\ py_get (rs_att_obj x) "title" PNone = Ok (PStr ""))
  /\ map rq_files (mutations (snd (update_cmd w args [])))
     = [Some (PStr "renamed.png", "out/new.png")].
Proof.
  intros w args. split; [|vm_compute; reflexivity].
  eexists. split; [vm_compute; reflexivity|]. split; reflexivity.
Qed.

(* ================================================================== *)
(** * Further properties of the two scripts *)

(** ** Credentials *)

Lemma env_or_die_missing w k :
  opt_truthy (w_environ w k) = false ->
  env_or_die w k = Raise TypeError.
Proof.
  unfold env_or_die, opt_truthy. destruct (w_environ w k) as [v|]; [|reflexivity].
  destruct (v =? "")%string; [reflexivity | discriminate].
Qed.

Lemma env_or_die_cases w k :
  env_or_die w k = Raise TypeError
  \/ exists v, env_or_die w k = Ok v /\ w_environ w k = Some v /\ v <> ""%string.
Proof.
  unfold env_or_die. destruct (w_environ w k) as [v|]; [|now left].
  destruct (v =? "")%string eqn:E; [now left|].
  right. exists v. apply String.eqb_neq in E. now repeat split.
Qed.

Lemma get_page_ok_events w p s h info es :
  get_page_from_publish w p s h = (Ok info, es) -> es = [EvOpen p "r"].
Proof. rewrite get_page_from_publish_run. now intros [= _ <-]. Qed.

(** X1: an override that is not empty is used as it is and the environment
    is not read for it; when the email or the token has neither a non-empty
    override nor a non-empty environment variable, [make_auth] fails, with
    a TypeError: the exit with code 2 that names the variable is never
    raised, because [typer.Exit] refuses the [message] keyword of line 17;
    and when the credentials fail, the delete and the update commands stop
    with that error after reading the mapping file only, before any
    request. *)
Theorem credentials_fail_before_any_request :
  forall w email token,
    (forall e t, email = Some e -> e <> ""%string -> token = Some t -> t <> ""%string ->
                 make_auth w email token = Ok (e, t))
    /\ ((opt_truthy email = false
         /\ opt_truthy (w_environ w "CONFLUENCE_EMAIL") = false)
        \/ (opt_truthy token = false
            /\ opt_truthy (w_environ w "CONFLUENCE_API_TOKEN") = false) ->
        make_auth w email token = Raise TypeError)
    /\ (forall err,
           make_auth w email token = Raise err ->
           (forall fuel args h info es,
               d_email args = email -> d_token args = token ->
               get_page_from_publish w (d_publish args) (d_source args) h = (Ok info, es) ->
               delete_cmd fuel w args h = (Raise err, [EvOpen (d_publish args) "r"]))
           /\ (forall args h info es,
                  u_email args = email -> u_token args = token ->
                  get_page_from_publish w (u_publish args) (u_source args) h = (Ok info, es) ->
                  update_cmd w args h = (Raise err, [EvOpen (u_publish args) "r"]))).
Proof.
  intros w email token. split; [|split].
  - intros e t -> He -> Ht. unfold make_auth.
    rewrite (opt_truthy_some e He), (opt_truthy_some t Ht). reflexivity.
  - intros Hmiss. unfold make_auth.
    set (em := match email with Some e => _ | None => _ end).
    set (tk := match token with Some t => _ | None => _ end).
    assert (Hem : opt_truthy email = false ->
                  opt_truthy (w_environ w "CONFLUENCE_EMAIL") = false ->
                  em = Raise TypeError).
    { intros He Henv. subst em. rewrite He, (env_or_die_missing _ _ Henv).
      now destruct email. }
    assert (Htk : opt_truthy token = false ->
                  opt_truthy (w_environ w "CONFLUENCE_API_TOKEN") = false ->
                  tk = Raise TypeError).
    { intros Ht Henv. subst tk. rewrite Ht, (env_or_die_missing _ _ Henv).
      now destruct token. }
    assert (Hcases : em = Raise TypeError \/ exists v, em = Ok v).
    { subst em. destruct email as [e|].
      - destruct (opt_truthy (Some e)); [right; now exists e|].
        destruct (env_or_die_cases w "CONFLUENCE_EMAIL") as [-> | (v & -> & _)];
          [now left | right; now exists v].
      - destruct (env_or_die_cases w "CONFLUENCE_EMAIL") as [-> | (v & -> & _)];
          [now left | right; now exists v]. }
    destruct Hmiss as [[He Henv] | [Ht Henv]].
    + now rewrite (Hem He Henv).
    + destruct Hcases as [-> | [v ->]]; [reflexivity|].
      cbn [obind]. now rewrite (Htk Ht Henv).
  - intros err Herr. split.
    + intros fuel args h info es He Ht Hpage.
      pose proof (get_page_ok_events _ _ _ _ _ _ Hpage) as ->.
      unfold delete_cmd, delete_select.
      rewrite bind_run, bind_run, Hpage, bind_lift, He, Ht, Herr. reflexivity.
    + intros args h info es He Ht Hpage.
      pose proof (get_page_ok_events _ _ _ _ _ _ Hpage) as ->.
      unfold update_cmd, update_resolve.
      rewrite bind_run, bind_run, Hpage, bind_lift, He, Ht, Herr. reflexivity.
Qed.

Lemma credentials_fail_before_any_request_witness :
  let w := mkWorld no_env (fun _ => Ok sample_publish) urlsplit_plain (fun _ => false)
                   (sample_server [] PNone PNone (fun _ => 204)) (fun _ => true) in
  let args := mkDeleteArgs "plot.qmd" "_publish.yml" None false true None None (Some "tok") in
  make_auth w None (Some "tok") = Raise TypeError
  /\ delete_cmd 3 w args [] = (Raise TypeError, [EvOpen "_publish.yml" "r"]).
Proof.
  intros w args.
  assert (Hauth : make_auth w None (Some "tok") = Raise TypeError).
  { apply (proj1 (proj2 (credentials_fail_before_any_request w None (Some "tok")))).
    left. split; reflexivity. }
  split; [exact Hauth|].
  eapply (proj1 (proj2 (proj2 (credentials_fail_before_any_request w None (Some "tok")))
                   _ Hauth)
            3%nat args []); reflexivity.
Defined.

(** ** Ties between versions *)

Lemma insert_desc_head x l r :
  insert_desc x l = Ok r ->
  match l with
  | [] => r = [x]
  | y :: _ => (key_lt (fst x) (fst y) = Some true /\ exists t, r = y :: t)
              \/ (key_lt (fst x) (fst y) = Some false /\ r = x :: l)
  end.
Proof.
  destruct l as [|y l]; cbn [insert_desc].
  - now intros [= <-].
  - destruct (key_lt (fst x) (fst y)) as [[|]|]; try discriminate.
    + destruct (insert_desc x l) as [t| |]; try discriminate. cbn [obind].
      intros [= <-]. left. split; [reflexivity | now exists t].
    + intros [= <-]. now right.
Qed.

Lemma sort_desc_first_max l s :
  sort_desc l = Ok s ->
  match s with
  | [] => l = []
  | m :: _ =>
      exists pre post,
        l = (pre ++ m :: post)%list
        /\ (forall y, In y pre -> key_lt (fst y) (fst m) = Some true)
        /\ (forall y, In y post -> key_lt (fst m) (fst y) <> Some true)
  end.
Proof.
  revert s. induction l as [|x l IH]; intros s; cbn [sort_desc].
  - now intros [= <-].
  - destruct (sort_desc l) as [s0| |] eqn:Es; try discriminate. cbn [obind].
    intros Hins. specialize (IH s0 eq_refl).
    pose proof (insert_desc_head _ _ _ Hins) as Hh.
    destruct s0 as [|m s0].
    + subst. exists [], []. repeat split; intros y [].
    + destruct IH as (pre & post & -> & Hpre & Hpost).
      destruct Hh as [(Hlt & t & ->) | (Hge & ->)].
      * exists (x :: pre), post. repeat split; [|exact Hpost].
        intros y [<-|Hy]; [exact Hlt | now apply Hpre].
      * exists [], (pre ++ m :: post)%list. repeat split; [intros y []|].
        intros y Hy. apply in_app_or in Hy as [Hy | [<- | Hy]].
        -- apply (key_ge_trans _ _ _ Hge). apply key_lt_asym. now apply Hpre.
        -- congruence.
        -- apply (key_ge_trans _ _ _ Hge). now apply Hpost.
Qed.

(** X2: among attachments of the result set, the lookup returns the first
    one, in the order the server sent them, whose version number none
    exceeds: every attachment before it has a strictly lower number, none
    after it a higher one.  (Stated for integer version numbers.) *)
Theorem lookup_breaks_ties_by_server_order :
  forall l a,
    l <> [] ->
    (forall b, In b l -> exists n, version_key b = Ok (PInt n)) ->
    pick_latest (PList l) = Ok a ->
    exists pre post na,
      l = (pre ++ a :: post)%list
      /\ version_key a = Ok (PInt na)
      /\ (forall b nb, In b pre -> version_key b = Ok (PInt nb) -> nb < na)
      /\ (forall b nb, In b post -> version_key b = Ok (PInt nb) -> nb <= na).
Proof.
  intros l a Hne Hint. unfold pick_latest.
  replace (truthy (PList l)) with true by (destruct l; [contradiction | reflexivity]).
  cbn [negb]. unfold sort_by_version.
  destruct (with_keys l) as [kl| |] eqn:Ek; try discriminate. cbn [obind].
  destruct (sort_desc kl) as [s| |] eqn:Es; try discriminate. cbn [obind].
  destruct (with_keys_spec _ _ Ek) as (Hm & Hf). rewrite Forall_forall in Hf.
  pose proof (sort_desc_first_max _ _ Es) as Hfm.
  destruct s as [|[k x] s]; [discriminate|]. cbn [map snd]. intros [= <-].
  destruct Hfm as (pre & post & -> & Hpre & Hpost).
  assert (Hkx : version_key x = Ok k) by (apply (Hf (k, x)), in_elt).
  destruct (Hint x) as (na & Hna).
  { rewrite <- Hm, map_app. cbn. apply in_elt. }
  rewrite Hna in Hkx. injection Hkx as <-.
  exists (map snd pre), (map snd post), na.
  rewrite <- Hm, map_app. cbn [map snd]. repeat split; try assumption.
  - intros b nb Hb Hnb. apply in_map_iff in Hb as ([kb b'] & <- & Hb). cbn [snd] in *.
    assert (Hkb : version_key b' = Ok kb).
    { apply (Hf (kb, b')). apply in_or_app. now left. }
    rewrite Hnb in Hkb. injection Hkb as <-.
    specialize (Hpre _ Hb). cbn in Hpre. injection Hpre as Hpre.
    now apply Z.ltb_lt.
  - intros b nb Hb Hnb. apply in_map_iff in Hb as ([kb b'] & <- & Hb). cbn [snd] in *.
    assert (Hkb : version_key b' = Ok kb).
    { apply (Hf (kb, b')). apply in_or_app. right. now right. }
    rewrite Hnb in Hkb. injection Hkb as <-.
    specialize (Hpost _ Hb). cbn in Hpost.
    destruct (na <? nb) eqn:E; [now elim Hpost | now apply Z.ltb_ge].
Qed.

Lemma lookup_breaks_ties_by_server_order_witness :
  pick_latest (PList [attachment "7" "plot.png" 3; attachment "8" "plot.png" 5;
                      attachment "9" "plot.png" 5])
  = Ok (attachment "8" "plot.png" 5).
Proof.
  destruct (lookup_breaks_ties_by_server_order
              [attachment "7" "plot.png" 3; attachment "8" "plot.png" 5;
               attachment "9" "plot.png" 5]
              (attachment "8" "plot.png" 5)) as (pre & _).
  - discriminate.
  - intros b [<-|[<-|[<-|[]]]]; eexists; reflexivity.
  - reflexivity.
  - reflexivity.
Defined.

(** ** Base names *)

Lemma split_on_no_sep c (s : string) : Forall (fun x => has_char c x = false) (split_on c s).
Proof.
  induction s as [|a s IH]; cbn [split_on].
  - repeat constructor.
  - destruct (Ascii.eqb a c) eqn:E.
    + constructor; [reflexivity | exact IH].
    + destruct (split_on c s) as [|x t]; [repeat constructor; cbn; now rewrite E|].
      inversion IH as [|? ? Hx Ht]; subst.
      constructor; [cbn; now rewrite E | exact Ht].
Qed.

Lemma last_Forall {A} (P : A -> Prop) l d : Forall P l -> P d -> P (last l d).
Proof.
  induction 1 as [|x l Hx Hl IH]; intros Hd; [exact Hd|].
  destruct l; [exact Hx | now apply IH].
Qed.

Lemma prefix_nil (s : string) : String.prefix "" s = true.
Proof. now destruct s. Qed.

(** The count of leading slashes [normpath] keeps. *)
Definition initial_slashes (p : string) : nat :=
  if startswith p "/"
  then if startswith p "//" && negb (startswith p "///") then 2%nat else 1%nat
  else 0%nat.

Lemma initial_slashes_trailing (dir : string) a (f : string) :
  Ascii.eqb a "/" = false ->
  initial_slashes (dir ++ String "/" (String a f ++ "/"))
  = initial_slashes (dir ++ String "/" (String a f)).
Proof.
  intros Ha. unfold initial_slashes, startswith.
  destruct dir as [|d [|d' [|d'' dir]]]; cbn [append String.prefix];
    repeat match goal with
           | |- context [ascii_dec ?x ?y] => destruct (ascii_dec x y)
           end; rewrite ?prefix_nil; subst; try reflexivity; try discriminate.
Qed.

Lemma normpath_trailing_slash_plain (dir f : string) :
  plain_name f = true ->
  normpath (dir ++ String "/" f ++ "/") = normpath (dir ++ String "/" f).
Proof.
  intros Hf. pose proof (plain_name_no_slash _ Hf) as Hs.
  unfold normpath. fold (initial_slashes (dir ++ String "/" f ++ "/")).
  fold (initial_slashes (dir ++ String "/" f)).
  destruct (dir ++ String "/" f ++ "/" =? "")%string eqn:E1.
  { apply String.eqb_eq in E1. apply append_eq_nil in E1 as [_ E1]. discriminate. }
  destruct (dir ++ String "/" f =? "")%string eqn:E2.
  { apply String.eqb_eq in E2. apply append_eq_nil in E2 as [_ E2]. discriminate. }
  assert (Hn : initial_slashes (dir ++ String "/" f ++ "/")
               = initial_slashes (dir ++ String "/" f)).
  { destruct f as [|a f]; [discriminate Hf|]. apply initial_slashes_trailing.
    cbn in Hs. now apply orb_false_iff in Hs as [Hs _]. }
  rewrite Hn.
  replace (split_on "/" (dir ++ String "/" f ++ "/"))
    with (split_on "/" dir ++ [f; ""%string])%list.
  2:{ change (dir ++ String "/" f ++ "/")%string
        with (dir ++ String "/" (f ++ String "/" ""))%string.
      now rewrite !split_on_app, (split_on_plain _ _ Hs). }
  rewrite split_on_app, (split_on_plain _ _ Hs), !fold_left_app. reflexivity.
Qed.

(** X3: the base name that keys the mapping never contains a slash, and a
    trailing slash after the file name does not change it: [dir/f/] has the
    key [f] like [dir/f]. *)
Theorem base_name_has_no_slash :
  (forall p, has_char "/" (_norm p) = false)
  /\ (forall dir f, plain_name f = true -> _norm (dir ++ "/" ++ f ++ "/") = f).
Proof.
  split.
  - intros p. unfold _norm, basename.
    apply last_Forall; [apply split_on_no_sep | reflexivity].
  - intros dir f Hf. unfold _norm.
    change (dir ++ "/" ++ f ++ "/")%string with (dir ++ String "/" f ++ "/")%string.
    rewrite (normpath_trailing_slash_plain dir f Hf).
    now apply norm_dir_file.
Qed.

Lemma base_name_has_no_slash_witness : _norm "site/figs/plot.qmd/" = "plot.qmd"%string.
Proof.
  exact (proj2 base_name_has_no_slash "site/figs" "plot.qmd" eq_refl).
Defined.

(** ** Upload calls and their status *)

Lemma update_attachment_run w b page_id aid name file auth comment h :
  update_attachment w b page_id aid name file auth comment h =
  let rq := update_request b page_id aid name file auth comment in
  let rs := w_http w (h ++ [EvOpen file "rb"])%list rq in
  (if status_code rs =? 200 then json rs
   else Raise TypeError,
   [EvOpen file "rb"; EvHttp rq rs]).
Proof.
  cbn zeta. unfold update_attachment. rewrite bind_emit, bind_send.
  destruct (status_code _ =? 200); cbn [negb]; [|reflexivity].
  unfold lift. reflexivity.
Qed.

Lemma create_attachment_run w b page_id name file auth comment h :
  create_attachment w b page_id name file auth comment h =
  let rq := create_request b page_id name file auth comment in
  let rs := w_http w (h ++ [EvOpen file "rb"])%list rq in
  (if (status_code rs =? 200) || (status_code rs =? 201) then json rs
   else Raise TypeError,
   [EvOpen file "rb"; EvHttp rq rs]).
Proof.
  cbn zeta. unfold create_attachment. rewrite bind_emit, bind_send.
  destruct ((status_code _ =? 200) || (status_code _ =? 201)); cbn [negb]; [|reflexivity].
  unfold lift. reflexivity.
Qed.

(** X4: the update call succeeds on status 200 only and the create call on
    200 or 201 only; any other answer (201 to an update included) makes the
    call fail, and nothing is retried: the file is opened once, for
    reading, and one request is sent.  The failure is a TypeError: the exit
    with code 1 that carries the status and the response body (lines 84
    and 95) is never raised, because [typer.Exit] refuses the [message]
    keyword. *)
Theorem upload_fails_on_unexpected_status :
  forall w b page_id aid name file auth comment h,
    (forall rs,
        rs = w_http w (h ++ [EvOpen file "rb"])%list
                    (update_request b page_id aid name file auth comment) ->
        (status_code rs = 200 ->
         fst (update_attachment w b page_id aid name file auth comment h) = json rs)
        /\ (status_code rs <> 200 ->
            fst (update_attachment w b page_id aid name file auth comment h)
            = Raise TypeError)
        /\ snd (update_attachment w b page_id aid name file auth comment h)
           = [EvOpen file "rb";
              EvHttp (update_request b page_id aid name file auth comment) rs])
    /\ (forall rs,
           rs = w_http w (h ++ [EvOpen file "rb"])%list
                       (create_request b page_id name file auth comment) ->
           (status_code rs = 200 \/ status_code rs = 201 ->
            fst (create_attachment w b page_id name file auth comment h) = json rs)
           /\ (status_code rs <> 200 -> status_code rs <> 201 ->
               fst (create_attachment w b page_id name file auth comment h)
               = Raise TypeError)
           /\ snd (create_attachment w b page_id name file auth comment h)
              = [EvOpen file "rb";
                 EvHttp (create_request b page_id name file auth comment) rs]).
Proof.
  intros w b page_id aid name file auth comment h. split; intros rs ->.
  - rewrite update_attachment_run. cbn zeta. cbn [fst snd]. repeat split.
    + intros ->. reflexivity.
    + intros H. apply Z.eqb_neq in H. now rewrite H.
  - rewrite create_attachment_run. cbn zeta. cbn [fst snd]. repeat split.
    + intros [-> | ->]; reflexivity.
    + intros H1 H2. apply Z.eqb_neq in H1, H2. now rewrite H1, H2.
Qed.

Lemma upload_fails_on_unexpected_status_witness :
  let w := mkWorld sample_env (fun _ => Ok sample_publish) urlsplit_plain (fun _ => false)
                   (fun _ _ => mkResponse 201 (Some (attachment "7" "plot.png" 4)) "created")
                   (fun _ => true) in
  fst (update_attachment w "https://h/wiki" "123456" (PStr "7") (PStr "plot.png")
                         "out/plot.png" ("me", "t") None [])
  = Raise TypeError
  /\ fst (create_attachment w "https://h/wiki" "123456" (PStr "plot.png")
                            "out/plot.png" ("me", "t") None [])
     = Ok (attachment "7" "plot.png" 4).
Proof.
  intros w. split.
  - refine (proj1 (proj2 (proj1 (upload_fails_on_unexpected_status
                                   w "https://h/wiki" "123456" (PStr "7") (PStr "plot.png")
                                   "out/plot.png" ("me", "t") None []) _ eq_refl)) _).
    discriminate.
  - refine (proj1 (proj2 (upload_fails_on_unexpected_status
                            w "https://h/wiki" "123456" (PStr "7") (PStr "plot.png")
                            "out/plot.png" ("me", "t") None []) _ eq_refl) _).
    now right.
Defined.

(** ** Resolving the attachment *)



Lemma update_cmd_after_resolve w args h x :
  fst (update_resolve w args h) = Ok x ->
  update_cmd w args h
  = (fst (update_apply w args x (h ++ snd (update_resolve w args h))%list),
     (snd (update_resolve w args h)
        ++ snd (update_apply w args x (h ++ snd (update_resolve w args h))%list))%list).
Proof.
  intros H. unfold update_cmd. rewrite bind_run.
  destruct (update_resolve w args h) as [r es]. cbn [fst snd] in *. now subst r.
Qed.

Lemma missing_attachment_keeps_requested_name w args h x :
  fst (update_resolve w args h) = Ok x ->
  truthy (rs_att_obj x) = false ->
  rs_upload_name x = PStr (requested_name args).
Proof.
  intros Hres Hatt.
  destruct (update_resolve_upload_name w args h x Hres) as [H | (t & Ht & Htt & _)];
    [exact H|].
  destruct (rs_att_obj x) as [| | | | |d]; try discriminate.
  destruct d; [|discriminate]. cbn in Ht. injection Ht as <-. discriminate.
Qed.

(** X6: when no attachment is found and creation is not allowed, the update
    command fails, with or without [--dry-run], having sent no create,
    update or delete call.  The failure is a TypeError, as for a
    configuration error: the exit with the code 3 of its own (line 140) is
    never raised, because [typer.Exit] refuses the [message] keyword. *)
Theorem missing_attachment_without_create_sends_nothing :
  forall w args h x,
    fst (update_resolve w args h) = Ok x ->
    truthy (rs_att_obj x) = false ->
    u_create_if_missing args = false ->
    update_cmd w args h = (Raise TypeError, snd (update_resolve w args h))
    /\ mutations (snd (update_cmd w args h)) = [].
Proof.
  intros w args h x Hres Hatt Hcreate.
  assert (Hrun : update_cmd w args h
    = (Raise TypeError, snd (update_resolve w args h))).
  { rewrite (update_cmd_after_resolve w args h x Hres). unfold update_apply.
    rewrite Hatt, Hcreate, (missing_attachment_keeps_requested_name w args h x Hres Hatt).
    cbn. now rewrite app_nil_r. }
  split; [exact Hrun|].
  rewrite Hrun. cbn [snd]. apply no_mutation_mutations, update_resolve_quiet.
Qed.

Lemma missing_attachment_without_create_sends_nothing_witness :
  let w := sample_world [] (PList []) PNone (fun _ => 204) in
  let args := mkUpdateArgs "plot.qmd" "out/plot.png" "_publish.yml" None None None
                           false false None None None false in
  fst (update_cmd w args []) = Raise TypeError.
Proof.
  intros w args.
  edestruct (missing_attachment_without_create_sends_nothing w args []) as (Hrun & _).
  - vm_compute. reflexivity.
  - reflexivity.
  - reflexivity.
  - now rewrite Hrun.
Defined.

(** X7: when no attachment is found, creation is allowed and the run is not
    a dry run, the one call sent is the create call, and the new attachment
    is named as asked ([--name], else the base name of the file), whether
    the search was by name or by attachment id. *)
Theorem missing_attachment_is_created_under_requested_name :
  forall w args h x,
    fst (update_resolve w args h) = Ok x ->
    truthy (rs_att_obj x) = false ->
    u_create_if_missing args = true ->
    u_dry_run args = false ->
    mutations (snd (update_cmd w args h))
    = [create_request (rs_base x) (pi_id (rs_info x)) (PStr (requested_name args))
                      (u_file args) (rs_auth x) (u_comment args)].
Proof.
  intros w args h x Hres Hatt Hcreate Hdry.
  rewrite (update_cmd_mutations w args h x Hres). unfold update_apply.
  rewrite Hatt, Hcreate, Hdry, (missing_attachment_keeps_requested_name w args h x Hres Hatt).
  cbn [negb]. apply exactly_one_then_quiet.
  - intros h'. rewrite create_attachment_events. reflexivity.
  - intros res. repeat (apply all_bind; [apply all_lift | intros ?]).
    now apply all_echo.
Qed.

Lemma missing_attachment_is_created_under_requested_name_witness :
  let w := sample_world [] (PList []) (attachment "11" "new.png" 1) (fun _ => 204) in
  let args := mkUpdateArgs "plot.qmd" "out/plot.png" "_publish.yml" (Some "new.png") None None
                           true false None None None false in
  map rq_files (mutations (snd (update_cmd w args [])))
  = [Some (PStr "new.png", "out/plot.png")].
Proof.
  intros w args.
  erewrite (missing_attachment_is_created_under_requested_name w args []).
  - reflexivity.
  - vm_compute. reflexivity.
  - reflexivity.
  - reflexivity.
  - reflexivity.
Defined.

Lemma bind_confirm_run {B} w prompt (f : bool -> M B) h :
  bind (confirm w prompt) f h =
  let '(r, es) := f (w_confirm w h) (h ++ [EvConfirm prompt (w_confirm w h)])%list in
  (r, EvConfirm prompt (w_confirm w h) :: es).
Proof. reflexivity. Qed.

(** ** The deletion workflow after the listing *)

(** What [delete_cmd] does with the matched attachments before it deletes
    (lines 163-173). *)
Definition after_listing (w : world) (args : delete_args) (info : page_info) (b : string)
           (auth : string * string) (atts : list attachment_record)
  : M (string * (string * string) * list attachment_record) :=
  match atts with
  | [] => (echo MsgNoAttachmentsMatched ;; raise (Exit 0 None))%io
  | _ =>
      (echo (MsgFound (List.length atts) (pi_id info)) ;;
       preview_loop w atts ;;
       if d_dry_run args
       then echo MsgDryRunNothingDeleted ;; raise (Exit 0 None)
       else
         (if negb (d_yes args)
          then ok <- confirm w MsgConfirmDelete ;;
               if negb ok then raise (Exit 1 None) else ret tt
          else ret tt) ;;
         ret (b, auth, atts))%io
  end.

Lemma delete_cmd_listed fuel w args h info auth b atts es :
  fst (get_page_from_publish w (d_publish args) (d_source args) h) = Ok info ->
  make_auth w (d_email args) (d_token args) = Ok auth ->
  resolve_base_url w (d_base_url args) (pi_url info) = Ok b ->
  list_page_attachments fuel w b (pi_id info) auth (d_filename_contains args)
                        (h ++ [EvOpen (d_publish args) "r"])%list = (Ok atts, es) ->
  delete_cmd fuel w args h =
  let pre := (EvOpen (d_publish args) "r" :: es)%list in
  match after_listing w args info b auth atts (h ++ pre)%list with
  | (Ok sel, es') =>
      (fst (delete_matched w sel ((h ++ pre) ++ es')%list),
       (pre ++ es' ++ snd (delete_matched w sel ((h ++ pre) ++ es')%list))%list)
  | (Raise e, es') => (Raise e, (pre ++ es')%list)
  | (OutOfFuel, es') => (OutOfFuel, (pre ++ es')%list)
  end.
Proof.
  intros Hpage Hauth Hb Hlist. cbn zeta.
  rewrite get_page_from_publish_run in Hpage. cbn [fst] in Hpage.
  unfold delete_cmd. rewrite bind_run.
  assert (Hsel : delete_select fuel w args h =
    let '(r, es') := after_listing w args info b auth atts
                       (h ++ EvOpen (d_publish args) "r" :: es)%list in
    (r, (EvOpen (d_publish args) "r" :: es ++ es')%list)).
  { unfold delete_select. rewrite bind_run, get_page_from_publish_run, Hpage.
    cbn [fst snd]. rewrite !bind_lift, Hauth, !bind_lift, Hb.
    rewrite !bind_run, Hlist. cbn [fst snd].
    replace ((h ++ [EvOpen (d_publish args) "r"]) ++ es)%list
      with (h ++ EvOpen (d_publish args) "r" :: es)%list
      by (now rewrite <- app_assoc).
    fold (after_listing w args info b auth atts).
    destruct (after_listing w args info b auth atts _) as [r es']. reflexivity. }
  rewrite Hsel.
  destruct (after_listing w args info b auth atts _) as [[sel| |] es']; cbn [fst snd];
    try reflexivity.
  cbn [app]. rewrite <- !app_assoc. cbn [app]. reflexivity.
Qed.

Lemma preview_loop_run w atts h :
  Forall (fun a => human w (ar_fileSize a) = Ok tt) atts ->
  preview_loop w atts h
  = (Ok tt, map (fun a => EvEcho (MsgItem (ar_id a) (ar_title a) (ar_fileSize a))) atts).
Proof.
  intros H. revert h. induction H as [|a atts Ha Hatts IH]; intros h; cbn [preview_loop map].
  - reflexivity.
  - rewrite bind_lift, Ha. unfold echo. rewrite bind_emit, IH. reflexivity.
Qed.

(** The lines of the preview. *)
Definition preview_lines (info : page_info) (atts : list attachment_record) : list event :=
  EvEcho (MsgFound (List.length atts) (pi_id info))
    :: map (fun a => EvEcho (MsgItem (ar_id a) (ar_title a) (ar_fileSize a))) atts.

(** X8: when the listing matches no attachment, the delete command prints
    "No attachments matched." and exits with code 0, whatever [--dry-run]
    and [--yes] are: nothing is asked and no delete call is sent. *)
Theorem delete_without_matches_is_a_no_op :
  forall fuel w args h info auth b es,
    fst (get_page_from_publish w (d_publish args) (d_source args) h) = Ok info ->
    make_auth w (d_email args) (d_token args) = Ok auth ->
    resolve_base_url w (d_base_url args) (pi_url info) = Ok b ->
    list_page_attachments fuel w b (pi_id info) auth (d_filename_contains args)
                          (h ++ [EvOpen (d_publish args) "r"])%list = (Ok [], es) ->
    delete_cmd fuel w args h
    = (Raise (Exit 0 None),
       (EvOpen (d_publish args) "r" :: es ++ [EvEcho MsgNoAttachmentsMatched])%list)
    /\ mutations (snd (delete_cmd fuel w args h)) = [].
Proof.
  intros fuel w args h info auth b es Hpage Hauth Hb Hlist.
  assert (Hrun : delete_cmd fuel w args h
    = (Raise (Exit 0 None),
       (EvOpen (d_publish args) "r" :: es ++ [EvEcho MsgNoAttachmentsMatched])%list)).
  { rewrite (delete_cmd_listed fuel w args h info auth b [] es Hpage Hauth Hb Hlist).
    reflexivity. }
  split; [exact Hrun|]. rewrite Hrun. cbn [snd].
  change (EvOpen (d_publish args) "r" :: es ++ [EvEcho MsgNoAttachmentsMatched])%list
    with ([EvOpen (d_publish args) "r"] ++ es ++ [EvEcho MsgNoAttachmentsMatched])%list.
  rewrite !mutations_app.
  pose proof (list_page_attachments_events no_mutation no_mutation_get
                fuel w b (pi_id info) auth (d_filename_contains args)
                (h ++ [EvOpen (d_publish args) "r"])%list) as Hq.
  rewrite Hlist in Hq. cbn [snd] in Hq.
  now rewrite (no_mutation_mutations _ Hq).
Qed.

Lemma delete_without_matches_is_a_no_op_witness :
  let w := sample_world [attachment "1" "a.png" 1] PNone PNone (fun _ => 204) in
  let args := mkDeleteArgs "plot.qmd" "_publish.yml" (Some "zzz") false true None None None in
  fst (delete_cmd 3 w args []) = Raise (Exit 0 None)
  /\ mutations (snd (delete_cmd 3 w args [])) = [].
Proof.
  intros w args.
  edestruct (delete_without_matches_is_a_no_op 3 w args []) as (Hrun & Hmut).
  - reflexivity.
  - reflexivity.
  - reflexivity.
  - vm_compute. reflexivity.
  - split; [now rewrite Hrun | exact Hmut].
Defined.

(** X9: with matched attachments whose sizes can be printed, a dry run
    prints the preview and "Dry-run: nothing deleted" and exits with code
    0 without asking; outside a dry run and without [--yes] a declined
    confirmation exits with code 1 right after the prompt.  In both cases
    the run ends there: no delete call follows the listing. *)
Theorem delete_preview_stops_before_deleting :
  forall fuel w args h info auth b atts es,
    fst (get_page_from_publish w (d_publish args) (d_source args) h) = Ok info ->
    make_auth w (d_email args) (d_token args) = Ok auth ->
    resolve_base_url w (d_base_url args) (pi_url info) = Ok b ->
    list_page_attachments fuel w b (pi_id info) auth (d_filename_contains args)
                          (h ++ [EvOpen (d_publish args) "r"])%list = (Ok atts, es) ->
    atts <> [] ->
    Forall (fun a => human w (ar_fileSize a) = Ok tt) atts ->
    (d_dry_run args = true ->
     delete_cmd fuel w args h
     = (Raise (Exit 0 None),
        (EvOpen (d_publish args) "r" :: es ++ preview_lines info atts
           ++ [EvEcho MsgDryRunNothingDeleted])%list))
    /\ (d_dry_run args = false -> d_yes args = false ->
        (forall h', w_confirm w h' = false) ->
        delete_cmd fuel w args h
        = (Raise (Exit 1 None),
           (EvOpen (d_publish args) "r" :: es ++ preview_lines info atts
              ++ [EvConfirm MsgConfirmDelete false])%list)).
Proof.
  intros fuel w args h info auth b atts es Hpage Hauth Hb Hlist Hne Hsizes.
  rewrite (delete_cmd_listed fuel w args h info auth b atts es Hpage Hauth Hb Hlist).
  cbn zeta. unfold after_listing, preview_lines.
  destruct atts as [|a0 atts0]; [contradiction|]. set (atts := a0 :: atts0) in *.
  unfold echo. rewrite bind_emit, bind_run, (preview_loop_run w atts _ Hsizes).
  cbn [fst snd]. split.
  - intros ->. rewrite bind_emit. cbn. reflexivity.
  - intros -> -> Hno. cbn [negb]. rewrite bind_run, bind_confirm_run, Hno.
    cbn. reflexivity.
Qed.

Lemma delete_preview_stops_before_deleting_witness :
  let w := mkWorld sample_env (fun _ => Ok sample_publish) urlsplit_plain (fun _ => false)
                   (sample_server [attachment "1" "a.png" 1; attachment "2" "b.png" 2]
                                  PNone PNone (fun _ => 204))
                   (fun _ => false) in
  let args := mkDeleteArgs "plot.qmd" "_publish.yml" None false false None None None in
  fst (delete_cmd 3 w args []) = Raise (Exit 1 None)
  /\ mutations (snd (delete_cmd 3 w args [])) = [].
Proof.
  intros w args.
  edestruct (delete_preview_stops_before_deleting 3 w args []) as (_ & Hno).
  - reflexivity.
  - reflexivity.
  - reflexivity.
  - vm_compute. reflexivity.
  - discriminate.
  - repeat constructor.
  - rewrite (Hno eq_refl eq_refl (fun _ => eq_refl)). split; reflexivity.
Defined.

Lemma bind_ret_run {A B} (a : A) (f : A -> M B) h : bind (ret a) f h = f a h.
Proof. now apply bind_pure. Qed.

Lemma delete_loop_events w b auth atts :
  forall failures h,
    Forall (fun e => forall m a, e <> EvConfirm m a)
           (snd (delete_loop w b auth atts failures h)).
Proof.
  induction atts as [|a atts IH]; intros failures h; cbn [delete_loop].
  - constructor.
  - unfold delete_attachment. rewrite bind_send.
    destruct ((status_code _ =? 204) || (status_code _ =? 200)).
    + unfold echo. rewrite bind_emit.
      match goal with |- context [delete_loop w b auth atts ?f ?h'] =>
        specialize (IH f h'); destruct (delete_loop w b auth atts f h') end.
      cbn [snd] in *. repeat (constructor; [discriminate|]). exact IH.
    + unfold echo. rewrite bind_emit, bind_emit.
      match goal with |- context [delete_loop w b auth atts ?f ?h'] =>
        specialize (IH f h'); destruct (delete_loop w b auth atts f h') end.
      cbn [snd] in *. repeat (constructor; [discriminate|]). exact IH.
Qed.

(** X10: with matched attachments, outside a dry run and with [--yes], the
    delete command asks nothing: after the listing and the preview it sends
    one DELETE request per listed record, to
    [{base}/rest/api/content/{id}] of that record with the credentials and
    nothing else, in the order listed, and no other request; it prints the
    summary ("All deletions succeeded." or "Completed with M failure(s).",
    M counting the answers other than 200 and 204) and returns. *)
Theorem delete_with_yes_asks_nothing :
  forall fuel w args h info auth b atts es,
    fst (get_page_from_publish w (d_publish args) (d_source args) h) = Ok info ->
    make_auth w (d_email args) (d_token args) = Ok auth ->
    resolve_base_url w (d_base_url args) (pi_url info) = Ok b ->
    list_page_attachments fuel w b (pi_id info) auth (d_filename_contains args)
                          (h ++ [EvOpen (d_publish args) "r"])%list = (Ok atts, es) ->
    atts <> [] ->
    Forall (fun a => human w (ar_fileSize a) = Ok tt) atts ->
    d_dry_run args = false -> d_yes args = true ->
    exists deletes M,
      delete_cmd fuel w args h
      = (Ok tt,
         (EvOpen (d_publish args) "r" :: es ++ preview_lines info atts ++ deletes
            ++ [EvEcho (if M =? 0 then MsgAllSucceeded
                        else MsgCompletedWithFailures M)])%list)
      /\ requests deletes
         = map (fun a => mkRequest DELETE
                                   (b ++ "/rest/api/content/" ++ py_str (ar_id a))%string
                                   auth [] [] None) atts
      /\ M = Z.of_nat
                (List.length
                   (filter (fun x => negb ((status_code (snd x) =? 204)
                                           || (status_code (snd x) =? 200)))
                           (exchanges deletes)))
      /\ Forall (fun e => forall m a, e <> EvConfirm m a) deletes
      /\ mutations (snd (delete_cmd fuel w args h)) = requests deletes.
Proof.
  intros fuel w args h info auth b atts es Hpage Hauth Hb Hlist Hne Hsizes Hdry Hyes.
  pose proof (list_page_attachments_events no_mutation no_mutation_get fuel w b (pi_id info)
                auth (d_filename_contains args)
                (h ++ [EvOpen (d_publish args) "r"])%list) as Hquiet.
  rewrite Hlist in Hquiet. cbn [snd] in Hquiet.
  rewrite (delete_cmd_listed fuel w args h info auth b atts es Hpage Hauth Hb Hlist).
  cbn zeta. unfold after_listing, preview_lines.
  destruct atts as [|a0 atts0]; [contradiction|]. set (atts := a0 :: atts0) in *.
  unfold echo. rewrite bind_emit, bind_run, (preview_loop_run w atts _ Hsizes).
  cbn [fst snd]. rewrite Hdry, Hyes. cbn [negb]. rewrite bind_ret_run. unfold ret.
  cbn [fst snd]. rewrite ?app_nil_r. unfold delete_matched. rewrite !bind_run.
  match goal with |- context [delete_loop w b auth atts 0 ?h'] =>
    destruct (delete_loop_run w b auth atts 0 h') as (deletes & Hdel & Hreq);
    pose proof (delete_loop_events w b auth atts 0 h') as Hev;
    rewrite Hdel in *
  end.
  cbn [fst snd] in *. exists deletes, (count_failed (exchanges deletes)).
  rewrite Z.add_0_l.
  assert (Hmut : mutations deletes = requests deletes).
  { unfold mutations. rewrite Hreq. clear. induction atts as [|a l IH]; [reflexivity|].
    cbn [map filter is_mutation delete_request rq_method]. now rewrite IH. }
  split; [|split; [|split; [|split]]].
  - unfold echo, emit. cbn. reflexivity.
  - exact Hreq.
  - reflexivity.
  - exact Hev.
  - unfold echo, emit. cbn [fst snd app].
    assert (Hskip : forall ev l, (forall rq rs, ev <> EvHttp rq rs) ->
                                 mutations (ev :: l) = mutations l).
    { intros ev l Hn. destruct ev; try reflexivity. exfalso. eapply Hn. reflexivity. }
    assert (Hpl : mutations (map (fun a => EvEcho (MsgItem (ar_id a) (ar_title a)
                                                           (ar_fileSize a))) atts) = []).
    { clear. induction atts as [|a l IH]; [reflexivity | exact IH]. }
    rewrite Hskip by discriminate.
    rewrite mutations_app, (no_mutation_mutations _ Hquiet). cbn [app].
    rewrite Hskip by discriminate.
    rewrite !mutations_app, Hpl, Hmut. cbn. now rewrite app_nil_r.
Qed.

Lemma delete_with_yes_asks_nothing_witness :
  let w := sample_world [attachment "1" "a.png" 1; attachment "2" "b.png" 2]
                        PNone PNone (fun _ => 204) in
  let args := mkDeleteArgs "plot.qmd" "_publish.yml" None false true None None None in
  fst (delete_cmd 3 w args []) = Ok tt
  /\ map (fun rq => (rq_method rq, rq_url rq)) (mutations (snd (delete_cmd 3 w args [])))
     = [(DELETE, "https://org.atlassian.net/wiki/rest/api/content/1"%string);
        (DELETE, "https://org.atlassian.net/wiki/rest/api/content/2"%string)].
Proof.
  intros w args.
  edestruct (delete_with_yes_asks_nothing 3 w args [])
    as (deletes & M & Hrun & Hreq & _ & _ & Hmut).
  - reflexivity.
  - reflexivity.
  - reflexivity.
  - vm_compute. reflexivity.
  - discriminate.
  - repeat constructor.
  - reflexivity.
  - reflexivity.
  - split; [now rewrite Hrun|]. rewrite Hmut, Hreq. reflexivity.
Defined.

(** ** The lister: failures and servers that never finish *)

(** X12: the lister has no bound of its own on the number of pages: against
    a server whose every listing response is well formed and carries the
    has-more signal, it sends as many requests as it is given iterations
    and never comes to return. *)
Theorem listing_never_ends_while_has_more :
  forall w base_url page_id auth limit,
    (forall h start,
        (exists page,
            page_items (w_http w h (list_request base_url page_id auth start limit)) = Ok page)
        /\ has_more (w_http w h (list_request base_url page_id auth start limit)) = true) ->
    forall fuel start acc h,
      fst (iter_attachments fuel w base_url page_id auth limit collect start acc h) = OutOfFuel
      /\ List.length (exchanges (snd (iter_attachments fuel w base_url page_id auth limit
                                                       collect start acc h))) = fuel.
Proof.
  intros w b p auth limit Hserver. induction fuel as [|fuel IH]; intros start acc h.
  - split; reflexivity.
  - rewrite iter_collect_step. cbn zeta.
    destruct (Hserver h start) as ((page & Hp) & Hmore). rewrite Hp.
    assert (Hn : exists next, next_link (w_http w h (list_request b p auth start limit)) = Ok next
                              /\ truthy next = true).
    { revert Hmore. unfold has_more, next_link, json.
      destruct (body_json _) as [data|]; [|discriminate]. cbn [obind].
      destruct data; try discriminate. cbn [py_get obind].
      destruct (py_or _ _); try discriminate. cbn [py_get].
      destruct (assoc "next" d0); [|discriminate]. intros H. eexists. now split. }
    destruct Hn as (next & -> & ->). cbn [fst snd exchanges List.length].
    destruct (IH (start + limit) (acc ++ page)%list
                 (h ++ [EvHttp (list_request b p auth start limit)
                               (w_http w h (list_request b p auth start limit))])%list)
      as (Hout & Hlen).
    split; [exact Hout | now rewrite Hlen].
Qed.

Lemma listing_never_ends_while_has_more_witness :
  let w := mkWorld sample_env (fun _ => Ok sample_publish) urlsplit_plain (fun _ => false)
                   (fun _ _ => json_response 200
                                 (PDict [("results", PList []);
                                         ("_links", PDict [("next", PStr "/more")])]))
                   (fun _ => true) in
  fst (iter_attachments 7 w "https://h/wiki" "123456" ("me", "t") default_limit collect 0 [] [])
  = OutOfFuel.
Proof.
  intros w.
  apply (listing_never_ends_while_has_more w "https://h/wiki" "123456" ("me", "t")
                                            default_limit).
  intros h start. split; [now exists [] | reflexivity].
Defined.

(** ** The normalized listing *)

(** A loop body that only computes, run over a list. *)
Fixpoint ofold {A S} (g : S -> A -> outcome S) (l : list A) (acc : S) : outcome S :=
  match l with
  | [] => Ok acc
  | x :: l' => obind (g acc x) (ofold g l')
  end.

Lemma ofold_app {A S} (g : S -> A -> outcome S) l1 l2 acc :
  ofold g (l1 ++ l2) acc = obind (ofold g l1 acc) (ofold g l2).
Proof.
  revert acc. induction l1 as [|x l1 IH]; intros acc; cbn [ofold app obind]; [reflexivity|].
  destruct (g acc x); cbn [obind]; [apply IH | reflexivity | reflexivity].
Qed.

Lemma foldM_lift {A S} (g : S -> A -> outcome S) l :
  forall acc h, foldM (fun a x => lift (g a x)) l acc h = (ofold g l acc, []).
Proof.
  induction l as [|x l IH]; intros acc h; cbn [foldM ofold]; [reflexivity|].
  rewrite bind_lift. destruct (g acc x); cbn [obind]; [apply IH | reflexivity | reflexivity].
Qed.

Lemma iter_lift_step {S} (g : S -> pyval -> outcome S) fuel w b p auth limit start acc h :
  iter_attachments (Datatypes.S fuel) w b p auth limit (fun a x => lift (g a x)) start acc h =
  let rq := list_request b p auth start limit in
  let rs := w_http w h rq in
  match page_items rs with
  | Ok atts =>
      match ofold g atts acc with
      | Ok acc' =>
          match next_link rs with
          | Ok next =>
              if truthy next
              then (fst (iter_attachments fuel w b p auth limit (fun a x => lift (g a x))
                                          (start + limit) acc' (h ++ [EvHttp rq rs])%list),
                    EvHttp rq rs
                      :: snd (iter_attachments fuel w b p auth limit
                                (fun a x => lift (g a x)) (start + limit) acc'
                                (h ++ [EvHttp rq rs])%list))
              else (Ok acc', [EvHttp rq rs])
          | Raise e => (Raise e, [EvHttp rq rs])
          | OutOfFuel => (OutOfFuel, [EvHttp rq rs])
          end
      | Raise e => (Raise e, [EvHttp rq rs])
      | OutOfFuel => (OutOfFuel, [EvHttp rq rs])
      end
  | Raise e => (Raise e, [EvHttp rq rs])
  | OutOfFuel => (OutOfFuel, [EvHttp rq rs])
  end.
Proof.
  cbn zeta. cbn [iter_attachments]. unfold page_items, next_link.
  set (rq := list_request b p auth start limit).
  rewrite bind_send. fold rq. set (rs := w_http w h rq).
  rewrite bind_lift.
  destruct (raise_for_status rs); try reflexivity. cbn [obind].
  rewrite bind_lift.
  destruct (json rs) as [data| |]; try reflexivity. cbn [obind].
  rewrite bind_lift.
  destruct (py_get data "results" (PList [])) as [results| |]; try reflexivity.
  cbn [obind]. rewrite bind_lift.
  destruct (py_iter results) as [atts| |]; try reflexivity. cbn [obind].
  rewrite bind_run, foldM_lift.
  destruct (ofold g atts acc) as [acc'| |]; try reflexivity. cbn [fst snd app].
  rewrite app_nil_r, bind_lift.
  destruct (py_get data "_links" PNone) as [links| |]; try reflexivity.
  cbn [obind]. rewrite bind_lift.
  destruct (py_get _ "next" PNone) as [next| |]; try reflexivity.
  destruct (truthy next); [|reflexivity].
  now destruct (iter_attachments _ _ _ _ _ _ _ _ _ _).
Qed.

Lemma ofold_invariant {A S} (g : S -> A -> outcome S) (Inv : S -> Prop) :
  (forall acc x acc', Inv acc -> g acc x = Ok acc' -> Inv acc') ->
  forall l acc r, Inv acc -> ofold g l acc = Ok r -> Inv r.
Proof.
  intros Hg. induction l as [|x l IH]; intros acc r Hacc; cbn [ofold].
  - now intros [= <-].
  - destruct (g acc x) as [acc'| |] eqn:E; try discriminate. cbn [obind].
    apply IH. exact (Hg _ _ _ Hacc E).
Qed.

Lemma iter_lift_invariant {S} (g : S -> pyval -> outcome S) (Inv : S -> Prop) w b p auth limit :
  (forall acc x acc', Inv acc -> g acc x = Ok acc' -> Inv acc') ->
  forall fuel start acc h r,
    Inv acc ->
    fst (iter_attachments fuel w b p auth limit (fun a x => lift (g a x)) start acc h) = Ok r ->
    Inv r.
Proof.
  intros Hg. induction fuel as [|fuel IH]; intros start acc h r Hacc.
  - cbn. discriminate.
  - rewrite iter_lift_step. cbn zeta.
    destruct (page_items _) as [atts| |]; try discriminate.
    destruct (ofold g atts acc) as [acc'| |] eqn:E; try discriminate.
    pose proof (ofold_invariant g Inv Hg atts acc acc' Hacc E) as Hacc'.
    destruct (next_link _) as [next| |]; try discriminate.
    destruct (truthy next); cbn [fst].
    + now apply IH.
    + now intros [= <-].
Qed.

Lemma normalize_attachment_cases b fc items att items' :
  normalize_attachment b fc items att = Ok items' ->
  exists title,
    py_get att "title" (PStr "") = Ok title
    /\ ((items' = items
         /\ exists f, fc = Some f /\ f <> ""%string /\ py_contains f title = Ok false)
        \/ (exists r id,
               items' = (items ++ [r])%list
               /\ py_get att "id" PNone = Ok id /\ ar_id r = id /\ ar_title r = title
               /\ (forall f, fc = Some f -> f <> ""%string -> py_contains f title = Ok true))).
Proof.
  unfold normalize_attachment.
  destruct (py_get att "title" (PStr "")) as [title| |] eqn:Ht; try discriminate.
  cbn [obind]. intros H. exists title. split; [reflexivity|].
  assert (Hkeep :
    (e <~ py_get att "extensions" PNone ;
     v <~ py_get att "version" PNone ;
     l <~ py_get att "_links" PNone ;
     id <~ py_get att "id" PNone ;
     mediaType <~ py_get (py_or e (PDict [])) "mediaType" PNone ;
     fileSize <~ py_get (py_or e (PDict [])) "fileSize" PNone ;
     number <~ py_get (py_or v (PDict [])) "number" PNone ;
     when <~ py_get (py_or v (PDict [])) "when" PNone ;
     by_ <~ py_get (py_or v (PDict [])) "by" PNone ;
     creator <~ py_get (py_or by_ (PDict [])) "displayName" PNone ;
     download <~ py_get (py_or l (PDict [])) "download" PNone ;
     webui <~ py_get (py_or l (PDict [])) "webui" PNone ;
     Ok (items ++ [mkRecord id title mediaType fileSize number when creator
                            (link_or_none b download) (link_or_none b webui)])%list)%outcome
    = Ok items' ->
    exists r id, items' = (items ++ [r])%list
                 /\ py_get att "id" PNone = Ok id /\ ar_id r = id /\ ar_title r = title).
  { clear H. intros H.
    repeat match type of H with
           | obind ?o _ = Ok _ => destruct o eqn:?; try discriminate H; cbn [obind] in H
           end.
    injection H as <-. eexists. eexists. repeat split. }
  destruct fc as [f|].
  - cbn [opt_truthy] in H. destruct (f =? "")%string eqn:Ef; cbn [negb obind] in H.
    + right. destruct (Hkeep H) as (r & id & -> & Hid & Hr1 & Hr2).
      exists r, id. repeat split; try assumption.
      intros f' [= <-] Hne. apply String.eqb_neq in Hne. congruence.
    + destruct (py_contains f title) as [c| |] eqn:Ec; try discriminate. cbn [obind] in H.
      destruct c; cbn [negb] in H.
      * right. destruct (Hkeep H) as (r & id & -> & Hid & Hr1 & Hr2).
        exists r, id. repeat split; try assumption. now intros f' [= <-] _.
      * left. injection H as <-. split; [reflexivity|].
        exists f. repeat split; try assumption. now apply String.eqb_neq.
  - cbn [obind] in H. right. destruct (Hkeep H) as (r & id & -> & Hid & Hr1 & Hr2).
    exists r, id. repeat split; try assumption. discriminate.
Qed.

Lemma page_items_error_status rs :
  400 <= status_code rs < 600 -> page_items rs = Raise (HTTPError (status_code rs)).
Proof.
  intros [H1 H2]. unfold page_items, raise_for_status.
  apply Z.leb_le in H1. apply Z.ltb_lt in H2. now rewrite H1, H2.
Qed.

Lemma iter_lift_http_error {S} (g : S -> pyval -> outcome S) w b p auth limit fuel :
  forall start acc h before rq rs after,
    snd (iter_attachments fuel w b p auth limit (fun a x => lift (g a x)) start acc h)
    = (before ++ EvHttp rq rs :: after)%list ->
    400 <= status_code rs < 600 ->
    after = []
    /\ fst (iter_attachments fuel w b p auth limit (fun a x => lift (g a x)) start acc h)
       = Raise (HTTPError (status_code rs)).
Proof.
  induction fuel as [|fuel IH]; intros start acc h before rq rs after.
  - cbn. intros H. destruct before; discriminate.
  - rewrite iter_lift_step. cbn zeta.
    set (rq0 := list_request b p auth start limit). set (rs0 := w_http w h rq0).
    intros Hev Hst.
    destruct before as [|ev before].
    + assert (Hhead : rq = rq0 /\ rs = rs0).
      { cbn [app] in Hev.
        destruct (page_items rs0); [destruct (ofold g _ acc);
          [destruct (next_link rs0) as [next| |]; [destruct (truthy next)| |] | |] | |];
          cbn [snd] in Hev; injection Hev as ? ? ?; now subst. }
      destruct Hhead as [-> ->]. cbn [app] in Hev.
      rewrite (page_items_error_status rs0 Hst) in *. cbn [fst snd] in *.
      injection Hev as <-. now split.
    + cbn [app] in Hev.
      destruct (page_items rs0) as [atts|e|];
        [|cbn [snd] in Hev; injection Hev as _ Hev; destruct before; discriminate
         |cbn [snd] in Hev; injection Hev as _ Hev; destruct before; discriminate].
      destruct (ofold g atts acc) as [acc'|e|];
        [|cbn [snd] in Hev; injection Hev as _ Hev; destruct before; discriminate
         |cbn [snd] in Hev; injection Hev as _ Hev; destruct before; discriminate].
      destruct (next_link rs0) as [next|e|];
        [|cbn [snd] in Hev; injection Hev as _ Hev; destruct before; discriminate
         |cbn [snd] in Hev; injection Hev as _ Hev; destruct before; discriminate].
      destruct (truthy next);
        [|cbn [snd] in Hev; injection Hev as _ Hev; destruct before; discriminate].
      cbn [fst snd] in *. injection Hev as _ Hev.
      exact (IH _ _ _ _ _ _ _ Hev Hst).
Qed.

(** X11: a listing response with a status from 400 to 599 ends the listing
    at once with an HTTP error of that status: wherever such a response
    occurs in a run of the lister, nothing follows it (no further request,
    no retry) and the run has raised the HTTP error of that status, the
    records of the earlier pages being lost with it; in particular a first
    response with such a status gives that error after one request. *)
Theorem listing_stops_at_the_first_http_error :
  forall fuel w base_url page_id auth filename_contains h,
    (forall before rq rs after,
        snd (list_page_attachments fuel w base_url page_id auth filename_contains h)
        = (before ++ EvHttp rq rs :: after)%list ->
        400 <= status_code rs < 600 ->
        after = []
        /\ fst (list_page_attachments fuel w base_url page_id auth filename_contains h)
           = Raise (HTTPError (status_code rs)))
    /\ (forall rs,
           rs = w_http w h (list_request base_url page_id auth 0 50) ->
           400 <= status_code rs < 600 ->
           list_page_attachments (S fuel) w base_url page_id auth filename_contains h
           = (Raise (HTTPError (status_code rs)),
              [EvHttp (list_request base_url page_id auth 0 50) rs])).
Proof.
  intros fuel w b p auth fc h. split.
  - intros before rq rs after. unfold list_page_attachments. apply iter_lift_http_error.
  - intros rs -> Hst. unfold list_page_attachments. rewrite iter_lift_step. cbn zeta.
    unfold default_limit. now rewrite (page_items_error_status _ Hst).
Qed.

Lemma listing_stops_at_the_first_http_error_witness :
  let w := mkWorld sample_env (fun _ => Ok sample_publish) urlsplit_plain (fun _ => false)
                   (fun _ _ => mkResponse 404 None "no such page") (fun _ => true) in
  list_page_attachments 5 w "https://h/wiki" "123456" ("me", "t") None []
  = (Raise (HTTPError 404),
     [EvHttp (list_request "https://h/wiki" "123456" ("me", "t") 0 50)
             (mkResponse 404 None "no such page")]).
Proof.
  intros w.
  apply (proj2 (listing_stops_at_the_first_http_error
                  4 w "https://h/wiki" "123456" ("me", "t") None [])
               (mkResponse 404 None "no such page") eq_refl).
  cbn. lia.
Defined.

(** X13: every record of a listing filtered with a non-empty [--contains]
    has a title that contains the filter, whatever the server answers. *)
Theorem filtered_listing_matches_the_filter :
  forall fuel w base_url page_id auth f h items,
    f <> ""%string ->
    fst (list_page_attachments fuel w base_url page_id auth (Some f) h) = Ok items ->
    Forall (fun r => py_contains f (ar_title r) = Ok true) items.
Proof.
  intros fuel w b p auth f h items Hf. unfold list_page_attachments.
  apply (iter_lift_invariant (normalize_attachment b (Some f))
           (Forall (fun r => py_contains f (ar_title r) = Ok true))); [|constructor].
  intros acc x acc' Hacc H.
  destruct (normalize_attachment_cases _ _ _ _ _ H)
    as (title & _ & [(-> & _) | (r & id & -> & _ & _ & Hr & Hc)]); [exact Hacc|].
  apply Forall_app. split; [exact Hacc|]. constructor; [|constructor].
  rewrite Hr. now apply Hc.
Qed.

Lemma filtered_listing_matches_the_filter_witness :
  let w := sample_world [attachment "1" "plot-a.png" 1; attachment "2" "table.csv" 2;
                         attachment "3" "plot-b.png" 1] PNone PNone (fun _ => 204) in
  exists items,
    fst (list_page_attachments 3 w "https://h/wiki" "123456" ("me", "t") (Some "plot") [])
    = Ok items
    /\ Forall (fun r => py_contains "plot" (ar_title r) = Ok true) items
    /\ map ar_id items = [PStr "1"; PStr "3"].
Proof.
  intros w. eexists. split; [vm_compute; reflexivity|]. split; [|reflexivity].
  apply (filtered_listing_matches_the_filter 3 w "https://h/wiki" "123456" ("me", "t")
                                             "plot" []); [discriminate | reflexivity].
Defined.

Lemma iter_lift_served {S} (g : S -> pyval -> outcome S) w b p auth store :
  serves w b p auth store ->
  forall fuel start acc h,
    0 <= start -> (0 < fuel)%nat ->
    Z.of_nat (List.length store) - start <= 50 * Z.of_nat fuel ->
    fst (iter_attachments fuel w b p auth default_limit (fun a x => lift (g a x)) start acc h)
    = ofold g (skipn (Z.to_nat start) store) acc.
Proof.
  intros Hs. induction fuel as [|fuel IH]; intros start acc h Hstart Hfuel Hlen; [lia|].
  rewrite iter_lift_step. cbn zeta.
  destruct (served_page w b p auth store h start Hs) as (Hp & Hn).
  rewrite Hp, Hn. change default_limit with 50.
  destruct (start + 50 <? Z.of_nat (List.length store)) eqn:E.
  - apply Z.ltb_lt in E.
    rewrite <- (firstn_skipn 50 (skipn (Z.to_nat start) store)) at 2.
    rewrite ofold_app.
    destruct (ofold g (firstn 50 (skipn (Z.to_nat start) store)) acc) as [acc'| |];
      try reflexivity.
    cbn [truthy String.eqb negb fst obind]. rewrite IH by lia.
    replace (Z.to_nat (start + 50)) with (50 + Z.to_nat start)%nat by lia.
    now rewrite <- skipn_skipn.
  - apply Z.ltb_ge in E.
    rewrite firstn_all2 by (rewrite length_skipn; lia).
    destruct (ofold g (skipn (Z.to_nat start) store) acc); reflexivity.
Qed.

(** An attachment and the record made of it. *)
Definition record_of (att : pyval) (r : attachment_record) : Prop :=
  py_get att "id" PNone = Ok (ar_id r) /\ py_get att "title" (PStr "") = Ok (ar_title r).

Lemma ofold_normalize_unfiltered b fc l :
  opt_truthy fc = false ->
  forall acc items,
    ofold (normalize_attachment b fc) l acc = Ok items ->
    exists new, items = (acc ++ new)%list /\ Forall2 record_of l new.
Proof.
  intros Hfc. induction l as [|att l IH]; intros acc items; cbn [ofold].
  - intros [= <-]. exists []. split; [now rewrite app_nil_r | constructor].
  - destruct (normalize_attachment b fc acc att) as [acc'| |] eqn:E; try discriminate.
    cbn [obind]. intros H.
    destruct (normalize_attachment_cases _ _ _ _ _ E)
      as (title & Ht & [(_ & f & -> & Hne & _) | (r & id & -> & Hid & Hr1 & Hr2 & _)]).
    + rewrite (opt_truthy_some f Hne) in Hfc. discriminate.
    + destruct (IH _ _ H) as (new & -> & Hnew).
      exists (r :: new). split; [now rewrite <- app_assoc|].
      constructor; [|exact Hnew]. split; congruence.
Qed.

(** X14: against a server that holds the attachments of the page and
    paginates them, the listing is the normalization of the stored
    attachments, one after the other in stored order (and fails as that
    normalization fails); without a filter every stored attachment gives
    exactly one record, in order, with its id and title. *)
Theorem listing_normalizes_the_stored_attachments :
  forall fuel w base_url page_id auth store fc h,
    serves w base_url page_id auth store ->
    (0 < fuel)%nat ->
    Z.of_nat (List.length store) <= 50 * Z.of_nat fuel ->
    fst (list_page_attachments fuel w base_url page_id auth fc h)
    = ofold (normalize_attachment base_url fc) store []
    /\ (opt_truthy fc = false ->
        forall items,
          fst (list_page_attachments fuel w base_url page_id auth fc h) = Ok items ->
          Forall2 record_of store items).
Proof.
  intros fuel w b p auth store fc h Hs Hfuel Hlen.
  assert (Hrun : fst (list_page_attachments fuel w b p auth fc h)
                 = ofold (normalize_attachment b fc) store []).
  { unfold list_page_attachments.
    rewrite (iter_lift_served (normalize_attachment b fc) w b p auth store Hs fuel 0 [] h);
      [reflexivity | lia | exact Hfuel | lia]. }
  split; [exact Hrun|].
  intros Hfc items. rewrite Hrun. intros H.
  destruct (ofold_normalize_unfiltered b fc store Hfc [] items H) as (new & -> & Hnew).
  exact Hnew.
Qed.

Lemma listing_normalizes_the_stored_attachments_witness :
  let w := sample_world store51 PNone PNone (fun _ => 204) in
  exists items,
    fst (list_page_attachments 2 w "https://h/wiki" "123456" ("me", "t") None []) = Ok items
    /\ Forall2 record_of store51 items.
Proof.
  intros w.
  destruct (listing_normalizes_the_stored_attachments
              2 w "https://h/wiki" "123456" ("me", "t") store51 None [])
    as (Hrun & Hrec).
  - intros h start. split; reflexivity.
  - lia.
  - vm_compute. discriminate.
  - eexists. split; [vm_compute; reflexivity|]. apply Hrec; [reflexivity|].
    vm_compute. reflexivity.
Defined.

(** ** The resolver's failures *)

Lemma scan_entries_not_found entries t p s :
  Forall (passed_over t) entries ->
  scan_entries entries t p s = Raise TypeError.
Proof.
  induction 1 as [|x entries Hx Hrest IH]; cbn [scan_entries]; [reflexivity|].
  destruct x; try exact IH.
  destruct Hx as (src & Hsrc & Hn). cbn [py_get obind]. rewrite Hsrc.
  cbn [norm_value obind]. apply String.eqb_neq in Hn. rewrite Hn. exact IH.
Qed.

Lemma scan_entries_bad_source pre d post t p s v :
  Forall (passed_over t) pre ->
  assoc "source" d = Some v ->
  (forall src, v <> PStr src) ->
  scan_entries (pre ++ PDict d :: post) t p s = Raise TypeError.
Proof.
  intros Hpre Hv Hns. induction Hpre as [|x pre Hx Hpre IH]; cbn [app scan_entries].
  - cbn [py_get obind]. rewrite Hv.
    destruct v; try reflexivity. now elim (Hns s0).
  - destruct x; try exact IH.
    destruct Hx as (src & Hsrc & Hn). cbn [py_get obind]. rewrite Hsrc.
    cbn [norm_value obind]. apply String.eqb_neq in Hn. rewrite Hn. exact IH.
Qed.

Lemma page_of_item_ok_or_type_error item p s :
  (exists info, page_of_item item p s = Ok info) \/ page_of_item item p s = Raise TypeError.
Proof.
  unfold page_of_item, exit_with. destruct item; try (now right).
  cbn [py_get obind].
  set (pid := strip _). set (url := match assoc "url" d with Some x => x | None => PNone end).
  destruct ((pid =? "")%string && truthy url).
  - destruct url; try (now right). cbn [obind].
    destruct (_ =? "")%string; [now right | left; eauto].
  - cbn [obind]. destruct (pid =? "")%string; [now right | left; eauto].
Qed.

Lemma page_of_entry_ok_or_type_error d p s :
  (exists info, page_of_entry (PDict d) p s = Ok info)
  \/ page_of_entry (PDict d) p s = Raise TypeError.
Proof.
  unfold page_of_entry. cbn [py_get obind]. apply page_of_item_ok_or_type_error.
Qed.

Lemma scan_entries_ok_or_type_error entries t p s :
  (exists info, scan_entries entries t p s = Ok info)
  \/ scan_entries entries t p s = Raise TypeError.
Proof.
  induction entries as [|e entries IH]; cbn [scan_entries]; [now right|].
  destruct e as [| | | | |d]; try exact IH.
  cbn [py_get obind].
  destruct (match assoc "source" d with Some x => x | None => PStr "" end);
    try (now right).
  cbn [norm_value obind].
  destruct (negb _); [exact IH | apply page_of_entry_ok_or_type_error].
Qed.

(** X15: on every loaded document the resolver returns a page identity or
    raises a TypeError, and nothing else: the four configuration failures
    that the code words differently (the document is not a list, no entry
    has the base name looked for, the matched entry has no usable config,
    it has no page id) all reach the caller as the same TypeError, because
    [typer.Exit] refuses the [message] keyword of lines 35, 43, 50 and
    52, and so does a [source] that is present but not a string, met
    before any match, even when a later entry matches.  Entries that are
    not dicts are passed over silently. *)
Theorem resolver_failures :
  forall publish_path source_qmd,
    (forall data,
        (exists info, page_from_data data publish_path source_qmd = Ok info)
        \/ page_from_data data publish_path source_qmd = Raise TypeError)
    /\ (forall data,
           (forall entries, data <> PList entries) ->
           page_from_data data publish_path source_qmd = Raise TypeError)
    /\ (forall entries,
           Forall (passed_over (_norm source_qmd)) entries ->
           page_from_data (PList entries) publish_path source_qmd = Raise TypeError)
    /\ (forall pre d post v,
           Forall (passed_over (_norm source_qmd)) pre ->
           assoc "source" d = Some v ->
           (forall src, v <> PStr src) ->
           page_from_data (PList (pre ++ PDict d :: post)) publish_path source_qmd
           = Raise TypeError).
Proof.
  intros p s. split; [|split; [|split]].
  - intros data. destruct data; try (now right).
    cbn [page_from_data]. apply scan_entries_ok_or_type_error.
  - intros data Hnl. destruct data; try reflexivity. now elim (Hnl l).
  - intros entries H. cbn [page_from_data]. now apply scan_entries_not_found.
  - intros pre d post v Hpre Hv Hns. cbn [page_from_data].
    now apply scan_entries_bad_source with (v := v).
Qed.

Lemma resolver_failures_witness :
  page_from_data (PDict [("source", PStr "a.qmd")]) "_publish.yml" "a.qmd"
  = Raise TypeError
  /\ page_from_data (PList [PStr "note"; PDict [("source", PStr "b.qmd")]])
                    "_publish.yml" "a.qmd"
     = Raise TypeError
  /\ page_from_data (PList [PDict [("source", PNone)];
                            PDict [("source", PStr "a.qmd");
                                   ("confluence", PDict [("id", PInt 42)])]])
                    "_publish.yml" "a.qmd"
     = Raise TypeError.
Proof.
  split; [|split].
  - apply (proj1 (proj2 (resolver_failures "_publish.yml" "a.qmd"))). discriminate.
  - apply (proj1 (proj2 (proj2 (resolver_failures "_publish.yml" "a.qmd")))).
    repeat constructor. exists "b.qmd"%string. split; [reflexivity | discriminate].
  - apply (proj2 (proj2 (proj2 (resolver_failures "_publish.yml" "a.qmd")))
             [] [("source", PNone)] _ PNone); [constructor | reflexivity | discriminate].
Defined.

(* ================================================================== *)
(** * The commands that only read: [show-page] and [list] *)

Definition ch_newline : ascii := ascii_of_nat 10.

(** One character of a JSON string as [json.dumps] writes it (with
    [ensure_ascii]): the quote, the backslash and everything outside the
    printable ASCII range are escaped.  Only ASCII strings are rendered as
    Python does. *)
Definition json_char (c : ascii) : string :=
  let n := nat_of_ascii c in
  if Ascii.eqb c ch_backslash then String ch_backslash (String ch_backslash "")
  else if Ascii.eqb c ch_dquote then String ch_backslash (String ch_dquote "")
  else if (n =? 8)%nat then String ch_backslash "b"
  else if (n =? 12)%nat then String ch_backslash "f"
  else if (n =? 10)%nat then String ch_backslash "n"
  else if (n =? 13)%nat then String ch_backslash "r"
  else if (n =? 9)%nat then String ch_backslash "t"
  else if ((n <? 32)%nat || (126 <? n)%nat)
       then String ch_backslash
              (String "u" (String "0" (String "0"
                 (String (hex_digit (n / 16)) (String (hex_digit (n mod 16)) "")))))
  else String c "".

Definition json_str (s : string) : string :=
  String ch_dquote (concat_map_chars json_char s ++ String ch_dquote "").

(** The line break and the indentation of nesting [level], for [indent=2]. *)
Definition newline_indent (level : nat) : string :=
  String ch_newline (repeat_string (2 * level) " ").

(** [json.dumps(v, indent=2)], from nesting [level]. *)
Fixpoint json_dumps (level : nat) (v : pyval) : string :=
  match v with
  | PNone => "null"
  | PBool true => "true"
  | PBool false => "false"
  | PInt n => str_of_Z n
  | PStr s => json_str s
  | PList l =>
      match l with
      | [] => "[]"
      | _ => "[" ++ newline_indent (S level)
                 ++ String.concat ("," ++ newline_indent (S level))
                                  (map (json_dumps (S level)) l)
                 ++ newline_indent level ++ "]"
      end
  | PDict d =>
      match d with
      | [] => "{}"
      | _ => "{" ++ newline_indent (S level)
                 ++ String.concat ("," ++ newline_indent (S level))
                      (map (fun kv => json_str (fst kv) ++ ": "
                                        ++ json_dumps (S level) (snd kv)) d)
                 ++ newline_indent level ++ "}"
      end
  end.

(** [show_page] *)
Definition show_page (w : world) (source publish : string) : M unit :=
  (info <- get_page_from_publish w publish source ;;
   base_url <- lift (resolve_base_url w None (pi_url info)) ;;
   echo (MsgText (json_dumps 0 (PDict [("page_id", PStr (pi_id info));
                                       ("page_url", pi_url info);
                                       ("base_url", PStr base_url)]))))%io.










(** X16: [show-page] never uses the network: its only event besides the
    line it prints is the reading of the mapping file.  When the page and
    the base URL (from the environment or the page URL; there is no
    override) resolve, it prints one JSON object with [page_id],
    [page_url] and [base_url]; when either fails it prints nothing and
    ends with that error. *)
Theorem show_page_uses_no_network :
  forall w source publish h,
    requests (snd (show_page w source publish h)) = []
    /\ (forall info b,
           fst (get_page_from_publish w publish source h) = Ok info ->
           resolve_base_url w None (pi_url info) = Ok b ->
           show_page w source publish h
           = (Ok tt,
              [EvOpen publish "r";
               EvEcho (MsgText (json_dumps 0 (PDict [("page_id", PStr (pi_id info));
                                                    ("page_url", pi_url info);
                                                    ("base_url", PStr b)])))]))
    /\ (forall e,
           fst (get_page_from_publish w publish source h) = Raise e ->
           show_page w source publish h = (Raise e, [EvOpen publish "r"]))
    /\ (forall info e,
           fst (get_page_from_publish w publish source h) = Ok info ->
           resolve_base_url w None (pi_url info) = Raise e ->
           show_page w source publish h = (Raise e, [EvOpen publish "r"])).
Proof.
  intros w source publish h. unfold show_page. rewrite bind_run.
  rewrite get_page_from_publish_run. cbn [fst snd].
  split; [|split; [|split]].
  - destruct (match w_load_yaml w publish with Ok data => _ | Raise e => _ | OutOfFuel => _ end)
      as [info| |]; try reflexivity.
    cbn [fst snd]. rewrite bind_lift.
    destruct (resolve_base_url w None (pi_url info)); reflexivity.
  - intros info b -> Hb. cbn [fst snd]. rewrite bind_lift, Hb. reflexivity.
  - intros e ->. reflexivity.
  - intros info e -> Hb. cbn [fst snd]. rewrite bind_lift, Hb. reflexivity.
Qed.

Lemma show_page_uses_no_network_witness :
  let w := mkWorld no_env (fun _ => Ok sample_publish) urlsplit_plain (fun _ => false)
                   (sample_server [] PNone PNone (fun _ => 204)) (fun _ => true) in
  snd (show_page w "figs/plot.qmd" "_publish.yml" [])
  = [EvOpen "_publish.yml" "r";
     EvEcho (MsgText (json_dumps 0
                        (PDict [("page_id", PStr "123456");
                                ("page_url",
                                 PStr "https://org.atlassian.net/wiki/spaces/X/pages/123456/Title");
                                ("base_url", PStr "https://org.atlassian.net/wiki")])))].
Proof.
  intros w.
  rewrite (proj1 (proj2 (show_page_uses_no_network w "figs/plot.qmd" "_publish.yml" []))
             (mkPage "123456"
                     (PStr "https://org.atlassian.net/wiki/spaces/X/pages/123456/Title"))
             "https://org.atlassian.net/wiki" eq_refl eq_refl).
  reflexivity.
Defined.




(** ** The base URL that every request is built on *)

Lemma rstrip_slash_empty (s : string) :
  rstrip_slash s = ""%string <-> s = repeat_string (String.length s) "/".
Proof.
  unfold rstrip_slash. induction s as [|a s IH]; [now split|].
  cbn [rstrip_by String.length repeat_string String.append]. split.
  - destruct (rstrip_by (Ascii.eqb "/") s) as [|x r]; [|discriminate].
    destruct (Ascii.eqb "/" a) eqn:Ea; [|discriminate].
    intros _. apply Ascii.eqb_eq in Ea as <-. f_equal. now apply IH.
  - intros [= -> Hs]. apply IH in Hs. now rewrite Hs.
Qed.

(** X18: the check that a base URL is there is made before its trailing
    slashes are removed: an override that is not empty always resolves, and
    it resolves to the empty base URL (so that the request paths
    [/rest/api/...] are left without a host) exactly when it is made of
    slashes only. *)
Theorem slashes_only_override_gives_empty_base_url :
  forall w page_url raw,
    raw <> ""%string ->
    resolve_base_url w (Some raw) page_url = Ok (rstrip_slash raw)
    /\ (resolve_base_url w (Some raw) page_url = Ok ""%string
        <-> raw = repeat_string (String.length raw) "/").
Proof.
  intros w page_url raw Hraw.
  assert (Hrun : resolve_base_url w (Some raw) page_url = Ok (rstrip_slash raw)).
  { unfold resolve_base_url. rewrite (opt_truthy_some raw Hraw). cbn [obind].
    now rewrite (opt_truthy_some raw Hraw). }
  split; [exact Hrun|]. rewrite Hrun. split.
  - intros [= H]. now apply rstrip_slash_empty.
  - intros H. f_equal. now apply rstrip_slash_empty.
Qed.

Lemma slashes_only_override_gives_empty_base_url_witness :
  resolve_base_url (sample_world [] PNone PNone (fun _ => 204)) (Some "//") PNone
  = Ok ""%string.
Proof.
  apply (proj2 (slashes_only_override_gives_empty_base_url
                  (sample_world [] PNone PNone (fun _ => 204)) PNone "//"
                  ltac:(discriminate))).
  reflexivity.
Defined.
